(** * YouTube marketing tool: metric derivation and aggregation

    A shallow embedding of [app.py] (the FastAPI service) and
    [streamlit_app.py] (the dashboard).  The decoded JSON of the platform
    API is an untyped Python value, so the embedding keeps Python's dynamic
    typing: every dictionary access, conversion and arithmetic operation
    returns in an exception monad, and [try]/[except] is a handler. *)

From Stdlib Require Import ZArith NArith List Bool Lia Permutation Sorted.
From Stdlib Require Import String Ascii.
From Stdlib Require Import Floats.SpecFloat.
Import ListNotations.

Local Open Scope Z_scope.

Set Warnings "-register-all".

(** ** The Python runtime the two programs rely on *)

Module Py.

(** A Python [str] is a sequence of Unicode code points. *)
Definition codepoint := N.
Definition str := list codepoint.

(** An ASCII literal of the source. *)
Definition lit (s : string) : str := map N_of_ascii (list_ascii_of_string s).

Fixpoint str_eqb (a b : str) : bool :=
  match a, b with
  | [], [] => true
  | x :: a', y :: b' => N.eqb x y && str_eqb a' b'
  | _, _ => false
  end.

(** [len(s)] *)
Definition len {A} (l : list A) : Z := Z.of_nat (List.length l).

(** Keys used to subscript a value: [d['k']] and [l[0]]. *)
Inductive key :=
| KStr (s : str)
| KInt (i : Z).

(** The literal [detail] texts of the HTTP errors raised by [app.py]. *)
Inductive message :=
| ApiUnavailable     (* "YouTube APIが利用できません" *)
| VideoNotFound      (* "動画が見つかりません" *)
| ChannelNotFound    (* "チャンネルが見つかりません" *)
| TooManyChannels.   (* "一度に比較できるチャンネルは5つまでです" *)

(** Exceptions.  All of them derive from [Exception]; [HttpError] is the
    client library's error and carries [e.resp.status]; [HTTPException] is
    the web framework's, with a status code and a detail that is either a
    literal of the source or [str(e)] of a caught exception. *)
Inductive exn :=
| KeyError (k : key)
| IndexError
| TypeError
| ValueError
| AttributeError
| ZeroDivisionError
| OverflowError
| ValidationError
| TransportError
| HttpError (status : Z)
| HTTPException (status_code : Z) (detail : detail)
with detail :=
| Detail (m : message)
| DetailStr (e : exn).

(** [e.status_code] of an [HTTPException] *)
Definition status_code (e : exn) : option Z :=
  match e with
  | HTTPException status _ => Some status
  | _ => None
  end.

Inductive result (A : Type) :=
| Ok (a : A)
| Raise (e : exn).
Arguments Ok {A} a.
Arguments Raise {A} e.

Definition bind {A B} (m : result A) (k : A -> result B) : result B :=
  match m with
  | Ok a => k a
  | Raise e => Raise e
  end.

(** [try: body except Exception as e: handler e] *)
Definition try_except {A} (body : result A) (handler : exn -> result A) : result A :=
  match body with
  | Ok a => Ok a
  | Raise e => handler e
  end.

Fixpoint mapM {A B} (f : A -> result B) (l : list A) : result (list B) :=
  match l with
  | [] => Ok []
  | x :: l' =>
      match f x with
      | Ok y => match mapM f l' with
                | Ok ys => Ok (y :: ys)
                | Raise e => Raise e
                end
      | Raise e => Raise e
      end
  end.

(** *** Floats: IEEE 754 binary64 *)

Definition prec : Z := 53.
Definition emax : Z := 1024.
Definition float := spec_float.

Definition is_inf (x : float) : bool :=
  match x with S754_infinity _ => true | _ => false end.

Definition is_nan (x : float) : bool :=
  match x with S754_nan => true | _ => false end.

Definition is_zero (x : float) : bool :=
  match x with S754_zero _ => true | _ => false end.

(** [float(n)] for an [int]: correctly rounded, [OverflowError] beyond the
    range of a double. *)
Definition float_of_int (n : Z) : result float :=
  let x := binary_normalize prec emax n 0 false in
  if is_inf x then Raise OverflowError else Ok x.

(** An integer as an unrounded operand of a division. *)
Definition exact (n : Z) : float :=
  match n with
  | Z0 => S754_zero false
  | Zpos p => S754_finite false p 0
  | Zneg p => S754_finite true p 0
  end.

(** [a / b] on two [int]s: true division, the correctly rounded quotient. *)
Definition int_truediv (a b : Z) : result float :=
  if b =? 0 then Raise ZeroDivisionError
  else if a =? 0 then Ok (S754_zero (b <? 0))
  else
    let q := SFdiv prec emax (exact a) (exact b) in
    if is_inf q then Raise OverflowError else Ok q.

(** [x / y] on two [float]s. *)
Definition float_truediv (x y : float) : result float :=
  if is_zero y then Raise ZeroDivisionError else Ok (SFdiv prec emax x y).

Definition float_mul (x y : float) : float := SFmul prec emax x y.

(** [x < y] on floats; false when either side is a NaN. *)
Definition float_ltb (x y : float) : bool := SFltb x y.

(** Round half to even of the quotient [a / b], for [0 <= a] and [0 < b]. *)
Definition round_half_even_div (a b : Z) : Z :=
  let (q, r) := Z.div_eucl a b in
  match 2 * r ?= b with
  | Lt => q
  | Gt => q + 1
  | Eq => if Z.even q then q else q + 1
  end.

(** [round(x, ndigits)] on a [float], for [0 <= ndigits <= 323]: the exact
    binary value is rounded half-even to [ndigits] decimal places and the
    decimal result is converted back to the nearest double. *)
Definition float_round (x : float) (ndigits : N) : result float :=
  match x with
  | S754_finite s m e =>
      let p := 10 ^ Z.of_N ndigits in
      let n := if 0 <=? e then Zpos m * 2 ^ e * p
               else round_half_even_div (Zpos m * p) (2 ^ (- e)) in
      match n with
      | Zpos n' =>
          let r := SFdiv prec emax (S754_finite s n' 0) (exact p) in
          if is_inf r then Raise OverflowError else Ok r
      | _ => Ok (S754_zero s)
      end
  | _ => Ok x
  end.

(** [int(x)] on a [float]: truncation towards zero. *)
Definition int_of_float (x : float) : result Z :=
  match x with
  | S754_zero _ => Ok 0
  | S754_nan => Raise ValueError
  | S754_infinity _ => Raise OverflowError
  | S754_finite s m e =>
      let a := if 0 <=? e then Zpos m * 2 ^ e else Zpos m / 2 ^ (- e) in
      Ok (if s then - a else a)
  end.

(** A number that is an [int] or a [float] at run time. *)
Inductive num :=
| NInt (n : Z)
| NFloat (x : float).

(** [round(v, ndigits)]: an [int] is returned unchanged. *)
Definition round (v : num) (ndigits : N) : result num :=
  match v with
  | NInt n => Ok (NInt n)
  | NFloat x => bind (float_round x ndigits) (fun r => Ok (NFloat r))
  end.

(** [x * k] for a [float] and an [int] *)
Definition float_mul_int (x : float) (k : Z) : result float :=
  bind (float_of_int k) (fun y => Ok (float_mul x y)).

(** [x / n] for a [float] and an [int] *)
Definition float_div_int (x : float) (n : Z) : result float :=
  bind (float_of_int n) (fun y => float_truediv x y).

(** [x > k] for a [float] and a small [int] *)
Definition float_gt_int (x : float) (k : Z) : bool :=
  float_ltb (binary_normalize prec emax k 0 false) x.

(** *** Strings *)

(** [str.isspace] on one code point, as [str.split] uses it. *)
Definition isspace (c : codepoint) : bool :=
  ((9 <=? c) && (c <=? 13) || (28 <=? c) && (c <=? 32)
   || (c =? 133) || (c =? 160) || (c =? 5760)
   || (8192 <=? c) && (c <=? 8202)
   || (c =? 8232) || (c =? 8233) || (c =? 8239) || (c =? 8287)
   || (c =? 12288))%N.

(** [s.split()]: maximal runs of non-whitespace code points. [cur] is the
    run being read, most recent code point first. *)
Fixpoint split_from (cur : str) (s : str) : list str :=
  match s with
  | [] => match cur with [] => [] | _ => [rev cur] end
  | c :: s' =>
      if isspace c
      then match cur with
           | [] => split_from [] s'
           | _ => rev cur :: split_from [] s'
           end
      else split_from (c :: cur) s'
  end.

Definition split (s : str) : list str := split_from [] s.

(** The whitespace that [int] skips around the digits: below U+007F the
    six of ASCII (U+001C to U+001F are not among them), from there on the
    whitespace of [str.isspace]. *)
Definition int_isspace (c : codepoint) : bool :=
  if (c <? 127)%N then ((9 <=? c) && (c <=? 13) || (c =? 32))%N else isspace c.

Fixpoint int_lstrip (s : str) : str :=
  match s with
  | c :: s' => if int_isspace c then int_lstrip s' else s
  | [] => []
  end.

Definition int_strip (s : str) : str := rev (int_lstrip (rev (int_lstrip s))).

(** The digit zero of every script with decimal digits (Unicode 14, the
    database of the interpreter); its digits one to nine follow it. *)
Definition decimal_zeros : list codepoint :=
  [48; 1632; 1776; 1984; 2406; 2534; 2662; 2790; 2918; 3046; 3174; 3302;
   3430; 3558; 3664; 3792; 3872; 4160; 4240; 6112; 6160; 6470; 6608; 6784;
   6800; 6992; 7088; 7232; 7248; 42528; 43216; 43264; 43472; 43504; 43600;
   44016; 65296; 66720; 68912; 69734; 69872; 69942; 70096; 70384; 70736;
   70864; 71248; 71360; 71472; 71904; 72016; 72784; 73040; 73120; 92768;
   92864; 93008; 120782; 120792; 120802; 120812; 120822; 123200; 123632;
   125264; 130032]%N.

(** The value of a decimal digit of any script. *)
Definition digit_val (c : codepoint) : option Z :=
  match find (fun zero => (zero <=? c) && (c <? zero + 10))%N decimal_zeros with
  | Some zero => Some (Z.of_N (c - zero))
  | None => None
  end.

(** Decimal digits, single underscores allowed between two digits. *)
Fixpoint parse_digits (acc : Z) (after_digit : bool) (s : str) : option Z :=
  match s with
  | [] => if after_digit then Some acc else None
  | c :: s' =>
      match digit_val c with
      | Some d => parse_digits (acc * 10 + d) true s'
      | None => if (c =? 95)%N && after_digit then parse_digits acc false s' else None
      end
  end.

(** [sys.int_info.default_max_str_digits]: a text with more digits is
    not converted. *)
Definition max_str_digits : nat := 4300.

Definition digit_count (s : str) : nat :=
  List.length (filter (fun c => match digit_val c with Some _ => true | None => false end) s).

(** [int(s)] on a [str]: decimal digits with an optional ASCII sign,
    surrounded by optional whitespace; anything else is a [ValueError]. *)
Definition int_of_str (s : str) : result Z :=
  let body := int_strip s in
  let parsed :=
    match body with
    | 45%N :: ds => option_map Z.opp (parse_digits 0 false ds)
    | 43%N :: ds => parse_digits 0 false ds
    | _ => parse_digits 0 false body
    end in
  match parsed with
  | Some n => if (digit_count body <=? max_str_digits)%nat then Ok n else Raise ValueError
  | None => Raise ValueError
  end.

(** *** Untyped values: decoded JSON *)

Inductive value :=
| VNone
| VBool (b : bool)
| VInt (n : Z)
| VFloat (x : float)
| VStr (s : str)
| VList (l : list value)
| VDict (d : list (str * value)).

(** A [dict] with string keys, in insertion order. *)
Definition dict (V : Type) := list (str * V).

Fixpoint lookup {V} (k : str) (d : dict V) : option V :=
  match d with
  | [] => None
  | (k', v) :: d' => if str_eqb k k' then Some v else lookup k d'
  end.

(** [d.get(k, default)] *)
Definition dict_get {V} (d : dict V) (k : str) (default : V) : V :=
  match lookup k d with
  | Some v => v
  | None => default
  end.

(** [d[k] = v]: a known key keeps its place, a new key goes last. *)
Fixpoint dict_set {V} (d : dict V) (k : str) (v : V) : dict V :=
  match d with
  | [] => [(k, v)]
  | (k', v') :: d' => if str_eqb k k' then (k', v) :: d' else (k', v') :: dict_set d' k v
  end.

(** Truth value of [v] in [if v] and [not v]. *)
Definition truthy (v : value) : bool :=
  match v with
  | VNone => false
  | VBool b => b
  | VInt n => negb (n =? 0)
  | VFloat x => negb (is_zero x)
  | VStr s => match s with [] => false | _ => true end
  | VList l => match l with [] => false | _ => true end
  | VDict d => match d with [] => false | _ => true end
  end.

(** [v[k]] with a string key. *)
Definition getitem (v : value) (k : str) : result value :=
  match v with
  | VDict d => match lookup k d with
               | Some x => Ok x
               | None => Raise (KeyError (KStr k))
               end
  | _ => Raise TypeError
  end.

(** [v[0]] *)
Definition getfirst (v : value) : result value :=
  match v with
  | VList l => match l with x :: _ => Ok x | [] => Raise IndexError end
  | VStr s => match s with c :: _ => Ok (VStr [c]) | [] => Raise IndexError end
  | VDict _ => Raise (KeyError (KInt 0))
  | _ => Raise TypeError
  end.

(** [v.get(k, default)] *)
Definition get (v : value) (k : str) (default : value) : result value :=
  match v with
  | VDict d => match lookup k d with
               | Some x => Ok x
               | None => Ok default
               end
  | _ => Raise AttributeError
  end.

(** [v.get(k)] *)
Definition get_or_none (v : value) (k : str) : result value := get v k VNone.

Fixpoint is_prefix (p s : str) : bool :=
  match p, s with
  | [], _ => true
  | x :: p', y :: s' => N.eqb x y && is_prefix p' s'
  | _ :: _, [] => false
  end.

Fixpoint is_substring (p s : str) : bool :=
  is_prefix p s || match s with [] => false | _ :: s' => is_substring p s' end.

(** [k in v] with a string [k]. *)
Definition contains (k : str) (v : value) : result bool :=
  match v with
  | VDict d => Ok (match lookup k d with Some _ => true | None => false end)
  | VList l => Ok (existsb (fun x => match x with VStr s => str_eqb k s | _ => false end) l)
  | VStr s => Ok (is_substring k s)
  | _ => Raise TypeError
  end.

(** [for x in v] *)
Definition iterate (v : value) : result (list value) :=
  match v with
  | VList l => Ok l
  | VDict d => Ok (map (fun kv => VStr (fst kv)) d)
  | VStr s => Ok (map (fun c => VStr [c]) s)
  | _ => Raise TypeError
  end.

(** [int(v)] *)
Definition int (v : value) : result Z :=
  match v with
  | VInt n => Ok n
  | VBool b => Ok (if b then 1 else 0)
  | VFloat x => int_of_float x
  | VStr s => int_of_str s
  | _ => Raise TypeError
  end.

(** [v[:n]] *)
Definition slice_to (v : value) (n : nat) : result value :=
  match v with
  | VStr s => Ok (VStr (firstn n s))
  | VList l => Ok (VList (firstn n l))
  | _ => Raise TypeError
  end.

(** [v + "lit"] *)
Definition add_str (v : value) (suffix : str) : result value :=
  match v with
  | VStr s => Ok (VStr (s ++ suffix))
  | _ => Raise TypeError
  end.

(** A field declared [str] in a response model.  The platform sends
    strings; any other value is a validation error here. *)
Definition as_str (v : value) : result str :=
  match v with
  | VStr s => Ok s
  | _ => Raise ValidationError
  end.

(** A field declared [float] in a response model. *)
Definition as_float (v : num) : result float :=
  match v with
  | NInt n => float_of_int n
  | NFloat x => Ok x
  end.

(** [sep.join(l)] *)
Fixpoint join (sep : str) (l : list value) : result str :=
  match l with
  | [] => Ok []
  | [VStr s] => Ok s
  | VStr s :: l' => bind (join sep l') (fun r => Ok (s ++ sep ++ r))
  | _ => Raise TypeError
  end.

(** *** [sorted(l, key=..., reverse=True)]

    The built-in sort is stable, and [reverse=True] keeps the original
    order of elements with equal keys: the list is reversed, sorted in
    ascending order and reversed again. *)
Section Sorting.
Context {A K : Type}.
Variable ltb : K -> K -> bool.
Variable key : A -> K.

(** [x] goes after the elements with a smaller key and before the others,
    which came after it in the list being sorted. *)
Fixpoint insert (x : A) (l : list A) : list A :=
  match l with
  | [] => [x]
  | y :: l' => if ltb (key y) (key x) then y :: insert x l' else x :: y :: l'
  end.

Definition sorted_ascending (l : list A) : list A := fold_right insert [] l.

Definition sorted_reverse (l : list A) : list A := rev (sorted_ascending (rev l)).
End Sorting.

(** The order of a sorted list, for the key [key] compared with [ltb]. *)
Section SortedOrder.
Context {A K : Type}.
Variable ltb : K -> K -> bool.
Variable key : A -> K.

(** [b] is not smaller than [a] *)
Definition ascending (a b : A) : Prop := ltb (key b) (key a) = false.

(** [a] is not smaller than [b] *)
Definition not_smaller (a b : A) : Prop := ltb (key a) (key b) = false.

(** [a] has the rank of the key [k] *)
Definition tied (k : K) (a : A) : bool := negb (ltb k (key a)) && negb (ltb (key a) k).
End SortedOrder.

(** The computation [r] does not end in a division by zero. *)
Definition never_divides_by_zero {A} (r : result A) : Prop := r <> Raise ZeroDivisionError.

Notation "x <- e ;; k" := (bind e (fun x => k))
  (at level 61, e at next level, right associativity).

(** [s.split(sep)] for a non-empty separator: the text between the
    occurrences of [sep] found from left to right.  [skip] counts the code
    points of an occurrence that are still to be passed and [cur] is the
    piece being read, most recent code point first. *)
Fixpoint split_sep (sep : str) (skip : nat) (cur : str) (s : str) : list str :=
  match s with
  | [] => [rev cur]
  | c :: s' =>
      match skip with
      | S k => split_sep sep k cur s'
      | O => if is_prefix sep s
             then rev cur :: split_sep sep (List.length sep - 1) [] s'
             else split_sep sep 0 (c :: cur) s'
      end
  end.

Definition split_on (sep s : str) : list str := split_sep sep 0 [] s.

(** [pieces[i]] *)
Definition piece (pieces : list str) (i : nat) : result str :=
  match nth_error pieces i with
  | Some x => Ok x
  | None => Raise IndexError
  end.

(** An [HttpError] of the client library. *)
Definition is_http_error (e : exn) : bool :=
  match e with
  | HttpError _ => true
  | _ => false
  end.

(** The exceptions of the interpreter, of the validation of a response
    model and of the web framework, as opposed to the [HttpError] of the
    client library. *)
Definition internal (e : exn) : Prop := is_http_error e = false.

(** Every exception that the computation [r] can end in satisfies [P]. *)
Definition raises_only {A} (P : exn -> Prop) (r : result A) : Prop :=
  forall e, r = Raise e -> P e.

(** The result with [f] applied to its value. *)
Definition result_map {A B} (f : A -> B) (r : result A) : result B :=
  bind r (fun a => Ok (f a)).

End Py.

Import Py.

(** ** The data-frame library

    [compare_channels] sorts and averages the columns of a data frame.  It
    calls [sort_values] without a [kind], so the library sorts with its
    default algorithm, quicksort, of which its documentation says that
    only the kinds "mergesort" and "stable" are stable: the order of the
    keys is promised, the order of rows with equal keys is not.  The sort
    and the mean are therefore parameters of the embedding, and
    [documented] is what the library promises of the sort. *)

Module Pandas.

Record backend := {
  (** the indexer of [sort_values(col, ascending=False)] on an integer column *)
  argsort_descending_int : list Z -> list nat;
  (** the same on a float column *)
  argsort_descending_float : list float -> list nat;
  (** [Series.mean()] of an integer column and of a float column *)
  mean_int : list Z -> float;
  mean_float : list float -> float
}.

(** [df.take(indexer)] *)
Definition take {A} (rows : list A) (indexer : list nat) : result (list A) :=
  mapM (fun i => match nth_error rows i with
                 | Some r => Ok r
                 | None => Raise IndexError
                 end) indexer.



End Pandas.

(** ** The platform API client

    [youtube.<resource>().list(...).execute()] returns the decoded JSON
    response or raises; the client is a function of the request. *)

Module Api.

Inductive request :=
| SearchList (q : str) (maxResults : Z) (order : option str)
| VideosList (part : str) (id : str)
| VideosMostPopular (regionCode : str) (videoCategoryId : option str) (maxResults : Z)
| CommentThreadsList (videoId : str)
| ChannelsList (part : str) (id : str)
| PlaylistItemsList (playlistId : value).

Definition client := request -> result value.

End Api.

(** ** [app.py]: the request/response service *)

Module App.

Module VideoInfo.
Record t := {
  video_id : str;
  title : str;
  channel_id : str;
  channel_title : str;
  published_at : str;
  view_count : Z;
  like_count : Z;
  comment_count : Z;
  duration : str;
  thumbnail_url : str;
  engagement_rate : float;
  description : str
}.
End VideoInfo.

Module ChannelInfo.
Record t := {
  channel_id : str;
  title : str;
  description : str;
  subscriber_count : Z;
  video_count : Z;
  view_count : Z;
  published_at : str;
  thumbnail_url : str;
  average_views : float
}.
End ChannelInfo.

(** The two handlers that close every endpoint:
    [except HttpError as e: raise HTTPException(e.resp.status, str(e))]
    [except Exception as e: raise HTTPException(500, str(e))] *)
Definition http_errors {A} (e : exn) : result A :=
  match e with
  | HttpError status => Raise (HTTPException status (DetailStr e))
  | _ => Raise (HTTPException 500 (DetailStr e))
  end.

(** The record returned by [search_videos] in its test mode. *)
Definition test_video : VideoInfo.t := {|
  VideoInfo.video_id := lit "test123";
  VideoInfo.title :=
    [80; 121; 116; 104; 111; 110; 32; 12503; 12525; 12464; 12521; 12511;
     12531; 12464; 20837; 38272]%N;
  VideoInfo.channel_id := lit "ch123";
  VideoInfo.channel_title :=
    [12486; 12473; 12488; 12481; 12515; 12531; 12493; 12523]%N;
  VideoInfo.published_at := lit "2024-01-01T00:00:00Z";
  VideoInfo.view_count := 10000;
  VideoInfo.like_count := 500;
  VideoInfo.comment_count := 50;
  VideoInfo.duration := lit "PT10M30S";
  VideoInfo.thumbnail_url := lit "https://via.placeholder.com/320x180";
  (* 5.5 *)
  VideoInfo.engagement_rate := S754_finite false 6192449487634432 (-50);
  VideoInfo.description :=
    [12371; 12428; 12399; 12486; 12473; 12488; 12487; 12540; 12479; 12391;
     12377; 46; 46; 46]%N
|}.

(** [engagement_rate = 0]
    [if view_count > 0: engagement_rate = ((like_count + comment_count) / view_count) * 100] *)
Definition engagement_rate_of (view_count like_count comment_count : Z) : result num :=
  if 0 <? view_count
  then q <- int_truediv (like_count + comment_count) view_count ;;
       r <- float_mul_int q 100 ;;
       Ok (NFloat r)
  else Ok (NInt 0).

(** [snippet['description'][:200] + "..."] *)
Definition video_description (snippet : value) : result value :=
  d <- getitem snippet (lit "description") ;;
  h <- slice_to d 200 ;;
  add_str h (lit "...").

(** [snippet['thumbnails']['high']['url']] *)
Definition high_thumbnail (snippet : value) : result value :=
  th <- getitem snippet (lit "thumbnails") ;;
  hi <- getitem th (lit "high") ;;
  getitem hi (lit "url").

(** [int(stats.get(field, default))] *)
Definition int_field (stats : value) (field : str) (default : Z) : result Z :=
  v <- get stats field (VInt default) ;;
  int v.

(** The body of the loop of [search_videos]: one item of the details
    response becomes one [VideoInfo]. *)
Definition video_info_of_item (item : value) : result VideoInfo.t :=
  stats <- getitem item (lit "statistics") ;;
  snippet <- getitem item (lit "snippet") ;;
  view_count <- int_field stats (lit "viewCount") 0 ;;
  like_count <- int_field stats (lit "likeCount") 0 ;;
  comment_count <- int_field stats (lit "commentCount") 0 ;;
  engagement_rate <- engagement_rate_of view_count like_count comment_count ;;
  video_id <- getitem item (lit "id") ;;
  title <- getitem snippet (lit "title") ;;
  channel_id <- getitem snippet (lit "channelId") ;;
  channel_title <- getitem snippet (lit "channelTitle") ;;
  published_at <- getitem snippet (lit "publishedAt") ;;
  details <- getitem item (lit "contentDetails") ;;
  duration <- getitem details (lit "duration") ;;
  thumbnail_url <- high_thumbnail snippet ;;
  rounded <- round engagement_rate 2 ;;
  description <- video_description snippet ;;
  video_id <- as_str video_id ;;
  title <- as_str title ;;
  channel_id <- as_str channel_id ;;
  channel_title <- as_str channel_title ;;
  published_at <- as_str published_at ;;
  duration <- as_str duration ;;
  thumbnail_url <- as_str thumbnail_url ;;
  rounded <- as_float rounded ;;
  description <- as_str description ;;
  Ok {| VideoInfo.video_id := video_id;
        VideoInfo.title := title;
        VideoInfo.channel_id := channel_id;
        VideoInfo.channel_title := channel_title;
        VideoInfo.published_at := published_at;
        VideoInfo.view_count := view_count;
        VideoInfo.like_count := like_count;
        VideoInfo.comment_count := comment_count;
        VideoInfo.duration := duration;
        VideoInfo.thumbnail_url := thumbnail_url;
        VideoInfo.engagement_rate := rounded;
        VideoInfo.description := description |}.

(** [GET /search].  With no client the first guard returns the test
    record; the guard after it, which raises 503, is then never reached. *)
Definition search_videos (youtube : option Api.client)
    (keyword : str) (max_results : Z) (order : str) : result (list VideoInfo.t) :=
  match youtube with
  | None => Ok [test_video]
  | Some yt =>
      try_except
        (search_response <- yt (Api.SearchList keyword max_results (Some order)) ;;
         found <- getitem search_response (lit "items") ;;
         found <- iterate found ;;
         video_ids <- mapM (fun item => id <- getitem item (lit "id") ;;
                                        getitem id (lit "videoId")) found ;;
         ids <- join (lit ",") video_ids ;;
         videos_response <-
           yt (Api.VideosList (lit "statistics,contentDetails,snippet") ids) ;;
         items <- getitem videos_response (lit "items") ;;
         items <- iterate items ;;
         mapM video_info_of_item items)
        http_errors
  end.

Module Comment.
Record t := {
  text : value;
  likeCount : value;
  publishedAt : value
}.
End Comment.

Module VideoAnalysis.
Record t := {
  (* video_info *)
  title : value;
  channel : value;
  published_at : value;
  description : value;
  (* statistics *)
  view_count : Z;
  like_count : Z;
  dislike_count : Z;
  comment_count : Z;
  engagement_rate : num;
  tags : value;
  top_comments : list Comment.t;
  (* content_details *)
  duration : value;
  definition : value;
  caption : value
}.
End VideoAnalysis.

(** One element of [comments_response['items']]. *)
Definition comment_of (comment : value) : result Comment.t :=
  let top :=
    s <- getitem comment (lit "snippet") ;;
    c <- getitem s (lit "topLevelComment") ;;
    getitem c (lit "snippet") in
  s <- top ;; text <- getitem s (lit "textDisplay") ;;
  s <- top ;; likes <- getitem s (lit "likeCount") ;;
  s <- top ;; published <- getitem s (lit "publishedAt") ;;
  Ok {| Comment.text := text;
        Comment.likeCount := likes;
        Comment.publishedAt := published |}.

(** The comments block of [analyze_video]: any exception empties the list. *)
Definition top_comments_of (yt : Api.client) (video_id : str) : list Comment.t :=
  match (comments_response <- yt (Api.CommentThreadsList video_id) ;;
         items <- getitem comments_response (lit "items") ;;
         items <- iterate items ;;
         mapM comment_of items) with
  | Ok comments => comments
  | Raise _ => []
  end.

(** [round(((int(likeCount) + int(commentCount)) / int(stats.get('viewCount', 1))) * 100, 2)] *)
Definition analysis_engagement_rate (stats : value) : result num :=
  like_count <- int_field stats (lit "likeCount") 0 ;;
  comment_count <- int_field stats (lit "commentCount") 0 ;;
  view_count <- int_field stats (lit "viewCount") 1 ;;
  q <- int_truediv (like_count + comment_count) view_count ;;
  r <- float_mul_int q 100 ;;
  round (NFloat r) 2.

(** The part of [analyze_video] that follows the not-found test. *)
Definition video_analysis_of_item (yt : Api.client) (video_id : str) (item : value)
  : result VideoAnalysis.t :=
  stats <- getitem item (lit "statistics") ;;
  snippet <- getitem item (lit "snippet") ;;
  let comments := top_comments_of yt video_id in
  tags <- get snippet (lit "tags") (VList []) ;;
  title <- getitem snippet (lit "title") ;;
  channel <- getitem snippet (lit "channelTitle") ;;
  published_at <- getitem snippet (lit "publishedAt") ;;
  description <- getitem snippet (lit "description") ;;
  view_count <- int_field stats (lit "viewCount") 0 ;;
  like_count <- int_field stats (lit "likeCount") 0 ;;
  dislike_count <- int_field stats (lit "dislikeCount") 0 ;;
  comment_count <- int_field stats (lit "commentCount") 0 ;;
  engagement_rate <- analysis_engagement_rate stats ;;
  tags <- slice_to tags 10 ;;
  details <- getitem item (lit "contentDetails") ;;
  duration <- getitem details (lit "duration") ;;
  details <- getitem item (lit "contentDetails") ;;
  definition <- getitem details (lit "definition") ;;
  details <- getitem item (lit "contentDetails") ;;
  caption <- get details (lit "caption") (VStr (lit "false")) ;;
  Ok {| VideoAnalysis.title := title;
        VideoAnalysis.channel := channel;
        VideoAnalysis.published_at := published_at;
        VideoAnalysis.description := description;
        VideoAnalysis.view_count := view_count;
        VideoAnalysis.like_count := like_count;
        VideoAnalysis.dislike_count := dislike_count;
        VideoAnalysis.comment_count := comment_count;
        VideoAnalysis.engagement_rate := engagement_rate;
        VideoAnalysis.tags := tags;
        VideoAnalysis.top_comments := comments;
        VideoAnalysis.duration := duration;
        VideoAnalysis.definition := definition;
        VideoAnalysis.caption := caption |}.

(** [GET /video/{video_id}].  The 404 is raised inside the [try] block
    whose last handler catches every [Exception]. *)
Definition analyze_video (youtube : option Api.client) (video_id : str)
  : result VideoAnalysis.t :=
  match youtube with
  | None => Raise (HTTPException 503 (Detail ApiUnavailable))
  | Some yt =>
      try_except
        (video_response <-
           yt (Api.VideosList (lit "statistics,contentDetails,snippet") video_id) ;;
         items <- getitem video_response (lit "items") ;;
         if negb (truthy items)
         then Raise (HTTPException 404 (Detail VideoNotFound))
         else
           items <- getitem video_response (lit "items") ;;
           item <- getfirst items ;;
           video_analysis_of_item yt video_id item)
        http_errors
  end.

(** [view_count / video_count if video_count > 0 else 0] *)
Definition average_views_of (view_count video_count : Z) : result num :=
  if 0 <? video_count
  then q <- int_truediv view_count video_count ;; Ok (NFloat q)
  else Ok (NInt 0).

(** [snippet['description'][:200] + "..." if snippet['description'] else ""] *)
Definition channel_description (snippet : value) : result value :=
  d <- getitem snippet (lit "description") ;;
  if truthy d
  then d <- getitem snippet (lit "description") ;;
       h <- slice_to d 200 ;;
       add_str h (lit "...")
  else Ok (VStr []).

(** The part of [analyze_channel] that follows the not-found test. *)
Definition channel_info_of_item (channel_id : str) (item : value) : result ChannelInfo.t :=
  stats <- getitem item (lit "statistics") ;;
  snippet <- getitem item (lit "snippet") ;;
  view_count <- int_field stats (lit "viewCount") 0 ;;
  video_count <- int_field stats (lit "videoCount") 1 ;;
  average_views <- average_views_of view_count video_count ;;
  title <- getitem snippet (lit "title") ;;
  description <- channel_description snippet ;;
  subscriber_count <- int_field stats (lit "subscriberCount") 0 ;;
  published_at <- getitem snippet (lit "publishedAt") ;;
  thumbnail_url <- high_thumbnail snippet ;;
  rounded <- round average_views 0 ;;
  title <- as_str title ;;
  description <- as_str description ;;
  published_at <- as_str published_at ;;
  thumbnail_url <- as_str thumbnail_url ;;
  rounded <- as_float rounded ;;
  Ok {| ChannelInfo.channel_id := channel_id;
        ChannelInfo.title := title;
        ChannelInfo.description := description;
        ChannelInfo.subscriber_count := subscriber_count;
        ChannelInfo.video_count := video_count;
        ChannelInfo.view_count := view_count;
        ChannelInfo.published_at := published_at;
        ChannelInfo.thumbnail_url := thumbnail_url;
        ChannelInfo.average_views := rounded |}.

(** [GET /channel/{channel_id}] *)
Definition analyze_channel (youtube : option Api.client) (channel_id : str)
  : result ChannelInfo.t :=
  match youtube with
  | None => Raise (HTTPException 503 (Detail ApiUnavailable))
  | Some yt =>
      try_except
        (channel_response <-
           yt (Api.ChannelsList (lit "statistics,snippet,contentDetails") channel_id) ;;
         items <- getitem channel_response (lit "items") ;;
         if negb (truthy items)
         then Raise (HTTPException 404 (Detail ChannelNotFound))
         else
           items <- getitem channel_response (lit "items") ;;
           item <- getfirst items ;;
           channel_info_of_item channel_id item)
        http_errors
  end.

Inductive rating := High | Medium | Low.

Module Growth.
Record t := {
  channel : str;
  engagement_score : float;
  rating : App.rating
}.
End Growth.

Module Metrics.
Record t := {
  (* average_metrics *)
  avg_subscribers : Z;
  avg_videos : Z;
  avg_views : Z;
  avg_views_per_video : Z;
  (* rankings *)
  by_subscribers : list str;
  by_total_views : list str;
  by_avg_views : list str;
  growth_potential : list Growth.t
}.
End Metrics.

Module ChannelComparison.
Record t := {
  channels : list ChannelInfo.t;
  comparison_metrics : Metrics.t
}.
End ChannelComparison.

(** [df[column]]: a frame built from no row has no column. *)
Definition column {K} (df : list ChannelInfo.t) (name : string) (field : ChannelInfo.t -> K)
  : result (list K) :=
  match df with
  | [] => Raise (KeyError (KStr (lit name)))
  | _ => Ok (map field df)
  end.

(** [df.sort_values(column, ascending=False)['title'].tolist()] *)
Definition ranking {K} (argsort : list K -> list nat) (df : list ChannelInfo.t)
    (name : string) (field : ChannelInfo.t -> K) : result (list str) :=
  keys <- column df name field ;;
  rows <- Pandas.take df (argsort keys) ;;
  column rows "title" ChannelInfo.title.

(** The loop over [df.iterrows()] that fills [growth_potential]. *)
Fixpoint growth_potential (df : list ChannelInfo.t) : result (list Growth.t) :=
  match df with
  | [] => Ok []
  | channel :: rest =>
      if 0 <? ChannelInfo.subscriber_count channel
      then
        q <- float_div_int (ChannelInfo.average_views channel)
                           (ChannelInfo.subscriber_count channel) ;;
        engagement_score <- float_mul_int q 100 ;;
        rounded <- float_round engagement_score 2 ;;
        let entry := {|
          Growth.channel := ChannelInfo.title channel;
          Growth.engagement_score := rounded;
          Growth.rating := if float_gt_int engagement_score 10 then High
                           else if float_gt_int engagement_score 5 then Medium
                           else Low |} in
        entries <- growth_potential rest ;;
        Ok (entry :: entries)
      else growth_potential rest
  end.

(** [comparison_metrics] of [compare_channels] *)
Definition comparison_metrics_of (pd : Pandas.backend) (df : list ChannelInfo.t)
  : result Metrics.t :=
  subscribers <- column df "subscriber_count" ChannelInfo.subscriber_count ;;
  avg_subscribers <- int_of_float (Pandas.mean_int pd subscribers) ;;
  videos <- column df "video_count" ChannelInfo.video_count ;;
  avg_videos <- int_of_float (Pandas.mean_int pd videos) ;;
  views <- column df "view_count" ChannelInfo.view_count ;;
  avg_views <- int_of_float (Pandas.mean_int pd views) ;;
  averages <- column df "average_views" ChannelInfo.average_views ;;
  avg_views_per_video <- int_of_float (Pandas.mean_float pd averages) ;;
  by_subscribers <- ranking (Pandas.argsort_descending_int pd) df
                      "subscriber_count" ChannelInfo.subscriber_count ;;
  by_total_views <- ranking (Pandas.argsort_descending_int pd) df
                      "view_count" ChannelInfo.view_count ;;
  by_avg_views <- ranking (Pandas.argsort_descending_float pd) df
                      "average_views" ChannelInfo.average_views ;;
  growth <- growth_potential df ;;
  Ok {| Metrics.avg_subscribers := avg_subscribers;
        Metrics.avg_videos := avg_videos;
        Metrics.avg_views := avg_views;
        Metrics.avg_views_per_video := avg_views_per_video;
        Metrics.by_subscribers := by_subscribers;
        Metrics.by_total_views := by_total_views;
        Metrics.by_avg_views := by_avg_views;
        Metrics.growth_potential := growth |}.

(** [POST /compare-channels] *)
Definition compare_channels (pd : Pandas.backend) (youtube : option Api.client)
    (channel_ids : list str) : result ChannelComparison.t :=
  match youtube with
  | None => Raise (HTTPException 503 (Detail ApiUnavailable))
  | Some _ =>
      if 5 <? len channel_ids
      then Raise (HTTPException 400 (Detail TooManyChannels))
      else
        try_except
          (channels_data <- mapM (analyze_channel youtube) channel_ids ;;
           comparison_metrics <- comparison_metrics_of pd channels_data ;;
           Ok {| ChannelComparison.channels := channels_data;
                 ChannelComparison.comparison_metrics := comparison_metrics |})
          (fun e => Raise (HTTPException 500 (DetailStr e)))
  end.

(** The words that [get_keyword_suggestions] keeps from one title:
    [for word in title.lower().split():]
    [if len(word) > 3 and word not in ['this', 'that', 'with', 'from']] *)
Definition stopwords : list str := [lit "this"; lit "that"; lit "with"; lit "from"].

Definition title_keywords (lower : str -> str) (title : str) : list str :=
  filter (fun word => (3 <? len word) && negb (existsb (str_eqb word) stopwords))
         (split (lower title)).

Module TrendingVideo.
Record t := {
  video_id : value;
  title : value;
  channel : value;
  published_at : value;
  view_count : Z;
  like_count : Z;
  thumbnail_url : value;
  category : value
}.
End TrendingVideo.

Module Trending.
Record t := {
  region : str;
  total : Z;
  videos : list TrendingVideo.t
}.
End Trending.

(** The body of the loop of [get_trending_videos]. *)
Definition trending_video_of_item (item : value) : result TrendingVideo.t :=
  stats <- getitem item (lit "statistics") ;;
  snippet <- getitem item (lit "snippet") ;;
  video_id <- getitem item (lit "id") ;;
  title <- getitem snippet (lit "title") ;;
  channel <- getitem snippet (lit "channelTitle") ;;
  published_at <- getitem snippet (lit "publishedAt") ;;
  view_count <- int_field stats (lit "viewCount") 0 ;;
  like_count <- int_field stats (lit "likeCount") 0 ;;
  thumbnail_url <- high_thumbnail snippet ;;
  category <- get snippet (lit "categoryId") (VStr (lit "N/A")) ;;
  Ok {| TrendingVideo.video_id := video_id;
        TrendingVideo.title := title;
        TrendingVideo.channel := channel;
        TrendingVideo.published_at := published_at;
        TrendingVideo.view_count := view_count;
        TrendingVideo.like_count := like_count;
        TrendingVideo.thumbnail_url := thumbnail_url;
        TrendingVideo.category := category |}.

(** [GET /trending].  The request carries the category unless it is "0". *)
Definition get_trending_videos (youtube : option Api.client)
    (region_code category_id : str) (max_results : Z) : result Trending.t :=
  match youtube with
  | None => Raise (HTTPException 503 (Detail ApiUnavailable))
  | Some yt =>
      try_except
        (let request :=
           if negb (str_eqb category_id (lit "0"))
           then Api.VideosMostPopular region_code (Some category_id) max_results
           else Api.VideosMostPopular region_code None max_results in
         response <- yt request ;;
         items <- getitem response (lit "items") ;;
         items <- iterate items ;;
         trending_videos <- mapM trending_video_of_item items ;;
         Ok {| Trending.region := region_code;
               Trending.total := len trending_videos;
               Trending.videos := trending_videos |})
        http_errors
  end.

(** [initialize_youtube_api]: the new value of the global [youtube] and the
    value returned.  [build] is the constructor of the client library. *)
Definition initialize_youtube_api (api_key : option str)
    (build : str -> result Api.client) : option Api.client * bool :=
  match api_key with
  | None => (None, false)
  | Some [] => (None, false)
  | Some key =>
      match build key with
      | Ok client => (Some client, true)
      | Raise _ => (None, false)
      end
  end.

(** An analysis with its comments left out. *)
Definition without_comments (a : VideoAnalysis.t) : VideoAnalysis.t := {|
  VideoAnalysis.title := VideoAnalysis.title a;
  VideoAnalysis.channel := VideoAnalysis.channel a;
  VideoAnalysis.published_at := VideoAnalysis.published_at a;
  VideoAnalysis.description := VideoAnalysis.description a;
  VideoAnalysis.view_count := VideoAnalysis.view_count a;
  VideoAnalysis.like_count := VideoAnalysis.like_count a;
  VideoAnalysis.dislike_count := VideoAnalysis.dislike_count a;
  VideoAnalysis.comment_count := VideoAnalysis.comment_count a;
  VideoAnalysis.engagement_rate := VideoAnalysis.engagement_rate a;
  VideoAnalysis.tags := VideoAnalysis.tags a;
  VideoAnalysis.top_comments := [];
  VideoAnalysis.duration := VideoAnalysis.duration a;
  VideoAnalysis.definition := VideoAnalysis.definition a;
  VideoAnalysis.caption := VideoAnalysis.caption a
|}.

(** The [try] blocks of the four endpoints that read one batch, before
    their handlers. *)
Definition search_videos_try (yt : Api.client)
    (keyword : str) (max_results : Z) (order : str) : result (list VideoInfo.t) :=
  search_response <- yt (Api.SearchList keyword max_results (Some order)) ;;
  found <- getitem search_response (lit "items") ;;
  found <- iterate found ;;
  video_ids <- mapM (fun item => id <- getitem item (lit "id") ;;
                                 getitem id (lit "videoId")) found ;;
  ids <- join (lit ",") video_ids ;;
  videos_response <-
    yt (Api.VideosList (lit "statistics,contentDetails,snippet") ids) ;;
  items <- getitem videos_response (lit "items") ;;
  items <- iterate items ;;
  mapM video_info_of_item items.

Definition analyze_video_try (yt : Api.client) (video_id : str) : result VideoAnalysis.t :=
  video_response <-
    yt (Api.VideosList (lit "statistics,contentDetails,snippet") video_id) ;;
  items <- getitem video_response (lit "items") ;;
  if negb (truthy items)
  then Raise (HTTPException 404 (Detail VideoNotFound))
  else
    items <- getitem video_response (lit "items") ;;
    item <- getfirst items ;;
    video_analysis_of_item yt video_id item.

Definition analyze_channel_try (yt : Api.client) (channel_id : str) : result ChannelInfo.t :=
  channel_response <-
    yt (Api.ChannelsList (lit "statistics,snippet,contentDetails") channel_id) ;;
  items <- getitem channel_response (lit "items") ;;
  if negb (truthy items)
  then Raise (HTTPException 404 (Detail ChannelNotFound))
  else
    items <- getitem channel_response (lit "items") ;;
    item <- getfirst items ;;
    channel_info_of_item channel_id item.

Definition get_trending_videos_try (yt : Api.client)
    (region_code category_id : str) (max_results : Z) : result Trending.t :=
  let request :=
    if negb (str_eqb category_id (lit "0"))
    then Api.VideosMostPopular region_code (Some category_id) max_results
    else Api.VideosMostPopular region_code None max_results in
  response <- yt request ;;
  items <- getitem response (lit "items") ;;
  items <- iterate items ;;
  trending_videos <- mapM trending_video_of_item items ;;
  Ok {| Trending.region := region_code;
        Trending.total := len trending_videos;
        Trending.videos := trending_videos |}.

(** What the handlers make of a [try] block that raises no [HttpError]:
    its result, or status 500 with [str(e)] of the exception caught. *)
Definition reported {A} (body : result A) : result A :=
  match body with
  | Ok a => Ok a
  | Raise cause => Raise (HTTPException 500 (DetailStr cause))
  end.

End App.

(** ** [streamlit_app.py]: the dashboard *)

Module StreamlitApp.

(** What [st.error] and [st.warning] display. *)
Inductive text :=
| NotInitialized                    (* "YouTube APIが初期化されていません。..." *)
| NoSearchResults                   (* "検索結果が見つかりませんでした。" *)
| NoVideoDetails                    (* "動画の詳細情報を取得できませんでした。" *)
| ChannelNotFound                   (* "チャンネルが見つかりません。..." *)
| ApiError (e : exn)                (* f"APIエラー: {e}" *)
| Unexpected (e : exn)              (* f"予期しないエラーが発生しました: {e}" *)
| RecentVideosFailed (e : exn)      (* f"最新動画の取得に失敗しました: {e}" *)
| ChannelFailed (channel_id : str) (e : exn).
                                    (* f"チャンネルID {channel_id} の取得に失敗しました: {e}" *)

Inductive notice :=
| StError (t : text)
| StWarning (t : text).

(** "タイトル不明", "チャンネル不明", "チャンネル名不明", "説明なし" *)
Definition unknown_title : str := [12479; 12452; 12488; 12523; 19981; 26126]%N.
Definition unknown_channel : str := [12481; 12515; 12531; 12493; 12523; 19981; 26126]%N.
Definition unknown_channel_name : str :=
  [12481; 12515; 12531; 12493; 12523; 21517; 19981; 26126]%N.
Definition no_description : str := [35500; 26126; 12394; 12375]%N.

(** [thumbnail_url = ""]
    [if 'thumbnails' in snippet and resolution in snippet['thumbnails']:]
    [    thumbnail_url = snippet['thumbnails'][resolution]['url']] *)
Definition thumbnail_of (resolution : str) (snippet : value) : result value :=
  has_thumbnails <- contains (lit "thumbnails") snippet ;;
  if has_thumbnails
  then
    thumbnails <- getitem snippet (lit "thumbnails") ;;
    has_resolution <- contains resolution thumbnails ;;
    if has_resolution
    then
      thumbnails <- getitem snippet (lit "thumbnails") ;;
      entry <- getitem thumbnails resolution ;;
      getitem entry (lit "url")
    else Ok (VStr [])
  else Ok (VStr []).

(** [snippet.get('publishedAt', '')[:10] if snippet.get('publishedAt') else ''] *)
Definition published_date (snippet : value) : result value :=
  p <- get_or_none snippet (lit "publishedAt") ;;
  if truthy p
  then p <- get snippet (lit "publishedAt") (VStr []) ;;
       slice_to p 10
  else Ok (VStr []).

(** [int(stats.get(field, default))] *)
Definition int_field (stats : value) (field : str) (default : Z) : result Z :=
  v <- get stats field (VInt default) ;;
  int v.

(** [engagement_rate = 0]
    [if view_count > 0: engagement_rate = ((like_count + comment_count) / view_count) * 100] *)
Definition engagement_rate_of (view_count like_count comment_count : Z) : result num :=
  if 0 <? view_count
  then q <- int_truediv (like_count + comment_count) view_count ;;
       r <- float_mul_int q 100 ;;
       Ok (NFloat r)
  else Ok (NInt 0).

Module VideoRow.
Record t := {
  title : value;            (* タイトル *)
  channel : value;          (* チャンネル *)
  published : value;        (* 公開日 *)
  views : Z;                (* 視聴回数 *)
  likes : Z;                (* いいね数 *)
  comments : Z;             (* コメント数 *)
  engagement_rate : num;    (* エンゲージメント率 *)
  video_id : value;         (* 動画ID *)
  thumbnail : value         (* サムネイル *)
}.
End VideoRow.

(** The body of the loop of [search_videos]. *)
Definition video_row_of_item (item : value) : result VideoRow.t :=
  stats <- get item (lit "statistics") (VDict []) ;;
  snippet <- get item (lit "snippet") (VDict []) ;;
  view_count <- int_field stats (lit "viewCount") 0 ;;
  like_count <- int_field stats (lit "likeCount") 0 ;;
  comment_count <- int_field stats (lit "commentCount") 0 ;;
  engagement_rate <- engagement_rate_of view_count like_count comment_count ;;
  thumbnail_url <- thumbnail_of (lit "medium") snippet ;;
  title <- get snippet (lit "title") (VStr unknown_title) ;;
  channel <- get snippet (lit "channelTitle") (VStr unknown_channel) ;;
  published <- published_date snippet ;;
  rounded <- round engagement_rate 2 ;;
  video_id <- get item (lit "id") (VStr []) ;;
  Ok {| VideoRow.title := title;
        VideoRow.channel := channel;
        VideoRow.published := published;
        VideoRow.views := view_count;
        VideoRow.likes := like_count;
        VideoRow.comments := comment_count;
        VideoRow.engagement_rate := rounded;
        VideoRow.video_id := video_id;
        VideoRow.thumbnail := thumbnail_url |}.

(** ['items' not in response or not response['items']] *)
Definition no_items (response : value) : result bool :=
  present <- contains (lit "items") response ;;
  if negb present then Ok true
  else items <- getitem response (lit "items") ;; Ok (negb (truthy items)).

(** The two handlers that close the functions of the dashboard, each of
    which shows an error and returns the empty result. *)
Definition shown {A} (empty : A) (body : result (list notice * A)) : list notice * A :=
  match body with
  | Ok r => r
  | Raise (HttpError status) => ([StError (ApiError (HttpError status))], empty)
  | Raise e => ([StError (Unexpected e)], empty)
  end.

(** [search_videos]: the notices shown and the rows of the data frame. *)
Definition search_videos (youtube : option Api.client)
    (keyword : str) (max_results : Z) (order : str) : list notice * list VideoRow.t :=
  match youtube with
  | None => ([StError NotInitialized], [])
  | Some yt =>
      shown []
        (search_response <- yt (Api.SearchList keyword max_results (Some order)) ;;
         none <- no_items search_response ;;
         if none then Ok ([StWarning NoSearchResults], [])
         else
           found <- getitem search_response (lit "items") ;;
           found <- iterate found ;;
           video_ids <- mapM (fun item => id <- getitem item (lit "id") ;;
                                          getitem id (lit "videoId")) found ;;
           ids <- join (lit ",") video_ids ;;
           videos_response <-
             yt (Api.VideosList (lit "statistics,contentDetails,snippet") ids) ;;
           none <- no_items videos_response ;;
           if none then Ok ([StWarning NoVideoDetails], [])
           else
             items <- getitem videos_response (lit "items") ;;
             items <- iterate items ;;
             videos_data <- mapM video_row_of_item items ;;
             Ok ([], videos_data))
  end.

Module ChannelData.
Record t := {
  name : value;             (* チャンネル名 *)
  subscribers : Z;          (* 登録者数 *)
  videos : Z;               (* 動画本数 *)
  views : Z;                (* 総視聴回数 *)
  created : value;          (* 開設日 *)
  description : value;      (* 説明 *)
  thumbnail : value         (* サムネイル *)
}.
End ChannelData.

Module RecentVideo.
Record t := {
  title : value;            (* タイトル *)
  published : value         (* 公開日 *)
}.
End RecentVideo.

(** [(snippet.get('description', '')[:200] + "...") if snippet.get('description') else "説明なし"] *)
Definition channel_description (snippet : value) : result value :=
  d <- get_or_none snippet (lit "description") ;;
  if truthy d
  then d <- get snippet (lit "description") (VStr []) ;;
       h <- slice_to d 200 ;;
       add_str h (lit "...")
  else Ok (VStr no_description).

(** [channel_data] of [analyze_channel] *)
Definition channel_data_of_item (item : value) : result (ChannelData.t * value) :=
  stats <- get item (lit "statistics") (VDict []) ;;
  snippet <- get item (lit "snippet") (VDict []) ;;
  content_details <- get item (lit "contentDetails") (VDict []) ;;
  thumbnail_url <- thumbnail_of (lit "high") snippet ;;
  name <- get snippet (lit "title") (VStr unknown_channel_name) ;;
  subscribers <- int_field stats (lit "subscriberCount") 0 ;;
  videos <- int_field stats (lit "videoCount") 0 ;;
  views <- int_field stats (lit "viewCount") 0 ;;
  created <- published_date snippet ;;
  description <- channel_description snippet ;;
  Ok ({| ChannelData.name := name;
         ChannelData.subscribers := subscribers;
         ChannelData.videos := videos;
         ChannelData.views := views;
         ChannelData.created := created;
         ChannelData.description := description;
         ChannelData.thumbnail := thumbnail_url |}, content_details).

Definition recent_video_of (video : value) : result RecentVideo.t :=
  video_snippet <- get video (lit "snippet") (VDict []) ;;
  title <- get video_snippet (lit "title") (VStr unknown_title) ;;
  published <- published_date video_snippet ;;
  Ok {| RecentVideo.title := title; RecentVideo.published := published |}.

(** The recent uploads of [analyze_channel]; only an [HttpError] of the
    playlist request is absorbed, with a warning. *)
Definition recent_videos_of (yt : Api.client) (content_details : value)
  : result (list notice * list RecentVideo.t) :=
  has_playlists <- contains (lit "relatedPlaylists") content_details ;;
  has_uploads <-
    (if has_playlists
     then playlists <- getitem content_details (lit "relatedPlaylists") ;;
          contains (lit "uploads") playlists
     else Ok false) ;;
  if has_uploads
  then
    playlists <- getitem content_details (lit "relatedPlaylists") ;;
    playlist_id <- getitem playlists (lit "uploads") ;;
    match (playlist_response <- yt (Api.PlaylistItemsList playlist_id) ;;
           present <- contains (lit "items") playlist_response ;;
           items <- (if present then getitem playlist_response (lit "items")
                     else Ok VNone) ;;
           if present && truthy items
           then items <- getitem playlist_response (lit "items") ;;
                items <- iterate items ;;
                mapM recent_video_of items
           else Ok []) with
    | Ok recent => Ok ([], recent)
    | Raise (HttpError status) =>
        Ok ([StWarning (RecentVideosFailed (HttpError status))], [])
    | Raise e => Raise e
    end
  else Ok ([], []).

(** [analyze_channel]: the notices shown, [channel_data] and the frame of
    recent videos. *)
Definition analyze_channel (youtube : option Api.client) (channel_id : str)
  : list notice * (option ChannelData.t * list RecentVideo.t) :=
  match youtube with
  | None => ([StError NotInitialized], (None, []))
  | Some yt =>
      shown (None, [])
        (channel_response <-
           yt (Api.ChannelsList (lit "statistics,snippet,contentDetails") channel_id) ;;
         none <- (if negb (truthy channel_response) then Ok true
                  else no_items channel_response) ;;
         if none then Ok ([StError ChannelNotFound], (None, []))
         else
           items <- getitem channel_response (lit "items") ;;
           item <- getfirst items ;;
           data <- channel_data_of_item item ;;
           recent <- recent_videos_of yt (snd data) ;;
           Ok (fst recent, (Some (fst data), snd recent)))
  end.

(** The channel analysis page:
    [avg_views = channel_data['総視聴回数'] / max(channel_data['動画本数'], 1)] *)
Definition channel_average_views (channel_data : ChannelData.t) : result float :=
  int_truediv (ChannelData.views channel_data) (Z.max (ChannelData.videos channel_data) 1).

Module ComparisonRow.
Record t := {
  name : value;             (* チャンネル名 *)
  subscribers : Z;          (* 登録者数 *)
  videos : Z;               (* 動画本数 *)
  views : Z;                (* 総視聴回数 *)
  average_views : float     (* 平均視聴回数 *)
}.
End ComparisonRow.

(** The row that the competitor comparison page appends for one item. *)
Definition comparison_row_of_item (item : value) : result ComparisonRow.t :=
  stats <- get item (lit "statistics") (VDict []) ;;
  snippet <- get item (lit "snippet") (VDict []) ;;
  counted <- int_field stats (lit "videoCount") 1 ;;
  let video_count := Z.max counted 1 in
  name <- get snippet (lit "title") (VStr unknown_channel_name) ;;
  subscribers <- int_field stats (lit "subscriberCount") 0 ;;
  videos <- int_field stats (lit "videoCount") 0 ;;
  views <- int_field stats (lit "viewCount") 0 ;;
  total <- int_field stats (lit "viewCount") 0 ;;
  average <- int_truediv total video_count ;;
  Ok {| ComparisonRow.name := name;
        ComparisonRow.subscribers := subscribers;
        ComparisonRow.videos := videos;
        ComparisonRow.views := views;
        ComparisonRow.average_views := average |}.

(** One turn of the loop over the channel ids: a channel with no item adds
    nothing, any exception adds a warning. *)
Definition comparison_step (yt : Api.client) (channel_id : str)
  : list notice * list ComparisonRow.t :=
  match (channel_response <- yt (Api.ChannelsList (lit "statistics,snippet") channel_id) ;;
         none <- (if negb (truthy channel_response) then Ok true
                  else no_items channel_response) ;;
         if none then Ok []
         else
           items <- getitem channel_response (lit "items") ;;
           item <- getfirst items ;;
           row <- comparison_row_of_item item ;;
           Ok [row]) with
  | Ok rows => ([], rows)
  | Raise e => ([StWarning (ChannelFailed channel_id e)], [])
  end.

(** [comparison_data] of the competitor comparison page. *)
Fixpoint comparison_data (yt : Api.client) (channels : list str)
  : list notice * list ComparisonRow.t :=
  match channels with
  | [] => ([], [])
  | channel_id :: rest =>
      let (n1, r1) := comparison_step yt channel_id in
      let (n2, r2) := comparison_data yt rest in
      (n1 ++ n2, r1 ++ r2)
  end.

(** The keyword analysis page.  [lower] is [str.lower]. *)
Section Keywords.
Variable lower : str -> str.
Variable base_keyword : str.

(** [if len(word) > 3 and word != base_keyword.lower():]
    [    keywords[word] = keywords.get(word, 0) + 1] *)
Definition count_word (keywords : dict Z) (word : str) : dict Z :=
  if (3 <? len word) && negb (str_eqb word (lower base_keyword))
  then dict_set keywords word (dict_get keywords word 0 + 1)
  else keywords.

(** [for word in title.lower().split()] *)
Definition count_title (keywords : dict Z) (title : str) : dict Z :=
  fold_left count_word (split (lower title)) keywords.

(** [sorted(keywords.items(), key=lambda x: x[1], reverse=True)[:20]]
    after the loop over the titles. *)
Definition top_keywords (titles : list str) : list (str * Z) :=
  firstn 20 (sorted_reverse Z.ltb snd (fold_left count_title titles [])).

(** [item.get('snippet', {}).get('title', '').lower()]; only a [str] has
    the method. *)
Definition lowered_title (item : value) : result str :=
  snippet <- get item (lit "snippet") (VDict []) ;;
  title <- get snippet (lit "title") (VStr []) ;;
  match title with
  | VStr s => Ok (lower s)
  | _ => Raise AttributeError
  end.

(** The loop over [search_response['items']]. *)
Fixpoint count_items (keywords : dict Z) (items : list value) : result (dict Z) :=
  match items with
  | [] => Ok keywords
  | item :: rest =>
      title <- lowered_title item ;;
      count_items (fold_left count_word (split title) keywords) rest
  end.

(** The page after its button is pressed with a keyword and a client. *)
Definition keyword_analysis (yt : Api.client) : list notice * list (str * Z) :=
  shown []
    (search_response <- yt (Api.SearchList base_keyword 50 None) ;;
     none <- no_items search_response ;;
     if none then Ok ([StWarning NoSearchResults], [])
     else
       items <- getitem search_response (lit "items") ;;
       items <- iterate items ;;
       keywords <- count_items [] items ;;
       Ok ([], firstn 20 (sorted_reverse Z.ltb snd keywords))).
End Keywords.

(** The channel analysis page, from the text typed to the channel id:
    [if "youtube.com/channel/" in channel_input:]
    [    channel_id = channel_input.split("channel/")[1].split("/")[0]]
    [else: channel_id = channel_input] *)
Definition extract_channel_id (channel_input : str) : result str :=
  if is_substring (lit "youtube.com/channel/") channel_input
  then after <- piece (split_on (lit "channel/") channel_input) 1 ;;
       piece (split_on (lit "/") after) 0
  else Ok channel_input.

(** The radar chart of the comparison page: the normalization of the
    column of averages, a float64 column of the frame. *)

(** The conversion of an integer to a double: to the nearest, ties to even. *)
Definition to_double (n : Z) : float := binary_normalize prec emax n 0 false.

(** [df[col].max()] of a float column: the NaN are skipped. *)
Definition max_float (xs : list float) : float :=
  match filter (fun x => negb (is_nan x)) xs with
  | [] => S754_nan
  | x :: l => fold_left (fun acc y => if float_ltb acc y then y else acc) l x
  end.

(** One entry of [(df[col] / max_val) * 100] *)
Definition scaled (x max_val : float) : float :=
  float_mul (SFdiv prec emax x max_val) (to_double 100).

(** [max_val = df[col].max()]
    [if max_val > 0: df_normalized[col] = (df[col] / max_val) * 100] *)
Definition normalized_float_column (xs : list float) : list num :=
  let max_val := max_float xs in
  if float_gt_int max_val 0
  then map (fun x => NFloat (scaled x max_val)) xs
  else map NFloat xs.

(** [init_youtube_api], which is run once: the errors shown and the
    client returned.  [build] is the constructor of the client library. *)
Inductive init_text :=
| KeyMissing                        (* "YouTube APIキーが設定されていません。..." *)
| InitFailed (e : exn).             (* f"YouTube API初期化エラー: {e}" *)

Definition init_youtube_api (api_key : option str) (build : str -> result Api.client)
  : list init_text * option Api.client :=
  match api_key with
  | None => ([KeyMissing], None)
  | Some [] => ([KeyMissing], None)
  | Some key =>
      match build key with
      | Ok client => ([], Some client)
      | Raise e => ([InitFailed e], None)
      end
  end.

(** What the pages themselves display, besides the texts of the two
    functions. *)
Inductive page_text :=
| Shared (t : text)
| ClientMissing                     (* "YouTube APIが初期化されていません。" *)
| NoKeyword                         (* "キーワードを入力してください" *)
| NoRelatedKeywords                 (* "関連キーワードが見つかりませんでした。" *)
| NoTrendingVideos.                 (* "トレンド動画が見つかりませんでした。" *)

Inductive page_notice :=
| PageError (t : page_text)
| PageWarning (t : page_text).

(** The two handlers that close the [try] of a page. *)
Definition page_shown {A} (empty : A) (body : result (list page_notice * A))
  : list page_notice * A :=
  match body with
  | Ok r => r
  | Raise (HttpError status) => ([PageError (Shared (ApiError (HttpError status)))], empty)
  | Raise e => ([PageError (Shared (Unexpected e))], empty)
  end.

(** The keyword analysis page when its button is pressed: the notices
    shown and [top_keywords], which is charted when it is not empty. *)
Definition keyword_page (lower : str -> str) (base_keyword : str)
    (youtube : option Api.client) : list page_notice * list (str * Z) :=
  match base_keyword with
  | [] => ([PageWarning NoKeyword], [])
  | _ =>
      match youtube with
      | None => ([PageError ClientMissing], [])
      | Some yt =>
          page_shown []
            (search_response <- yt (Api.SearchList base_keyword 50 None) ;;
             none <- no_items search_response ;;
             if none then Ok ([PageWarning (Shared NoSearchResults)], [])
             else
               items <- getitem search_response (lit "items") ;;
               items <- iterate items ;;
               keywords <- count_items lower base_keyword [] items ;;
               let top_keywords := firstn 20 (sorted_reverse Z.ltb snd keywords) in
               match top_keywords with
               | [] => Ok ([PageWarning NoRelatedKeywords], [])
               | _ :: _ => Ok ([], top_keywords)
               end)
      end
  end.

(** The trend analysis page. *)
Module TrendRow.
Record t := {
  title : value;            (* タイトル *)
  channel : value;          (* チャンネル *)
  views : Z;                (* 視聴回数 *)
  likes : Z;                (* いいね数 *)
  thumbnail : value;        (* サムネイル *)
  video_id : value          (* 動画ID *)
}.
End TrendRow.

Definition trend_row_of_item (item : value) : result TrendRow.t :=
  stats <- get item (lit "statistics") (VDict []) ;;
  snippet <- get item (lit "snippet") (VDict []) ;;
  thumbnail_url <- thumbnail_of (lit "medium") snippet ;;
  title <- get snippet (lit "title") (VStr unknown_title) ;;
  channel <- get snippet (lit "channelTitle") (VStr unknown_channel) ;;
  views <- int_field stats (lit "viewCount") 0 ;;
  likes <- int_field stats (lit "likeCount") 0 ;;
  video_id <- get item (lit "id") (VStr []) ;;
  Ok {| TrendRow.title := title;
        TrendRow.channel := channel;
        TrendRow.views := views;
        TrendRow.likes := likes;
        TrendRow.thumbnail := thumbnail_url;
        TrendRow.video_id := video_id |}.

(** [category_id = category.split(" - ")[0]] *)
Definition trend_category_id (category : str) : result str :=
  piece (split_on (lit " - ") category) 0.

(** The page when its button is pressed, with the region, the category
    option and the count chosen: the notices shown and the rows listed.
    [draw] is the chart and the list that the charting and page libraries
    draw from the frame of [trending_data], inside the same [try]: what
    they raise is shown like any other exception. *)
Definition trend_page (draw : list TrendRow.t -> result unit)
    (youtube : option Api.client)
    (region category : str) (max_results : Z) : list page_notice * list TrendRow.t :=
  match youtube with
  | None => ([PageError ClientMissing], [])
  | Some yt =>
      page_shown []
        (category_id <- trend_category_id category ;;
         let request :=
           if negb (str_eqb category_id (lit "0"))
           then Api.VideosMostPopular region (Some category_id) max_results
           else Api.VideosMostPopular region None max_results in
         response <- yt request ;;
         none <- no_items response ;;
         if none then Ok ([PageWarning NoTrendingVideos], [])
         else
           items <- getitem response (lit "items") ;;
           items <- iterate items ;;
           trending_data <- mapM trend_row_of_item items ;;
           _ <- draw trending_data ;;
           Ok ([], trending_data))
  end.

End StreamlitApp.

(** ** The specification's formulas *)

Module Spec.

Definition zero : float := S754_zero false.

(** "Engagement rate = ((likeCount + commentCount) / viewCount) x 100 when
    viewCount > 0, else 0.  Rounded to 2 decimal places." *)
Definition engagement_rate (like_count comment_count view_count : Z) : result float :=
  if 0 <? view_count
  then q <- int_truediv (like_count + comment_count) view_count ;;
       r <- float_mul_int q 100 ;;
       float_round r 2
  else Ok zero.

(** "averageViews = viewCount / videoCount when videoCount > 0, else 0" *)
Definition average_views (view_count video_count : Z) : result float :=
  if 0 <? video_count then int_truediv view_count video_count else Ok zero.

(** The average as the service stores it: rounded to an integral float. *)
Definition rounded_average_views (view_count video_count : Z) : result float :=
  if 0 <? video_count
  then q <- int_truediv view_count video_count ;; float_round q 0
  else Ok zero.

(** The average as the dashboard computes it: a channel without videos is
    divided by 1. *)
Definition floored_average_views (view_count video_count : Z) : result float :=
  int_truediv view_count (Z.max video_count 1).

(** "engagementScore = (averageViews / subscriberCount) x 100", before it
    is rounded. *)
Definition engagement_score (average_views : float) (subscriber_count : Z) : result float :=
  q <- float_div_int average_views subscriber_count ;;
  float_mul_int q 100.

(** "tier = High if > 10, Medium if > 5, else Low" *)
Definition tier (score : float) : App.rating :=
  if float_gt_int score 10 then App.High
  else if float_gt_int score 5 then App.Medium
  else App.Low.

(** The growth entry of one channel: the score rounded to 2 decimals and
    the tier of the score before rounding. *)
Definition growth_entry (c : App.ChannelInfo.t) : result App.Growth.t :=
  score <- engagement_score (App.ChannelInfo.average_views c)
                            (App.ChannelInfo.subscriber_count c) ;;
  rounded <- float_round score 2 ;;
  Ok {| App.Growth.channel := App.ChannelInfo.title c;
        App.Growth.engagement_score := rounded;
        App.Growth.rating := tier score |}.

Definition has_subscribers (c : App.ChannelInfo.t) : bool :=
  0 <? App.ChannelInfo.subscriber_count c.

(** "tokenize each title on whitespace": the words of a text are its
    maximal runs of code points that are not whitespace.  The text is read
    from its end; the state is the word that starts where the reading
    stands, and the words after it. *)
Definition with_word (word : str) (words : list str) : list str :=
  match word with
  | [] => words
  | _ :: _ => word :: words
  end.

Definition read_back (c : codepoint) (state : str * list str) : str * list str :=
  if isspace c
  then ([], with_word (fst state) (snd state))
  else (c :: fst state, snd state).

Definition words (s : str) : list str :=
  let state := fold_right read_back ([], []) s in
  with_word (fst state) (snd state).

(** A text given by its words, each after its gap, and what follows the
    last word. *)
Definition laid_out (gaps_words : list (str * str)) (trailing : str) : str :=
  flat_map (fun gw => fst gw ++ snd gw) gaps_words ++ trailing.

(** "(case-folded), keep tokens longer than 3 characters excluding a small
    stopword set" *)
Definition tokens (lower : str -> str) (stopwords : list str) (titles : list str) : list str :=
  flat_map (fun title =>
              filter (fun w => (3 <? len w) && negb (existsb (str_eqb w) stopwords))
                     (words (lower title))) titles.

(** The distinct tokens in the order in which they are first seen. *)
Fixpoint first_seen (l : list str) : list str :=
  match l with
  | [] => []
  | w :: l' => w :: filter (fun w' => negb (str_eqb w' w)) (first_seen l')
  end.

(** "a mapping from token to occurrence count" *)
Definition occurrences (w : str) (l : list str) : Z :=
  len (filter (str_eqb w) l).

Definition frequency_table (l : list str) : list (str * Z) :=
  map (fun w => (w, occurrences w l)) (first_seen l).

(** "by descending count, ties broken by first-seen order": the entries
    with the greatest count in the order of the table, then those with the
    next count, and so on down to the count 1. *)
Definition greatest_count (table : list (str * Z)) : nat :=
  fold_right (fun e m => Nat.max (Z.to_nat (snd e)) m) 0%nat table.

Definition ranked (table : list (str * Z)) : list (str * Z) :=
  flat_map (fun c => filter (fun e => snd e =? Z.of_nat c) table)
           (rev (seq 1 (greatest_count table))).

(** "return the top 20" *)
Definition keyword_frequencies (lower : str -> str) (stopwords : list str)
    (titles : list str) : list (str * Z) :=
  firstn 20 (ranked (frequency_table (tokens lower stopwords titles))).

End Spec.

(** ** Concrete responses, clients and data-frame back ends *)

Module Examples.

Definition thumbnails (resolution : string) : value :=
  VDict [(lit resolution, VDict [(lit "url", VStr (lit "https://i.ytimg.com/t.jpg"))])].

Definition snippet_fields (description : str) (resolution : string) : dict value :=
  [(lit "title", VStr (lit "Title"));
   (lit "channelId", VStr (lit "UC1"));
   (lit "channelTitle", VStr (lit "Channel"));
   (lit "publishedAt", VStr (lit "2024-01-01T00:00:00Z"));
   (lit "description", VStr description);
   (lit "thumbnails", thumbnails resolution)].

Definition snippet (description : str) (resolution : string) : value :=
  VDict (snippet_fields description resolution).

Definition content_details : value :=
  VDict [(lit "duration", VStr (lit "PT1M")); (lit "definition", VStr (lit "hd"))].

Definition video_statistics (views likes comments : string) : value :=
  VDict [(lit "viewCount", VStr (lit views));
         (lit "likeCount", VStr (lit likes));
         (lit "commentCount", VStr (lit comments))].

Definition video_item (views likes comments : string) (description : str) : value :=
  VDict [(lit "id", VStr (lit "v1"));
         (lit "statistics", video_statistics views likes comments);
         (lit "snippet", snippet description "high");
         (lit "contentDetails", content_details)].

(** A video record with no [statistics] object. *)
Definition video_without_statistics : value :=
  VDict [(lit "id", VStr (lit "v1"));
         (lit "snippet", snippet (lit "about") "high");
         (lit "contentDetails", content_details)].

Definition channel_item (views videos subscribers : string) (description : str) : value :=
  VDict [(lit "id", VStr (lit "UC1"));
         (lit "statistics",
          VDict [(lit "viewCount", VStr (lit views));
                 (lit "videoCount", VStr (lit videos));
                 (lit "subscriberCount", VStr (lit subscribers))]);
         (lit "snippet", snippet description "high")].

Definition response (items : list value) : value := VDict [(lit "items", VList items)].

Definition search_hit : value :=
  VDict [(lit "id", VDict [(lit "videoId", VStr (lit "v1"))])].

(** A client that answers a search with one hit and every lookup of a
    video or a channel with [items]; comments are disabled. *)
Definition client (items : list value) : Api.client :=
  fun request =>
    match request with
    | Api.SearchList _ _ _ => Ok (response [search_hit])
    | Api.VideosList _ _ => Ok (response items)
    | Api.ChannelsList _ _ => Ok (response items)
    | _ => Raise (HttpError 403)
    end.

(** A client whose every response is not a dictionary. *)
Definition broken_client : Api.client := fun _ => Ok VNone.

Definition channel (title : string) (subscribers : Z) : App.ChannelInfo.t := {|
  App.ChannelInfo.channel_id := lit title;
  App.ChannelInfo.title := lit title;
  App.ChannelInfo.description := [];
  App.ChannelInfo.subscriber_count := subscribers;
  App.ChannelInfo.video_count := 1;
  App.ChannelInfo.view_count := 10;
  App.ChannelInfo.published_at := lit "2024-01-01T00:00:00Z";
  App.ChannelInfo.thumbnail_url := [];
  (* 10.0 *)
  App.ChannelInfo.average_views := S754_finite false 5629499534213120 (-49)
|}.

(** A channel with 100000 subscribers and 10004 views on its one video,
    as [analyze_channel] returns it; its average is 10004.0. *)
Definition reach_channel : App.ChannelInfo.t := {|
  App.ChannelInfo.channel_id := lit "UC1";
  App.ChannelInfo.title := lit "Title";
  App.ChannelInfo.description := [];
  App.ChannelInfo.subscriber_count := 100000;
  App.ChannelInfo.video_count := 1;
  App.ChannelInfo.view_count := 10004;
  App.ChannelInfo.published_at := lit "2024-01-01T00:00:00Z";
  App.ChannelInfo.thumbnail_url := lit "https://i.ytimg.com/t.jpg";
  App.ChannelInfo.average_views := S754_finite false 5499757162135552 (-39)
|}.

(** [str.lower] on the letters A to Z. *)
Definition ascii_lower (s : str) : str :=
  map (fun c => if ((65 <=? c) && (c <=? 90))%N then (c + 32)%N else c) s.

(** The indexer that a sort of the (position, key) pairs gives. *)
Definition argsort {K} (sort : list (nat * K) -> list (nat * K)) (keys : list K) : list nat :=
  map fst (sort (combine (seq 0 (List.length keys)) keys)).

(** The mean as a left-to-right sum divided by the number of values. *)
Definition mean (xs : list float) : float :=
  SFdiv prec emax (fold_left (SFadd prec emax) xs Spec.zero)
        (binary_normalize prec emax (len xs) 0 false).

Definition mean_of_ints (xs : list Z) : float :=
  mean (map (fun n => binary_normalize prec emax n 0 false) xs).

(** A back end whose sort keeps rows with equal keys in input order. *)
Definition stable_backend : Pandas.backend := {|
  Pandas.argsort_descending_int := argsort (sorted_reverse Z.ltb snd);
  Pandas.argsort_descending_float := argsort (sorted_reverse float_ltb snd);
  Pandas.mean_int := mean_of_ints;
  Pandas.mean_float := mean
|}.

(** A client whose every request raises [e]. *)
Definition failing_client (e : exn) : Api.client := fun _ => Raise e.

(** A client that rejects the category [unknown] of a trending request with
    status 400 and answers every other request with no item. *)
Definition unknown_category_client (unknown : str) : Api.client :=
  fun request =>
    match request with
    | Api.VideosMostPopular _ (Some category) _ =>
        if str_eqb category unknown then Raise (HttpError 400) else Ok (response [])
    | _ => Ok (response [])
    end.

(** A client that answers every request with [items]. *)
Definition answering_client (items : list value) : Api.client :=
  fun _ => Ok (response items).

(** A comment thread with its three fields, and one without its text. *)
Definition comment_thread (fields : dict value) : value :=
  VDict [(lit "snippet",
          VDict [(lit "topLevelComment", VDict [(lit "snippet", VDict fields)])])].

Definition full_comment : value :=
  comment_thread [(lit "textDisplay", VStr (lit "nice"));
                  (lit "likeCount", VInt 3);
                  (lit "publishedAt", VStr (lit "2024-01-02T00:00:00Z"))].


(** A client that answers the lookup of a video with [items] and the
    request for its comments with [threads]. *)
Definition commented_client (items threads : list value) : Api.client :=
  fun request =>
    match request with
    | Api.VideosList _ _ => Ok (response items)
    | Api.CommentThreadsList _ => Ok (response threads)
    | _ => Raise (HttpError 403)
    end.

(** A channel with an uploads playlist, and a client whose playlist
    request raises [e]. *)
Definition channel_with_uploads : value :=
  VDict [(lit "id", VStr (lit "UC1"));
         (lit "statistics",
          VDict [(lit "viewCount", VStr (lit "100"));
                 (lit "videoCount", VStr (lit "4"));
                 (lit "subscriberCount", VStr (lit "10"))]);
         (lit "snippet", snippet (lit "about") "high");
         (lit "contentDetails",
          VDict [(lit "relatedPlaylists", VDict [(lit "uploads", VStr (lit "UU1"))])])].

Definition playlist_failing_client (e : exn) : Api.client :=
  fun request =>
    match request with
    | Api.ChannelsList _ _ => Ok (response [channel_with_uploads])
    | _ => Raise e
    end.

End Examples.

(** * Properties *)

(** ** The exception monad *)

Lemma bind_Ok_inv {A B} {m : result A} {k : A -> result B} {b : B} :
  bind m k = Ok b -> exists a, m = Ok a /\ k a = Ok b.
Proof.
  destruct m as [a | e]; simpl; intros H; [eauto | discriminate].
Qed.

Lemma bind_Raise_inv {A B} {m : result A} {k : A -> result B} {e : exn} :
  bind m k = Raise e -> m = Raise e \/ exists a, m = Ok a /\ k a = Raise e.
Proof.
  destruct m as [a | e']; simpl; intros H; [eauto | left; congruence].
Qed.

(** Peels the successful steps off a hypothesis [m1 ;; ... ;; mn = Ok r]. *)
Ltac steps H :=
  lazymatch type of H with
  | bind ?m ?k = Ok ?b =>
      let a := fresh "v" in
      let E := fresh "E" in
      destruct (bind_Ok_inv H) as [a [E H']]; clear H; rename H' into H;
      cbv beta in H; steps H
  | _ => idtac
  end.

Lemma str_eqb_refl (a : str) : str_eqb a a = true.
Proof.
  induction a as [| x a IH]; simpl; [reflexivity |].
  now rewrite N.eqb_refl.
Qed.

Lemma str_eqb_eq (a b : str) : str_eqb a b = true <-> a = b.
Proof.
  split; [| intros ->; apply str_eqb_refl].
  revert b; induction a as [| x a IH]; intros [| y b]; simpl; try discriminate; auto.
  intros H; apply andb_prop in H as [Hx Hab].
  apply N.eqb_eq in Hx; subst; f_equal; auto.
Qed.

Lemma str_eqb_neq (a b : str) : str_eqb a b = false <-> a <> b.
Proof.
  rewrite <- str_eqb_eq; destruct (str_eqb a b); split; congruence.
Qed.

Lemma str_eqb_sym (a b : str) : str_eqb a b = str_eqb b a.
Proof.
  destruct (str_eqb a b) eqn:E.
  - apply str_eqb_eq in E; subst; symmetry; apply str_eqb_refl.
  - symmetry; apply str_eqb_neq; apply str_eqb_neq in E; congruence.
Qed.

(** ** Uninitialized client *)

(** C1: with no API client the search endpoint does not fail with the
    unavailability error; for every keyword, count and order it returns
    one video record, the test record. *)
Theorem C1_search_without_client_returns_a_record :
  forall keyword max_results order,
    App.search_videos None keyword max_results order = Ok [App.test_video].
Proof. reflexivity. Qed.

(** The other endpoints of the service raise the 503 error at once. *)
Lemma uninitialized_endpoints_raise_503 :
  forall pd id ids,
    App.analyze_video None id = Raise (HTTPException 503 (Detail ApiUnavailable)) /\
    App.analyze_channel None id = Raise (HTTPException 503 (Detail ApiUnavailable)) /\
    App.compare_channels pd None ids = Raise (HTTPException 503 (Detail ApiUnavailable)).
Proof. intros; repeat split. Qed.

(** The dashboard shows the error and returns empty results. *)
Lemma uninitialized_dashboard_shows_error :
  forall keyword max_results order id,
    StreamlitApp.search_videos None keyword max_results order
      = ([StreamlitApp.StError StreamlitApp.NotInitialized], []) /\
    StreamlitApp.analyze_channel None id
      = ([StreamlitApp.StError StreamlitApp.NotInitialized], (None, [])).
Proof. intros; split; reflexivity. Qed.

(** ** Not found *)

(** C2: when the lookup of a video or of a channel yields no item, the
    404 raised by the endpoint is caught by its own last handler and the
    request fails with status 500, the status of every other failure. *)
Theorem C2_not_found_is_reported_as_500 :
  forall (yt : Api.client) (id : str) (response items : value),
    getitem response (lit "items") = Ok items ->
    truthy items = false ->
    (yt (Api.VideosList (lit "statistics,contentDetails,snippet") id) = Ok response ->
     App.analyze_video (Some yt) id
       = Raise (HTTPException 500 (DetailStr (HTTPException 404 (Detail VideoNotFound))))) /\
    (yt (Api.ChannelsList (lit "statistics,snippet,contentDetails") id) = Ok response ->
     App.analyze_channel (Some yt) id
       = Raise (HTTPException 500 (DetailStr (HTTPException 404 (Detail ChannelNotFound))))).
Proof.
  intros yt id response items Hitems Hfalsy; split; intros Hresp.
  - unfold App.analyze_video. rewrite Hresp. simpl. rewrite Hitems. simpl.
    rewrite Hfalsy. reflexivity.
  - unfold App.analyze_channel. rewrite Hresp. simpl. rewrite Hitems. simpl.
    rewrite Hfalsy. reflexivity.
Qed.

Lemma C2_not_found_is_reported_as_500_witness :
  App.analyze_video (Some (Examples.client [])) (lit "v1")
    = Raise (HTTPException 500 (DetailStr (HTTPException 404 (Detail VideoNotFound)))) /\
  App.analyze_channel (Some (Examples.client [])) (lit "UC1")
    = Raise (HTTPException 500 (DetailStr (HTTPException 404 (Detail ChannelNotFound)))).
Proof.
  pose proof (@C2_not_found_is_reported_as_500 (Examples.client []) (lit "v1")
                (Examples.response []) (VList []) eq_refl eq_refl) as Hv.
  pose proof (@C2_not_found_is_reported_as_500 (Examples.client []) (lit "UC1")
                (Examples.response []) (VList []) eq_refl eq_refl) as Hc.
  split; [apply (proj1 Hv) | apply (proj2 Hc)]; reflexivity.
Defined.

(** A response that is not even a dictionary fails with the same status. *)
Lemma malformed_response_is_reported_as_500 :
  App.analyze_video (Some Examples.broken_client) (lit "v1")
    = Raise (HTTPException 500 (DetailStr TypeError)).
Proof. reflexivity. Qed.

(** ** Engagement rate *)

Lemma float_of_int_0 : float_of_int 0 = Ok Spec.zero.
Proof. reflexivity. Qed.

(** The guarded computation of both search surfaces, once rounded: the
    specification's formula as a float for a positive view count, the
    integer 0 otherwise. *)
Lemma guarded_engagement_rate {view_count like_count comment_count : Z} {er rounded : num} :
  App.engagement_rate_of view_count like_count comment_count = Ok er ->
  round er 2 = Ok rounded ->
  ((0 <? view_count) = true /\
   exists x, Spec.engagement_rate like_count comment_count view_count = Ok x /\
             rounded = NFloat x) \/
  ((0 <? view_count) = false /\ rounded = NInt 0).
Proof.
  unfold App.engagement_rate_of, Spec.engagement_rate. intros Her Hround.
  destruct (0 <? view_count); [left | right]; split; try reflexivity.
  - steps Her. injection Her as <-.
    cbn [round] in Hround. steps Hround. injection Hround as <-.
    repeat match goal with
           | E : _ = Ok _ |- _ => rewrite E; clear E; cbn [bind]
           end.
    eauto.
  - injection Her as <-. cbn [round] in Hround. congruence.
Qed.

Lemma dashboard_rate_is_service_rate :
  StreamlitApp.engagement_rate_of = App.engagement_rate_of.
Proof. reflexivity. Qed.

(** Search normalization of the service: the derived rate of every record
    it produces is the formula applied to the record's counts. *)
Lemma search_engagement_rate (item : value) (info : App.VideoInfo.t) :
  App.video_info_of_item item = Ok info ->
  Spec.engagement_rate (App.VideoInfo.like_count info) (App.VideoInfo.comment_count info)
                       (App.VideoInfo.view_count info)
    = Ok (App.VideoInfo.engagement_rate info).
Proof.
  intros H. unfold App.video_info_of_item in H. steps H.
  injection H as <-. cbn.
  match goal with
  | Hr : App.engagement_rate_of _ _ _ = Ok ?er, Hd : round ?er 2 = Ok ?rd,
    Hf : as_float ?rd = Ok _ |- _ =>
      destruct (guarded_engagement_rate Hr Hd) as [[Hpos [x [Hx ->]]] | [Hneg ->]];
      cbn [as_float] in Hf
  end.
  - congruence.
  - unfold Spec.engagement_rate. rewrite Hneg. rewrite float_of_int_0 in *. congruence.
Qed.

(** Search normalization of the dashboard: the row holds the formula's
    value, as the integer 0 when the view count is not positive. *)
Lemma dashboard_engagement_rate (item : value) (row : StreamlitApp.VideoRow.t) :
  StreamlitApp.video_row_of_item item = Ok row ->
  ((0 <? StreamlitApp.VideoRow.views row) = true /\
   exists x, Spec.engagement_rate (StreamlitApp.VideoRow.likes row)
                                  (StreamlitApp.VideoRow.comments row)
                                  (StreamlitApp.VideoRow.views row) = Ok x /\
             StreamlitApp.VideoRow.engagement_rate row = NFloat x) \/
  ((0 <? StreamlitApp.VideoRow.views row) = false /\
   StreamlitApp.VideoRow.engagement_rate row = NInt 0).
Proof.
  intros H. unfold StreamlitApp.video_row_of_item in H. steps H.
  injection H as <-. cbn.
  rewrite dashboard_rate_is_service_rate in *.
  eapply guarded_engagement_rate; eassumption.
Qed.

(** Single-video analysis with a positive view count. *)
Lemma analysis_engagement_rate_positive (stats : value) (like_count comment_count view_count : Z) :
  App.int_field stats (lit "likeCount") 0 = Ok like_count ->
  App.int_field stats (lit "commentCount") 0 = Ok comment_count ->
  App.int_field stats (lit "viewCount") 1 = Ok view_count ->
  0 < view_count ->
  App.analysis_engagement_rate stats
    = bind (Spec.engagement_rate like_count comment_count view_count)
           (fun x => Ok (NFloat x)).
Proof.
  intros Hl Hc Hv Hpos. unfold App.analysis_engagement_rate, Spec.engagement_rate.
  rewrite Hl, Hc, Hv. cbn [bind].
  apply Z.ltb_lt in Hpos. rewrite Hpos.
  destruct (int_truediv (like_count + comment_count) view_count) as [q |]; cbn [bind];
    [| reflexivity].
  destruct (float_mul_int q 100) as [r |]; reflexivity.
Qed.

(** Single-video analysis of a video whose view count is 0. *)
Lemma analysis_engagement_rate_without_views (stats : value) (like_count comment_count : Z) :
  App.int_field stats (lit "likeCount") 0 = Ok like_count ->
  App.int_field stats (lit "commentCount") 0 = Ok comment_count ->
  App.int_field stats (lit "viewCount") 1 = Ok 0 ->
  App.analysis_engagement_rate stats = Raise ZeroDivisionError.
Proof.
  intros Hl Hc Hv. unfold App.analysis_engagement_rate.
  rewrite Hl, Hc, Hv. reflexivity.
Qed.

(** C3: single-video analysis divides by the view count without the guard
    of the search surfaces; for a video with 0 views (3 likes, 1 comment)
    it raises [ZeroDivisionError] and the request fails with status 500,
    where the formula gives the rate 0. *)
Theorem C3_analysis_of_a_video_without_views_fails :
  App.analyze_video
    (Some (Examples.client [Examples.video_item "0" "3" "1" (lit "about")])) (lit "v1")
    = Raise (HTTPException 500 (DetailStr ZeroDivisionError)) /\
  Spec.engagement_rate 3 1 0 = Ok Spec.zero.
Proof. split; reflexivity. Qed.

(** ** Missing statistics *)

(** In the service a record without [statistics] is a [KeyError]. *)
Lemma service_needs_statistics (d : dict value) :
  lookup (lit "statistics") d = None ->
  App.video_info_of_item (VDict d) = Raise (KeyError (KStr (lit "statistics"))).
Proof.
  intros H. unfold App.video_info_of_item. cbn [getitem]. rewrite H. reflexivity.
Qed.

(** In the dashboard the counts of such a record default to 0 and the
    rate is 0. *)
Lemma dashboard_defaults_statistics (d : dict value) (row : StreamlitApp.VideoRow.t) :
  lookup (lit "statistics") d = None ->
  StreamlitApp.video_row_of_item (VDict d) = Ok row ->
  StreamlitApp.VideoRow.views row = 0 /\
  StreamlitApp.VideoRow.likes row = 0 /\
  StreamlitApp.VideoRow.comments row = 0 /\
  StreamlitApp.VideoRow.engagement_rate row = NInt 0.
Proof.
  intros Hd H. unfold StreamlitApp.video_row_of_item in H.
  cbn [get] in H. rewrite Hd in H. cbn [bind] in H.
  steps H. injection H as <-. cbn.
  repeat match goal with
         | E : StreamlitApp.int_field (VDict []) _ 0 = Ok _ |- _ =>
             cbv in E; injection E as <-
         end.
  match goal with
  | E : StreamlitApp.engagement_rate_of 0 0 0 = Ok _ |- _ => cbv in E; injection E as <-
  end.
  match goal with
  | E : round (NInt 0) 2 = Ok _ |- _ => cbv in E; injection E as <-
  end.
  auto.
Qed.

(** A record with neither [statistics] nor [snippet] is normalized by the
    dashboard without an exception. *)
Lemma dashboard_tolerates_bare_record (d : dict value) :
  lookup (lit "statistics") d = None ->
  lookup (lit "snippet") d = None ->
  StreamlitApp.video_row_of_item (VDict d)
    = Ok {| StreamlitApp.VideoRow.title := VStr StreamlitApp.unknown_title;
            StreamlitApp.VideoRow.channel := VStr StreamlitApp.unknown_channel;
            StreamlitApp.VideoRow.published := VStr [];
            StreamlitApp.VideoRow.views := 0;
            StreamlitApp.VideoRow.likes := 0;
            StreamlitApp.VideoRow.comments := 0;
            StreamlitApp.VideoRow.engagement_rate := NInt 0;
            StreamlitApp.VideoRow.video_id := dict_get d (lit "id") (VStr []);
            StreamlitApp.VideoRow.thumbnail := VStr [] |}.
Proof.
  intros Hs Hn. unfold StreamlitApp.video_row_of_item.
  cbn [get]. rewrite Hs, Hn. cbn. unfold dict_get.
  match goal with
  | |- context [lookup ?k d] => destruct (lookup k d)
  end; reflexivity.
Qed.

(** C5: a video record without the [statistics] object is not normalized
    by the service: the loop of the search endpoint raises [KeyError] and
    the request fails with status 500.  The dashboard normalizes the same
    record to zero counts and a zero rate. *)
Theorem C5_record_without_statistics_fails_in_the_service :
  App.video_info_of_item Examples.video_without_statistics
    = Raise (KeyError (KStr (lit "statistics"))) /\
  App.search_videos (Some (Examples.client [Examples.video_without_statistics]))
                    (lit "python") 10 (lit "relevance")
    = Raise (HTTPException 500 (DetailStr (KeyError (KStr (lit "statistics"))))) /\
  (exists row,
     StreamlitApp.search_videos (Some (Examples.client [Examples.video_without_statistics]))
                                (lit "python") 10 (lit "relevance") = ([], [row]) /\
     StreamlitApp.VideoRow.views row = 0 /\
     StreamlitApp.VideoRow.likes row = 0 /\
     StreamlitApp.VideoRow.comments row = 0 /\
     StreamlitApp.VideoRow.engagement_rate row = NInt 0).
Proof.
  split; [reflexivity | split; [reflexivity |]].
  eexists. split; [reflexivity |]. repeat split.
Qed.

(** ** Average views *)

Lemma bind_never_divides_by_zero {A B} (m : result A) (k : A -> result B) :
  never_divides_by_zero m ->
  (forall a, m = Ok a -> never_divides_by_zero (k a)) ->
  never_divides_by_zero (bind m k).
Proof.
  unfold never_divides_by_zero. intros Hm Hk H.
  destruct (bind_Raise_inv H) as [E | [a [E E']]]; [auto | eapply Hk; eauto].
Qed.

(** Case analysis on every [match] of a goal about a primitive. *)
Ltac by_cases :=
  intros; unfold never_divides_by_zero;
  repeat match goal with
         | |- context [match ?x with _ => _ end] => destruct x
         end;
  cbn; try discriminate.

Lemma getitem_never_divides_by_zero v k : never_divides_by_zero (getitem v k).
Proof. unfold getitem. by_cases. Qed.

Lemma get_never_divides_by_zero v k d : never_divides_by_zero (get v k d).
Proof. unfold get. by_cases. Qed.

Lemma int_never_divides_by_zero v : never_divides_by_zero (int v).
Proof. unfold int, int_of_float, int_of_str. by_cases. Qed.

Lemma float_round_never_divides_by_zero x n : never_divides_by_zero (float_round x n).
Proof. unfold float_round. by_cases. Qed.

Lemma float_of_int_never_divides_by_zero n : never_divides_by_zero (float_of_int n).
Proof. unfold float_of_int. by_cases. Qed.

Lemma round_never_divides_by_zero v n : never_divides_by_zero (round v n).
Proof.
  destruct v; cbn [round]; [discriminate |].
  apply bind_never_divides_by_zero; [apply float_round_never_divides_by_zero | discriminate].
Qed.

Lemma as_str_never_divides_by_zero v : never_divides_by_zero (as_str v).
Proof. unfold as_str. by_cases. Qed.

Lemma as_float_never_divides_by_zero v : never_divides_by_zero (as_float v).
Proof. destruct v; cbn [as_float]; [apply float_of_int_never_divides_by_zero | discriminate]. Qed.

Lemma slice_to_never_divides_by_zero v n : never_divides_by_zero (slice_to v n).
Proof. unfold slice_to. by_cases. Qed.

Lemma add_str_never_divides_by_zero v s : never_divides_by_zero (add_str v s).
Proof. unfold add_str. by_cases. Qed.

Lemma int_truediv_never_divides_by_zero a b :
  b <> 0 -> never_divides_by_zero (int_truediv a b).
Proof.
  intros Hb. unfold int_truediv. apply Z.eqb_neq in Hb. rewrite Hb. by_cases.
Qed.

Create HintDb no_zde.

#[local] Hint Resolve getitem_never_divides_by_zero get_never_divides_by_zero
  int_never_divides_by_zero float_round_never_divides_by_zero
  float_of_int_never_divides_by_zero round_never_divides_by_zero
  as_str_never_divides_by_zero as_float_never_divides_by_zero
  slice_to_never_divides_by_zero add_str_never_divides_by_zero : no_zde.

(** Walks down a sequence of steps none of which divides by zero. *)
Ltac no_zde :=
  repeat first
    [ apply bind_never_divides_by_zero; [ | intros ? ? ]
    | solve [ auto with no_zde ]
    | discriminate
    | match goal with
      | |- never_divides_by_zero (if ?c then _ else _) => destruct c eqn:?
      end ].

Lemma int_field_never_divides_by_zero stats field default :
  never_divides_by_zero (App.int_field stats field default).
Proof. unfold App.int_field. no_zde. Qed.

Lemma high_thumbnail_never_divides_by_zero snippet :
  never_divides_by_zero (App.high_thumbnail snippet).
Proof. unfold App.high_thumbnail. no_zde. Qed.

Lemma channel_description_never_divides_by_zero snippet :
  never_divides_by_zero (App.channel_description snippet).
Proof. unfold App.channel_description. no_zde. Qed.

Lemma average_views_of_never_divides_by_zero view_count video_count :
  never_divides_by_zero (App.average_views_of view_count video_count).
Proof.
  unfold App.average_views_of. destruct (0 <? video_count) eqn:E; [| discriminate].
  apply Z.ltb_lt in E.
  apply bind_never_divides_by_zero; [| discriminate].
  apply int_truediv_never_divides_by_zero. lia.
Qed.

#[local] Hint Resolve int_field_never_divides_by_zero high_thumbnail_never_divides_by_zero
  channel_description_never_divides_by_zero average_views_of_never_divides_by_zero : no_zde.

(** The default of a missing [videoCount] does not change the divisor of
    the comparison page. *)
Lemma video_count_divisor {stats : value} {videos counted : Z} :
  StreamlitApp.int_field stats (lit "videoCount") 0 = Ok videos ->
  StreamlitApp.int_field stats (lit "videoCount") 1 = Ok counted ->
  Z.max counted 1 = Z.max videos 1.
Proof.
  unfold StreamlitApp.int_field, get. destruct stats; try discriminate.
  destruct (lookup (lit "videoCount") d); cbn [bind].
  - congruence.
  - cbn. intros [= <-] [= <-]. reflexivity.
Qed.

(** The average of the service, once rounded and stored as a float. *)
Lemma service_average {view_count video_count : Z} {a r : num} {x : float} :
  App.average_views_of view_count video_count = Ok a ->
  round a 0 = Ok r ->
  as_float r = Ok x ->
  Spec.rounded_average_views view_count video_count = Ok x.
Proof.
  unfold App.average_views_of, Spec.rounded_average_views. intros Ha Hr Hf.
  destruct (0 <? video_count).
  - steps Ha. injection Ha as <-. cbn [round] in Hr. steps Hr. injection Hr as <-.
    cbn [as_float] in Hf.
    repeat match goal with
           | E : _ = Ok _ |- _ => rewrite E; clear E; cbn [bind]
           end.
    reflexivity.
  - injection Ha as <-. cbn in Hr. injection Hr as <-. exact Hf.
Qed.

(** C4, as amended.  The service stores the average rounded to an
    integral float, 0 for a channel whose video count is not positive; the
    dashboard divides the view count by the video count floored at 1, so
    that a channel without videos has its view count as average; no
    surface raises a division by zero. *)
Theorem C4_average_views :
  (forall channel_id item info,
     App.channel_info_of_item channel_id item = Ok info ->
     Spec.rounded_average_views (App.ChannelInfo.view_count info)
                                (App.ChannelInfo.video_count info)
       = Ok (App.ChannelInfo.average_views info)) /\
  (forall item row,
     StreamlitApp.comparison_row_of_item item = Ok row ->
     Spec.floored_average_views (StreamlitApp.ComparisonRow.views row)
                                (StreamlitApp.ComparisonRow.videos row)
       = Ok (StreamlitApp.ComparisonRow.average_views row)) /\
  (forall channel_data,
     StreamlitApp.channel_average_views channel_data
       = Spec.floored_average_views (StreamlitApp.ChannelData.views channel_data)
                                    (StreamlitApp.ChannelData.videos channel_data)) /\
  (forall channel_id item,
     never_divides_by_zero (App.channel_info_of_item channel_id item)) /\
  (forall item, never_divides_by_zero (StreamlitApp.comparison_row_of_item item)) /\
  (forall channel_data,
     never_divides_by_zero (StreamlitApp.channel_average_views channel_data)).
Proof.
  repeat split.
  - intros channel_id item info H. unfold App.channel_info_of_item in H. steps H.
    injection H as <-. cbn.
    match goal with
    | Ha : App.average_views_of _ _ = Ok ?a, Hr : round ?a 0 = Ok ?r,
      Hf : as_float ?r = Ok _ |- _ => exact (service_average Ha Hr Hf)
    end.
  - intros item row H. unfold StreamlitApp.comparison_row_of_item in H. steps H.
    injection H as <-. cbn. unfold Spec.floored_average_views.
    match goal with
    | Hc : StreamlitApp.int_field ?s (lit "videoCount") 1 = Ok _,
      Hv : StreamlitApp.int_field ?s (lit "videoCount") 0 = Ok _ |- _ =>
        rewrite <- (video_count_divisor Hv Hc)
    end.
    congruence.
  - intros channel_id item. unfold App.channel_info_of_item. no_zde.
  - intros item. unfold StreamlitApp.comparison_row_of_item.
    change StreamlitApp.int_field with App.int_field. no_zde.
    apply int_truediv_never_divides_by_zero. lia.
  - intros channel_data. unfold StreamlitApp.channel_average_views.
    apply int_truediv_never_divides_by_zero. lia.
Qed.

Lemma C4_average_views_witness :
  Spec.rounded_average_views 3 2 = Ok (S754_finite false 4503599627370496 (-51)) /\
  Spec.floored_average_views 100 0 = Ok (S754_finite false 7036874417766400 (-46)).
Proof.
  split.
  - exact (proj1 C4_average_views (lit "UC1")
             (Examples.channel_item "3" "2" "10" []) _ eq_refl).
  - exact (proj1 (proj2 C4_average_views)
             (Examples.channel_item "100" "0" "10" []) _ eq_refl).
Defined.

(** C4 as stated fails: for 3 views over 2 videos the service stores 2.0,
    not 1.5; for 100 views and no video the comparison page of the
    dashboard computes 100.0, not 0. *)
Lemma C4_counterexample :
  (exists info,
     App.channel_info_of_item (lit "UC1") (Examples.channel_item "3" "2" "10" []) = Ok info /\
     App.ChannelInfo.view_count info = 3 /\
     App.ChannelInfo.video_count info = 2 /\
     App.ChannelInfo.average_views info = S754_finite false 4503599627370496 (-51) /\
     Spec.average_views 3 2 = Ok (S754_finite false 6755399441055744 (-52)) /\
     Spec.average_views 3 2 <> Ok (App.ChannelInfo.average_views info)) /\
  (exists row,
     StreamlitApp.comparison_row_of_item (Examples.channel_item "100" "0" "10" []) = Ok row /\
     StreamlitApp.ComparisonRow.views row = 100 /\
     StreamlitApp.ComparisonRow.videos row = 0 /\
     StreamlitApp.ComparisonRow.average_views row = S754_finite false 7036874417766400 (-46) /\
     Spec.average_views 100 0 = Ok Spec.zero /\
     Spec.average_views 100 0 <> Ok (StreamlitApp.ComparisonRow.average_views row)).
Proof.
  split; eexists; (split; [reflexivity |]); cbn; repeat split; discriminate.
Qed.

(** ** Description *)

(** The records hold what the description expressions compute. *)
Lemma service_video_description (item : value) (info : App.VideoInfo.t) :
  App.video_info_of_item item = Ok info ->
  exists snippet,
    getitem item (lit "snippet") = Ok snippet /\
    App.video_description snippet = Ok (VStr (App.VideoInfo.description info)).
Proof.
  intros H. unfold App.video_info_of_item in H. steps H. injection H as <-. cbn.
  eexists; split; [eassumption |].
  match goal with
  | Hd : App.video_description _ = Ok ?d, Hs : as_str ?d = Ok _ |- _ =>
      rewrite Hd; destruct d; try discriminate Hs; cbn in Hs; congruence
  end.
Qed.

Lemma service_channel_description (channel_id : str) (item : value) (info : App.ChannelInfo.t) :
  App.channel_info_of_item channel_id item = Ok info ->
  exists snippet,
    getitem item (lit "snippet") = Ok snippet /\
    App.channel_description snippet = Ok (VStr (App.ChannelInfo.description info)).
Proof.
  intros H. unfold App.channel_info_of_item in H. steps H. injection H as <-. cbn.
  eexists; split; [eassumption |].
  match goal with
  | Hd : App.channel_description _ = Ok ?d, Hs : as_str ?d = Ok _ |- _ =>
      rewrite Hd; destruct d; try discriminate Hs; cbn in Hs; congruence
  end.
Qed.

Lemma dashboard_channel_description (item : value) (data : StreamlitApp.ChannelData.t)
    (details : value) :
  StreamlitApp.channel_data_of_item item = Ok (data, details) ->
  exists snippet,
    get item (lit "snippet") (VDict []) = Ok snippet /\
    StreamlitApp.channel_description snippet
      = Ok (StreamlitApp.ChannelData.description data).
Proof.
  intros H. unfold StreamlitApp.channel_data_of_item in H. steps H.
  injection H as <- <-. cbn. eauto.
Qed.

Lemma truthy_str (d : str) : truthy (VStr d) = match d with [] => false | _ => true end.
Proof. reflexivity. Qed.

(** C6, as amended.  A non-empty description becomes its first 200
    characters followed by "..." on every surface.  An empty description
    of a channel becomes the empty string in the service and the
    placeholder "説明なし" in the dashboard, which also stands for an absent
    description. *)
Theorem C6_description :
  forall (snippet : dict value) (d : str),
    (lookup (lit "description") snippet = Some (VStr d) -> d <> [] ->
     App.video_description (VDict snippet) = Ok (VStr (firstn 200 d ++ lit "...")) /\
     App.channel_description (VDict snippet) = Ok (VStr (firstn 200 d ++ lit "...")) /\
     StreamlitApp.channel_description (VDict snippet)
       = Ok (VStr (firstn 200 d ++ lit "..."))) /\
    (lookup (lit "description") snippet = Some (VStr []) ->
     App.channel_description (VDict snippet) = Ok (VStr []) /\
     StreamlitApp.channel_description (VDict snippet)
       = Ok (VStr StreamlitApp.no_description)) /\
    (lookup (lit "description") snippet = None ->
     StreamlitApp.channel_description (VDict snippet)
       = Ok (VStr StreamlitApp.no_description)).
Proof.
  intros snippet d. split; [| split].
  - intros H Hd. split; [| split].
    + unfold App.video_description. cbn [getitem]. rewrite H. reflexivity.
    + unfold App.channel_description. cbn [getitem]. rewrite H.
      cbn [bind]. rewrite truthy_str. destruct d; [congruence | reflexivity].
    + unfold StreamlitApp.channel_description, get_or_none. cbn [get]. rewrite H.
      cbn [bind]. rewrite truthy_str. destruct d; [congruence | reflexivity].
  - intros H. split.
    + unfold App.channel_description. cbn [getitem]. rewrite H. reflexivity.
    + unfold StreamlitApp.channel_description, get_or_none. cbn [get]. rewrite H.
      reflexivity.
  - intros H. unfold StreamlitApp.channel_description, get_or_none. cbn [get]. rewrite H.
    reflexivity.
Qed.

Lemma C6_description_witness :
  App.video_description (Examples.snippet (lit "about") "high")
    = Ok (VStr (lit "about...")) /\
  StreamlitApp.channel_description (Examples.snippet [] "high")
    = Ok (VStr StreamlitApp.no_description) /\
  StreamlitApp.channel_description (VDict [])
    = Ok (VStr StreamlitApp.no_description).
Proof.
  split; [| split].
  - refine (proj1 (proj1 (C6_description (Examples.snippet_fields (lit "about") "high")
                                         (lit "about")) eq_refl _)).
    discriminate.
  - exact (proj2 (proj1 (proj2 (C6_description (Examples.snippet_fields [] "high") []))
                        eq_refl)).
  - exact (proj2 (proj2 (C6_description [] [])) eq_refl).
Defined.

(** C6 as stated fails: for an empty description the search endpoint of
    the service returns the bare ellipsis and its channel endpoint the
    empty string; neither is the placeholder. *)
Lemma C6_counterexample :
  App.video_description (Examples.snippet [] "high") = Ok (VStr (lit "...")) /\
  App.channel_description (Examples.snippet [] "high") = Ok (VStr []) /\
  lit "..." <> StreamlitApp.no_description /\
  [] <> StreamlitApp.no_description.
Proof. repeat split; discriminate. Qed.

(** ** Thumbnail *)

(** C7, as amended.  In the dashboard the thumbnail is the URL stored
    under the requested resolution when the snippet has it, and the empty
    string when the snippet has no thumbnails or the thumbnails lack that
    resolution; no other resolution is tried. *)
Theorem C7_thumbnail :
  forall (resolution : str) (snippet : dict value),
    (lookup (lit "thumbnails") snippet = None ->
     StreamlitApp.thumbnail_of resolution (VDict snippet) = Ok (VStr [])) /\
    (forall thumbnails,
       lookup (lit "thumbnails") snippet = Some (VDict thumbnails) ->
       lookup resolution thumbnails = None ->
       StreamlitApp.thumbnail_of resolution (VDict snippet) = Ok (VStr [])) /\
    (forall thumbnails entry url,
       lookup (lit "thumbnails") snippet = Some (VDict thumbnails) ->
       lookup resolution thumbnails = Some (VDict entry) ->
       lookup (lit "url") entry = Some url ->
       StreamlitApp.thumbnail_of resolution (VDict snippet) = Ok url).
Proof.
  intros resolution snippet. unfold StreamlitApp.thumbnail_of. split; [| split].
  - intros H. cbn [contains bind]. rewrite H. reflexivity.
  - intros thumbnails H Hr. cbn [contains getitem bind]. rewrite H.
    cbn [contains getitem bind]. rewrite Hr. reflexivity.
  - intros thumbnails entry url H Hr Hu. cbn [contains getitem bind]. rewrite H.
    cbn [contains getitem bind]. rewrite Hr. cbn [contains getitem bind]. rewrite Hu.
    reflexivity.
Qed.

Lemma C7_thumbnail_witness :
  StreamlitApp.thumbnail_of (lit "medium") (VDict []) = Ok (VStr []) /\
  StreamlitApp.thumbnail_of (lit "medium") (Examples.snippet [] "high") = Ok (VStr []) /\
  StreamlitApp.thumbnail_of (lit "high") (Examples.snippet [] "high")
    = Ok (VStr (lit "https://i.ytimg.com/t.jpg")).
Proof.
  split; [| split].
  - exact (proj1 (C7_thumbnail (lit "medium") []) eq_refl).
  - exact (proj1 (proj2 (C7_thumbnail (lit "medium") (Examples.snippet_fields [] "high")))
                 _ eq_refl eq_refl).
  - exact (proj2 (proj2 (C7_thumbnail (lit "high") (Examples.snippet_fields [] "high")))
                 _ _ _ eq_refl eq_refl eq_refl).
Defined.

(** C7 as stated fails: a snippet that has a thumbnail only at the
    resolution "default" gets the empty string from the video search of
    the dashboard, which asks for "medium" and falls back to nothing. *)
Lemma C7_counterexample :
  StreamlitApp.thumbnail_of (lit "medium") (Examples.snippet [] "default") = Ok (VStr []) /\
  bind (getitem (Examples.thumbnails "default") (lit "default"))
       (fun entry => getitem entry (lit "url"))
    = Ok (VStr (lit "https://i.ytimg.com/t.jpg")).
Proof. split; reflexivity. Qed.

(** ** The stable sort *)

Lemma StronglySorted_app_one {A} (R : A -> A -> Prop) (l : list A) (x : A) :
  StronglySorted R l -> Forall (fun y => R y x) l -> StronglySorted R (l ++ [x]).
Proof.
  induction 1 as [| y l Hs IH Hy]; intros Hx; cbn.
  - constructor; constructor.
  - inversion Hx; subst. constructor; [auto |].
    apply Forall_app; split; [assumption | constructor; [assumption | constructor]].
Qed.

Lemma StronglySorted_rev {A} (R : A -> A -> Prop) (l : list A) :
  StronglySorted R l -> StronglySorted (fun a b => R b a) (rev l).
Proof.
  induction 1 as [| y l Hs IH Hy]; cbn; [constructor |].
  apply StronglySorted_app_one; [assumption |].
  apply Forall_forall. intros z Hz. apply in_rev in Hz.
  rewrite Forall_forall in Hy. auto.
Qed.

Lemma StronglySorted_map_in {A B} (R : A -> A -> Prop) (R' : B -> B -> Prop)
    (f : A -> B) (l : list A) :
  (forall a b, In a l -> In b l -> R a b -> R' (f a) (f b)) ->
  StronglySorted R l -> StronglySorted R' (map f l).
Proof.
  intros Hf Hs. induction Hs as [| a l Hs IH Ha]; cbn; [constructor |].
  constructor.
  - apply IH. intros; apply Hf; auto using in_cons.
  - apply Forall_forall. intros y Hy. apply in_map_iff in Hy as [b [<- Hb]].
    rewrite Forall_forall in Ha. apply Hf; auto using in_eq, in_cons.
Qed.

Lemma StronglySorted_impl {A} (R R' : A -> A -> Prop) (l : list A) :
  (forall a b, R a b -> R' a b) -> StronglySorted R l -> StronglySorted R' l.
Proof.
  intros HR Hs. rewrite <- (map_id l).
  apply StronglySorted_map_in with (R := R); auto.
Qed.

Lemma filter_rev_comm {A} (f : A -> bool) (l : list A) :
  filter f (rev l) = rev (filter f l).
Proof.
  induction l as [| x l IH]; cbn; [reflexivity |].
  rewrite filter_app, IH. cbn. destruct (f x); cbn; [reflexivity | apply app_nil_r].
Qed.

Section SortFacts.
Context {A K : Type}.
Variable ltb : K -> K -> bool.
Variable key : A -> K.

(** The keys on which the order behaves: all of them for integers, all
    but the NaN for floats. *)
Variable ordered : K -> Prop.
Hypothesis ltb_asym : forall a b, ltb a b = true -> ltb b a = false.
Hypothesis ltb_negtrans :
  forall a b c, ordered b -> ltb a b = false -> ltb b c = false -> ltb a c = false.

Local Abbreviation ascending := (ascending ltb key).
Local Abbreviation not_smaller := (not_smaller ltb key).
Local Abbreviation tied := (tied ltb key).

Lemma insert_perm (x : A) (l : list A) : Permutation (insert ltb key x l) (x :: l).
Proof.
  induction l as [| y l IH]; cbn; [reflexivity |].
  destruct (ltb (key y) (key x)); [| reflexivity].
  rewrite IH. apply perm_swap.
Qed.

Lemma sorted_ascending_perm (l : list A) : Permutation (sorted_ascending ltb key l) l.
Proof.
  induction l as [| x l IH]; cbn; [reflexivity |].
  rewrite insert_perm. now constructor.
Qed.

Lemma sorted_reverse_perm (l : list A) : Permutation (sorted_reverse ltb key l) l.
Proof.
  unfold sorted_reverse. rewrite <- Permutation_rev, sorted_ascending_perm.
  symmetry; apply Permutation_rev.
Qed.

Lemma insert_sorted (x : A) (l : list A) :
  Forall (fun y => ordered (key y)) l ->
  StronglySorted ascending l -> StronglySorted ascending (insert ltb key x l).
Proof.
  intros Hok Hs. induction Hs as [| y l Hs IH Hy]; cbn.
  - constructor; constructor.
  - inversion Hok as [| ? ? Hoky Hokl]; subst.
    destruct (ltb (key y) (key x)) eqn:E.
    + constructor; [auto |].
      eapply Permutation_Forall; [symmetry; apply insert_perm |].
      constructor; [| assumption]. unfold ascending. auto.
    + constructor; [constructor; assumption |].
      constructor; [exact E |].
      rewrite Forall_forall in Hy |- *. intros z Hz.
      unfold ascending in *. eapply ltb_negtrans; [exact Hoky | auto | exact E].
Qed.

Lemma sorted_ascending_sorted (l : list A) :
  Forall (fun y => ordered (key y)) l ->
  StronglySorted ascending (sorted_ascending ltb key l).
Proof.
  induction l as [| x l IH]; intros Hok; cbn; [constructor |].
  inversion Hok; subst. apply insert_sorted; [| auto].
  eapply Permutation_Forall; [symmetry; apply sorted_ascending_perm | assumption].
Qed.

Lemma sorted_reverse_sorted (l : list A) :
  Forall (fun y => ordered (key y)) l ->
  StronglySorted not_smaller (sorted_reverse ltb key l).
Proof.
  intros Hok. unfold sorted_reverse.
  apply (@StronglySorted_rev _ ascending).
  apply sorted_ascending_sorted.
  eapply Permutation_Forall; [apply Permutation_rev | assumption].
Qed.

Lemma insert_tied (k : K) (x : A) (l : list A) :
  ordered k ->
  filter (tied k) (insert ltb key x l) = filter (tied k) (x :: l).
Proof.
  intros Hk. induction l as [| y l IH]; [reflexivity |].
  cbn [insert]. destruct (ltb (key y) (key x)) eqn:E; [| reflexivity].
  cbn [filter] in *. rewrite IH.
  destruct (tied k y) eqn:Ey, (tied k x) eqn:Ex; try reflexivity.
  exfalso. unfold tied in Ey, Ex.
  apply andb_prop in Ey as [_ Ey], Ex as [Ex _].
  apply negb_true_iff in Ey, Ex.
  rewrite (ltb_negtrans _ k _ Hk Ey Ex) in E. discriminate.
Qed.

Lemma sorted_ascending_tied (k : K) (l : list A) :
  ordered k ->
  filter (tied k) (sorted_ascending ltb key l) = filter (tied k) l.
Proof.
  intros Hk. induction l as [| x l IH]; [reflexivity |].
  cbn [sorted_ascending fold_right]. rewrite insert_tied by assumption.
  cbn [filter]. fold (sorted_ascending ltb key l). now rewrite IH.
Qed.

(** Stability: the elements tied with any key keep their input order. *)
Lemma sorted_reverse_tied (k : K) (l : list A) :
  ordered k ->
  filter (tied k) (sorted_reverse ltb key l) = filter (tied k) l.
Proof.
  intros Hk. unfold sorted_reverse.
  rewrite filter_rev_comm, sorted_ascending_tied, filter_rev_comm by assumption.
  apply rev_involutive.
Qed.
End SortFacts.

Lemma Z_ltb_asym (a b : Z) : (a <? b) = true -> (b <? a) = false.
Proof. rewrite Z.ltb_lt, Z.ltb_ge. lia. Qed.

Lemma Z_ltb_negtrans (a b c : Z) : True -> (a <? b) = false -> (b <? c) = false -> (a <? c) = false.
Proof. rewrite !Z.ltb_ge. lia. Qed.

(** ** Keyword frequencies *)

(** [split] cuts at whitespace: every token is a non-empty run without
    whitespace, and the tokens are the text without its whitespace. *)
Lemma split_from_tokens (cur s : str) :
  forallb (fun c => negb (isspace c)) cur = true ->
  Forall (fun w => w <> [] /\ forallb (fun c => negb (isspace c)) w = true)
         (split_from cur s).
Proof.
  revert cur. induction s as [| c s IH]; intros cur Hcur; cbn [split_from].
  - destruct cur as [| c0 cur]; [constructor |].
    constructor; [| constructor]. split.
    + intros H. apply (f_equal (@List.length _)) in H.
      rewrite length_rev in H. discriminate.
    + rewrite forallb_forall in Hcur |- *. intros x Hx. apply Hcur. now apply in_rev.
  - destruct (isspace c) eqn:Ec.
    + destruct cur as [| c0 cur]; [apply IH; reflexivity |].
      constructor; [| apply IH; reflexivity]. split.
      * intros H. apply (f_equal (@List.length _)) in H.
        rewrite length_rev in H. discriminate.
      * rewrite forallb_forall in Hcur |- *. intros x Hx. apply Hcur. now apply in_rev.
    + apply IH. cbn. now rewrite Ec.
Qed.

Lemma split_from_concat (cur s : str) :
  List.concat (split_from cur s) = rev cur ++ filter (fun c => negb (isspace c)) s.
Proof.
  revert cur. induction s as [| c s IH]; intros cur; cbn [split_from filter].
  - destruct cur; cbn; [reflexivity |]. now rewrite !app_nil_r.
  - destruct (isspace c) eqn:Ec; cbn [negb].
    + destruct cur as [| c0 cur]; [apply IH |].
      cbn [List.concat]. now rewrite IH.
    + rewrite IH. cbn [rev]. now rewrite <- app_assoc.
Qed.

Lemma split_tokens (s : str) :
  Forall (fun w => w <> [] /\ forallb (fun c => negb (isspace c)) w = true) (split s).
Proof. apply split_from_tokens. reflexivity. Qed.

Lemma split_concat (s : str) :
  List.concat (split s) = filter (fun c => negb (isspace c)) s.
Proof. apply split_from_concat. Qed.

(** The [split] of the code, which reads a text from its start, gives the
    words of the text. *)
Lemma split_from_words (cur s : str) :
  split_from cur s
    = Spec.with_word (rev cur ++ fst (fold_right Spec.read_back ([], []) s))
                     (snd (fold_right Spec.read_back ([], []) s)).
Proof.
  revert cur. induction s as [| c s IH]; intros cur; cbn [split_from fold_right].
  - cbn [fst snd]. rewrite app_nil_r. destruct cur as [| c0 cur]; [reflexivity |].
    cbn [rev]. destruct (rev cur ++ [c0]) eqn:E; [| reflexivity].
    apply app_eq_nil in E as [_ E]. discriminate E.
  - unfold Spec.read_back at 1 3. destruct (isspace c); cbn [fst snd].
    + rewrite app_nil_r, (IH []). cbn [rev app].
      destruct cur as [| c0 cur]; [reflexivity |].
      cbn [rev]. destruct (rev cur ++ [c0]) eqn:E; [| reflexivity].
      apply app_eq_nil in E as [_ E]. discriminate E.
    + rewrite (IH (c :: cur)). cbn [rev]. now rewrite <- app_assoc.
Qed.

Lemma split_words (s : str) : split s = Spec.words s.
Proof. apply split_from_words. Qed.

(** What the words of a text are: a word read after the state of the rest,
    and a gap read after it. *)
Lemma read_back_word (w t : str) :
  forallb (fun c => negb (isspace c)) w = true ->
  fold_right Spec.read_back ([], []) (w ++ t)
    = (w ++ fst (fold_right Spec.read_back ([], []) t),
       snd (fold_right Spec.read_back ([], []) t)).
Proof.
  induction w as [| c w IH]; intros H; cbn [app fold_right].
  - now destruct (fold_right Spec.read_back ([], []) t).
  - cbn [forallb] in H. apply andb_prop in H as [Hc H].
    rewrite (IH H). unfold Spec.read_back. apply negb_true_iff in Hc. now rewrite Hc.
Qed.

Lemma read_back_gap (g t : str) :
  forallb isspace g = true -> g <> [] ->
  fold_right Spec.read_back ([], []) (g ++ t)
    = ([], Spec.with_word (fst (fold_right Spec.read_back ([], []) t))
                          (snd (fold_right Spec.read_back ([], []) t))).
Proof.
  induction g as [| c g IH]; intros H Hg; [congruence |].
  cbn [forallb] in H. apply andb_prop in H as [Hc H]. cbn [app fold_right].
  unfold Spec.read_back at 1. rewrite Hc. destruct g as [| c' g]; [reflexivity |].
  rewrite IH by (assumption || discriminate). reflexivity.
Qed.

Lemma read_back_trailing (g : str) :
  forallb isspace g = true -> fold_right Spec.read_back ([], []) g = ([], []).
Proof.
  intros H. destruct g as [| c g]; [reflexivity |].
  rewrite <- (app_nil_r (c :: g)). rewrite read_back_gap by (assumption || discriminate).
  reflexivity.
Qed.

(** The words of a text laid out as gaps and words are those words. *)
Lemma words_laid_out (gaps_words : list (str * str)) (trailing : str) :
  Forall (fun gw => forallb isspace (fst gw) = true /\ snd gw <> [] /\
                    forallb (fun c => negb (isspace c)) (snd gw) = true) gaps_words ->
  Forall (fun gw => fst gw <> []) (tl gaps_words) ->
  forallb isspace trailing = true ->
  Spec.words (Spec.laid_out gaps_words trailing) = map snd gaps_words.
Proof.
  intros Hall Hgaps Htrail.
  assert (Hrest : forall rest,
            Forall (fun gw => forallb isspace (fst gw) = true /\ snd gw <> [] /\
                              forallb (fun c => negb (isspace c)) (snd gw) = true) rest ->
            Forall (fun gw => fst gw <> []) rest ->
            fold_right Spec.read_back ([], []) (Spec.laid_out rest trailing)
              = ([], map snd rest)).
  { induction rest as [| [g w] rest IH]; intros Hr Hg; unfold Spec.laid_out in *;
      cbn [flat_map app map fst snd].
    - now apply read_back_trailing.
    - inversion Hr as [| ? ? (Hsp & Hw & Hns) Hr']; subst.
      inversion Hg as [| ? ? Hne Hg']; subst. cbn [fst snd] in *.
      rewrite <- !app_assoc, read_back_gap, read_back_word, (IH Hr' Hg') by assumption.
      cbn [fst snd]. rewrite app_nil_r. destruct w; [congruence | reflexivity]. }
  destruct gaps_words as [| [g w] rest]; unfold Spec.words, Spec.laid_out;
    cbn [flat_map app map fst snd tl] in *.
  - now rewrite read_back_trailing.
  - inversion Hall as [| ? ? (Hsp & Hw & Hns) Hr']; subst. cbn [fst snd] in *.
    rewrite <- !app_assoc.
    destruct g as [| c g].
    + cbn [app]. rewrite read_back_word by assumption.
      unfold Spec.laid_out in Hrest. rewrite (Hrest rest Hr' Hgaps). cbn [fst snd].
      rewrite app_nil_r. destruct w; [congruence | reflexivity].
    + rewrite read_back_gap, read_back_word by (assumption || discriminate).
      unfold Spec.laid_out in Hrest. rewrite (Hrest rest Hr' Hgaps). cbn [fst snd].
      rewrite app_nil_r. destruct w; [congruence | reflexivity].
Qed.

Lemma existsb_str_eqb_In (w : str) (l : list str) :
  existsb (str_eqb w) l = true <-> In w l.
Proof.
  rewrite existsb_exists. split.
  - intros [x [Hx E]]. apply str_eqb_eq in E. now subst.
  - intros H. exists w. split; [assumption | apply str_eqb_refl].
Qed.

Lemma first_seen_In (u : str) (l : list str) : In u (Spec.first_seen l) <-> In u l.
Proof.
  induction l as [| x l IH]; cbn; [tauto |].
  rewrite filter_In, IH. destruct (str_eqb u x) eqn:E.
  - apply str_eqb_eq in E. subst. cbn. intuition.
  - apply str_eqb_neq in E. cbn. intuition congruence.
Qed.

Lemma first_seen_NoDup (l : list str) : NoDup (Spec.first_seen l).
Proof.
  induction l as [| x l IH]; cbn; constructor.
  - rewrite filter_In. intros [_ H]. now rewrite str_eqb_refl in H.
  - now apply NoDup_filter.
Qed.

Lemma first_seen_app_one (l : list str) (w : str) :
  Spec.first_seen (l ++ [w])
    = Spec.first_seen l ++ (if existsb (str_eqb w) l then [] else [w]).
Proof.
  induction l as [| x l IH]; cbn; [reflexivity |].
  rewrite IH, filter_app. f_equal. f_equal.
  destruct (str_eqb w x) eqn:E; cbn.
  - destruct (existsb (str_eqb w) l); cbn; [reflexivity | now rewrite E].
  - destruct (existsb (str_eqb w) l); cbn; [reflexivity | now rewrite E].
Qed.

Lemma occurrences_app_one (u w : str) (l : list str) :
  Spec.occurrences u (l ++ [w])
    = Spec.occurrences u l + (if str_eqb u w then 1 else 0).
Proof.
  unfold Spec.occurrences, len. rewrite filter_app, length_app. cbn.
  destruct (str_eqb u w); cbn; lia.
Qed.

Lemma occurrences_absent (w : str) (l : list str) :
  existsb (str_eqb w) l = false -> Spec.occurrences w l = 0.
Proof.
  intros H. unfold Spec.occurrences, len.
  induction l as [| x l IH]; [reflexivity |].
  cbn in H |- *. apply orb_false_elim in H as [E H]. rewrite E. auto.
Qed.

Lemma lookup_tabulated (f : str -> Z) (w : str) (l : list str) :
  dict_get (map (fun u => (u, f u)) l) w 0 = if existsb (str_eqb w) l then f w else 0.
Proof.
  unfold dict_get. induction l as [| u l IH]; [reflexivity |].
  cbn. destruct (str_eqb w u) eqn:E; cbn.
  - apply str_eqb_eq in E. now subst.
  - exact IH.
Qed.

Lemma dict_set_tabulated (f : str -> Z) (w : str) (v : Z) (l : list str) :
  NoDup l ->
  dict_set (map (fun u => (u, f u)) l) w v
    = if existsb (str_eqb w) l
      then map (fun u => (u, if str_eqb u w then v else f u)) l
      else map (fun u => (u, f u)) l ++ [(w, v)].
Proof.
  induction 1 as [| u l Hu Hl IH]; [reflexivity |].
  cbn. rewrite (str_eqb_sym u w). destruct (str_eqb w u) eqn:E; cbn.
  - f_equal. apply map_ext_in. intros u' Hu'.
    destruct (str_eqb u' w) eqn:E'; [| reflexivity].
    apply str_eqb_eq in E, E'. subst. contradiction.
  - rewrite IH. destruct (existsb (str_eqb w) l); reflexivity.
Qed.

Lemma occurrences_present (w : str) (l : list str) : In w l -> 1 <= Spec.occurrences w l.
Proof.
  unfold Spec.occurrences, len. induction l as [| x l IH]; cbn [In filter]; [tauto |].
  intros [-> | H].
  - rewrite str_eqb_refl. cbn [List.length]. lia.
  - destruct (str_eqb w x); cbn [List.length]; specialize (IH H); lia.
Qed.

(** One more occurrence of [w], as the dictionary records it. *)
Lemma count_in_table (l : list str) (w : str) :
  dict_set (Spec.frequency_table l) w (dict_get (Spec.frequency_table l) w 0 + 1)
    = Spec.frequency_table (l ++ [w]).
Proof.
  unfold Spec.frequency_table.
  rewrite lookup_tabulated, dict_set_tabulated by apply first_seen_NoDup.
  rewrite first_seen_app_one.
  assert (Hin : existsb (str_eqb w) (Spec.first_seen l) = existsb (str_eqb w) l).
  { apply eq_true_iff_eq. rewrite !existsb_str_eqb_In. apply first_seen_In. }
  rewrite Hin. destruct (existsb (str_eqb w) l) eqn:E.
  - rewrite app_nil_r. apply map_ext. intros u.
    rewrite occurrences_app_one. destruct (str_eqb u w) eqn:E'; [| f_equal; lia].
    apply str_eqb_eq in E'. now subst.
  - rewrite map_app. cbn. f_equal.
    + apply map_ext_in. intros u Hu. rewrite occurrences_app_one.
      destruct (str_eqb u w) eqn:E'; [| f_equal; lia].
      apply str_eqb_eq in E'. subst.
      apply (proj2 (existsb_str_eqb_In _ _)) in Hu. congruence.
    + rewrite occurrences_app_one, str_eqb_refl, (occurrences_absent _ _ E). reflexivity.
Qed.

Section KeywordFacts.
Variable lower : str -> str.
Variable base_keyword : str.

Local Abbreviation kept :=
  (fun w : str => (3 <? len w) && negb (existsb (str_eqb w) [lower base_keyword])).

Lemma count_words_table (words : list str) (seen : list str) :
  fold_left (StreamlitApp.count_word lower base_keyword) words (Spec.frequency_table seen)
    = Spec.frequency_table (seen ++ filter kept words).
Proof.
  revert seen. induction words as [| w words IH]; intros seen; cbn [fold_left filter].
  - now rewrite app_nil_r.
  - unfold StreamlitApp.count_word at 2. cbn [existsb]. rewrite orb_false_r.
    destruct ((3 <? len w) && negb (str_eqb w (lower base_keyword))).
    + rewrite count_in_table, IH, <- app_assoc. reflexivity.
    + apply IH.
Qed.

Lemma count_titles_table (titles : list str) (seen : list str) :
  fold_left (StreamlitApp.count_title lower base_keyword) titles (Spec.frequency_table seen)
    = Spec.frequency_table (seen ++ Spec.tokens lower [lower base_keyword] titles).
Proof.
  revert seen. induction titles as [| t titles IH]; intros seen; cbn [fold_left].
  - cbn. now rewrite app_nil_r.
  - unfold StreamlitApp.count_title at 2. rewrite count_words_table, IH.
    unfold Spec.tokens. cbn [flat_map]. now rewrite split_words, <- app_assoc.
Qed.

(** The loop over the response items counts the titles it reads. *)
Lemma count_items_titles (items : list value) (titles : list str) (keywords : dict Z) :
  Forall2 (fun item title => StreamlitApp.lowered_title lower item = Ok (lower title))
          items titles ->
  StreamlitApp.count_items lower base_keyword keywords items
    = Ok (fold_left (StreamlitApp.count_title lower base_keyword) titles keywords).
Proof.
  intros H. revert keywords. induction H as [| item title items titles Ht _ IH];
    intros keywords; cbn [StreamlitApp.count_items fold_left]; [reflexivity |].
  rewrite Ht. cbn [bind]. apply IH.
Qed.
End KeywordFacts.

Lemma tied_count (count : Z) (e : str * Z) :
  tied Z.ltb snd count e = (snd e =? count).
Proof.
  unfold tied. destruct (Z.ltb_spec count (snd e)), (Z.ltb_spec (snd e) count),
    (Z.eqb_spec (snd e) count); cbn; try reflexivity; lia.
Qed.

Lemma flat_map_ext_in {A B} (f g : A -> list B) (l : list A) :
  (forall a, In a l -> f a = g a) -> flat_map f l = flat_map g l.
Proof.
  induction l as [| a l IH]; intros H; cbn [flat_map]; [reflexivity |].
  rewrite (H a) by now left. rewrite IH; [reflexivity |]. intros a' Ha. apply H. now right.
Qed.

Lemma filter_all {A} (f : A -> bool) (l : list A) :
  Forall (fun x => f x = true) l -> filter f l = l.
Proof.
  induction 1 as [| x l Hx _ IH]; cbn [filter]; [reflexivity |]. now rewrite Hx, IH.
Qed.

Lemma filter_none {A} (f : A -> bool) (l : list A) :
  Forall (fun x => f x = false) l -> filter f l = [].
Proof.
  induction 1 as [| x l Hx _ IH]; cbn [filter]; [reflexivity |]. now rewrite Hx, IH.
Qed.

(** A table in descending order of count starts with its entries of the
    greatest count. *)
Lemma sorted_greatest_first (n : nat) (l : list (str * Z)) :
  StronglySorted (fun a b => snd b <= snd a) l ->
  Forall (fun e => 1 <= snd e <= Z.of_nat (S n)) l ->
  exists high low,
    l = high ++ low /\
    Forall (fun e => snd e = Z.of_nat (S n)) high /\
    Forall (fun e => 1 <= snd e <= Z.of_nat n) low /\
    StronglySorted (fun a b => snd b <= snd a) low.
Proof.
  induction 1 as [| a l Hl IH Ha]; intros Hb.
  - exists [], []. repeat split; constructor.
  - inversion Hb as [| ? ? Hba Hbl]; subst.
    destruct (Z.eq_dec (snd a) (Z.of_nat (S n))) as [E | E].
    + destruct (IH Hbl) as (high & low & -> & Hh & Hlo & Hs).
      exists (a :: high), low. repeat split; try assumption. now constructor.
    + exists [], (a :: l). repeat split; [constructor | | now constructor].
      constructor; [lia |].
      rewrite Forall_forall in Ha, Hbl |- *. intros e He.
      specialize (Ha e He). specialize (Hbl e He). lia.
Qed.

(** Read group by group from the greatest count down, a table in
    descending order of count is itself. *)
Lemma sorted_in_groups (n : nat) (l : list (str * Z)) :
  StronglySorted (fun a b => snd b <= snd a) l ->
  Forall (fun e => 1 <= snd e <= Z.of_nat n) l ->
  flat_map (fun c => filter (fun e => snd e =? Z.of_nat c) l) (rev (seq 1 n)) = l.
Proof.
  revert l. induction n as [| n IH]; intros l Hs Hb.
  - destruct l as [| e l]; [reflexivity |]. inversion Hb; subst. cbn in *. lia.
  - destruct (sorted_greatest_first n l Hs Hb) as (high & low & -> & Hh & Hlo & Hslo).
    rewrite seq_S, rev_app_distr. cbn [rev app flat_map Nat.add].
    rewrite filter_app.
    rewrite (filter_all _ high), (filter_none _ low).
    + rewrite app_nil_r. f_equal.
      transitivity (flat_map (fun c => filter (fun e => snd e =? Z.of_nat c) low)
                             (rev (seq 1 n))); [| now apply IH].
      apply flat_map_ext_in. intros c Hc.
      apply in_rev, in_seq in Hc. rewrite filter_app, (filter_none _ high); [reflexivity |].
      eapply Forall_impl; [| exact Hh]. cbn. intros e He. apply Z.eqb_neq. lia.
    + eapply Forall_impl; [| exact Hlo]. cbn. intros e He. apply Z.eqb_neq. lia.
    + eapply Forall_impl; [| exact Hh]. cbn. intros e He. now apply Z.eqb_eq.
Qed.

Lemma greatest_count_bound (table : list (str * Z)) (e : str * Z) :
  In e table -> (Z.to_nat (snd e) <= Spec.greatest_count table)%nat.
Proof.
  induction table as [| x table IH]; cbn [In Spec.greatest_count fold_right]; [tauto |].
  intros [-> | H]; [lia |]. specialize (IH H). unfold Spec.greatest_count in IH. lia.
Qed.

(** The stable sort of the code, in reverse, ranks a table of counts as
    the specification describes. *)
Lemma sorted_reverse_ranked (table : list (str * Z)) :
  Forall (fun e => 1 <= snd e) table ->
  sorted_reverse Z.ltb snd table = Spec.ranked table.
Proof.
  intros Hpos. unfold Spec.ranked.
  set (r := sorted_reverse Z.ltb snd table).
  assert (Hs : StronglySorted (fun a b => snd b <= snd a) r).
  { apply StronglySorted_impl with (R := not_smaller Z.ltb snd).
    - intros a b H. unfold not_smaller in H. now apply Z.ltb_ge in H.
    - apply sorted_reverse_sorted with (ordered := fun _ => True);
        [exact Z_ltb_asym | exact Z_ltb_negtrans | apply Forall_forall; auto]. }
  assert (Hb : Forall (fun e => 1 <= snd e <= Z.of_nat (Spec.greatest_count table)) r).
  { eapply Permutation_Forall; [symmetry; apply sorted_reverse_perm |].
    rewrite Forall_forall in Hpos |- *. intros e He.
    pose proof (greatest_count_bound table e He). specialize (Hpos e He). lia. }
  rewrite <- (sorted_in_groups _ r Hs Hb) at 1.
  apply flat_map_ext. intros c.
  rewrite <- !(filter_ext _ _ (tied_count (Z.of_nat c))).
  apply sorted_reverse_tied with (ordered := fun _ => True); [exact Z_ltb_negtrans | exact I].
Qed.

Lemma frequency_table_counts (l : list str) :
  Forall (fun e => 1 <= snd e) (Spec.frequency_table l).
Proof.
  unfold Spec.frequency_table. apply Forall_forall. intros e He.
  apply in_map_iff in He as (w & <- & Hw). cbn [snd].
  apply occurrences_present. now apply (proj1 (first_seen_In _ _)).
Qed.

(** Of words none of which is in [more], the tokens do not depend on
    whether [more] is excluded. *)
Lemma tokens_without (lower : str -> str) (stopwords more : list str) (titles : list str) :
  Forall (fun w => ~ In w more) (flat_map (fun title => Spec.words (lower title)) titles) ->
  Spec.tokens lower (stopwords ++ more) titles = Spec.tokens lower stopwords titles.
Proof.
  unfold Spec.tokens. induction titles as [| t titles IH]; cbn [flat_map]; intros H;
    [reflexivity |].
  apply Forall_app in H as [Ht H]. rewrite (IH H). f_equal.
  apply filter_ext_in. intros w Hw. rewrite Forall_forall in Ht. specialize (Ht w Hw).
  rewrite existsb_app.
  destruct (existsb (str_eqb w) more) eqn:E; [| now rewrite orb_false_r].
  apply existsb_str_eqb_In in E. contradiction.
Qed.

(** The table of the keyword page, for every batch of titles: the page
    excludes the lower-cased base keyword and nothing else. *)
Lemma dashboard_keyword_table (lower : str -> str) (base_keyword : str) (titles : list str) :
  StreamlitApp.top_keywords lower base_keyword titles
    = Spec.keyword_frequencies lower [lower base_keyword] titles.
Proof.
  unfold StreamlitApp.top_keywords, Spec.keyword_frequencies.
  change (@nil (str * Z)) with (Spec.frequency_table []).
  rewrite count_titles_table. cbn [app].
  now rewrite sorted_reverse_ranked by apply frequency_table_counts.
Qed.

(** C10, as amended.  On the keyword page of the dashboard, for every
    batch of titles none of whose words is one of the stopwords "this",
    "that", "with", "from": each title is lower-cased and cut into words
    at whitespace, the words longer than 3 characters other than the
    stopwords and the lower-cased base keyword are counted, and the first
    20 entries of the table are returned in descending order of count,
    entries with equal counts in the order in which their words were first
    seen.  From a title the service keeps the words longer than 3
    characters other than the stopwords.  The words of a text are the
    texts between its whitespace, and the ranking of a table of counts is
    a permutation of it in descending order that keeps the order of the
    table among equal counts. *)
Theorem C10_keyword_frequencies :
  forall (lower : str -> str) (base_keyword : str) (titles : list str),
    (Forall (fun w => ~ In w App.stopwords)
            (flat_map (fun title => Spec.words (lower title)) titles) ->
     StreamlitApp.top_keywords lower base_keyword titles
       = Spec.keyword_frequencies lower (lower base_keyword :: App.stopwords) titles) /\
    (forall title,
       App.title_keywords lower title = Spec.tokens lower App.stopwords [title]) /\
    (forall gaps_words trailing,
       Forall (fun gw => forallb isspace (fst gw) = true /\ snd gw <> [] /\
                         forallb (fun c => negb (isspace c)) (snd gw) = true) gaps_words ->
       Forall (fun gw => fst gw <> []) (tl gaps_words) ->
       forallb isspace trailing = true ->
       Spec.words (Spec.laid_out gaps_words trailing) = map snd gaps_words) /\
    (forall table,
       Forall (fun e => 1 <= snd e) table ->
       Permutation (Spec.ranked table) table /\
       StronglySorted (fun a b => snd b <= snd a) (Spec.ranked table) /\
       forall count,
         filter (fun e => snd e =? count) (Spec.ranked table)
           = filter (fun e => snd e =? count) table).
Proof.
  intros lower base_keyword titles. split; [| split; [| split]].
  - intros H. rewrite dashboard_keyword_table. unfold Spec.keyword_frequencies.
    change (lower base_keyword :: App.stopwords)
      with ([lower base_keyword] ++ App.stopwords).
    now rewrite tokens_without.
  - intros title. unfold App.title_keywords, Spec.tokens. cbn [flat_map].
    now rewrite app_nil_r, split_words.
  - apply words_laid_out.
  - intros table Hpos. rewrite <- (sorted_reverse_ranked table Hpos). split; [| split].
    + apply sorted_reverse_perm.
    + apply StronglySorted_impl with (R := not_smaller Z.ltb snd).
      * intros a b H. unfold not_smaller in H. now apply Z.ltb_ge in H.
      * apply sorted_reverse_sorted with (ordered := fun _ => True);
          [exact Z_ltb_asym | exact Z_ltb_negtrans | apply Forall_forall; auto].
    + intros count. rewrite <- !(filter_ext _ _ (tied_count count)).
      apply sorted_reverse_tied with (ordered := fun _ => True);
        [exact Z_ltb_negtrans | exact I].
Qed.

Lemma C10_keyword_frequencies_witness :
  StreamlitApp.top_keywords Examples.ascii_lower (lit "python")
    [lit "Learn Python fast"; lit "Python basics: learn more"]
    = [(lit "learn", 2); (lit "fast", 1); (lit "basics:", 1); (lit "more", 1)] /\
  Spec.words (lit "  learn   more ") = [lit "learn"; lit "more"].
Proof.
  split.
  - rewrite (proj1 (C10_keyword_frequencies Examples.ascii_lower (lit "python")
                      [lit "Learn Python fast"; lit "Python basics: learn more"])).
    + reflexivity.
    + cbn. repeat constructor; intuition discriminate.
  - apply (proj1 (proj2 (proj2 (C10_keyword_frequencies Examples.ascii_lower [] [])))
             [(lit "  ", lit "learn"); (lit "   ", lit "more")] (lit " ")).
    + repeat constructor; discriminate.
    + repeat constructor; discriminate.
    + reflexivity.
Defined.

(** C10 as stated fails on the dashboard, the surface that counts: the
    base keyword is no stopword, the claim counts it, and the page leaves
    it out. *)
Lemma C10_counterexample :
  Spec.keyword_frequencies Examples.ascii_lower App.stopwords [lit "Python basics"]
    = [(lit "python", 1); (lit "basics", 1)] /\
  StreamlitApp.top_keywords Examples.ascii_lower (lit "python") [lit "Python basics"]
    = [(lit "basics", 1)] /\
  StreamlitApp.top_keywords Examples.ascii_lower (lit "python") [lit "Python basics"]
    <> Spec.keyword_frequencies Examples.ascii_lower App.stopwords [lit "Python basics"].
Proof.
  split; [reflexivity |]. split; [reflexivity |]. discriminate.
Qed.

(** Besides, the page applies no stopword list: it lists a stopword of the
    service that occurs in a title. *)
Lemma dashboard_counts_stopwords :
  StreamlitApp.top_keywords Examples.ascii_lower (lit "python")
    [lit "Cooking with Python from scratch"]
    = [(lit "cooking", 1); (lit "with", 1); (lit "from", 1); (lit "scratch", 1)] /\
  Spec.keyword_frequencies Examples.ascii_lower (Examples.ascii_lower (lit "python")
                                                  :: App.stopwords)
    [lit "Cooking with Python from scratch"]
    = [(lit "cooking", 1); (lit "scratch", 1)].
Proof. split; reflexivity. Qed.







(** ** Rankings *)













(** ** Growth potential *)

Lemma tier_of_score (score : float) :
  (if float_gt_int score 10 then App.High
   else if float_gt_int score 5 then App.Medium else App.Low) = Spec.tier score.
Proof. reflexivity. Qed.

(** The loop of the service computes, channel by channel, the entries that
    the formulas give for the channels with subscribers. *)
Lemma growth_potential_entries (df : list App.ChannelInfo.t) :
  App.growth_potential df = mapM Spec.growth_entry (filter Spec.has_subscribers df).
Proof.
  induction df as [| c df IH]; [reflexivity |].
  cbn [App.growth_potential filter]. unfold Spec.has_subscribers at 1.
  destruct (0 <? App.ChannelInfo.subscriber_count c); [| exact IH].
  cbn [mapM]. rewrite <- IH. unfold Spec.growth_entry, Spec.engagement_score.
  destruct (float_div_int _ _) as [q |]; cbn [bind]; [| reflexivity].
  destruct (float_mul_int q 100) as [score |]; cbn [bind]; [| reflexivity].
  destruct (float_round score 2) as [rounded |]; cbn [bind]; [| reflexivity].
  destruct (App.growth_potential df); reflexivity.
Qed.

Lemma mapM_Forall2 {A B} (f : A -> result B) (l : list A) (r : list B) :
  mapM f l = Ok r -> Forall2 (fun a b => f a = Ok b) l r.
Proof.
  revert r. induction l as [| a l IH]; cbn [mapM]; intros r H.
  - injection H as <-. constructor.
  - destruct (f a) as [b |] eqn:E; [| discriminate].
    destruct (mapM f l) as [bs |]; [| discriminate].
    injection H as <-. constructor; auto.
Qed.

(** C9, as amended.  The growth list is computed entry by entry from the
    channels with a positive subscriber count, in input order, and holds
    no entry for the others; an entry's score is
    (averageViews / subscriberCount) * 100 rounded to 2 decimals, and its
    tier is "High" if the score before rounding is above 10, "Medium" if
    it is above 5, "Low" otherwise. *)
Theorem C9_growth_potential :
  forall (df : list App.ChannelInfo.t),
    App.growth_potential df = mapM Spec.growth_entry (filter Spec.has_subscribers df) /\
    (forall c, In c (filter Spec.has_subscribers df) <->
               In c df /\ 0 < App.ChannelInfo.subscriber_count c) /\
    (forall growth,
       App.growth_potential df = Ok growth ->
       Forall2 (fun c entry =>
                  App.Growth.channel entry = App.ChannelInfo.title c /\
                  exists score,
                    Spec.engagement_score (App.ChannelInfo.average_views c)
                                          (App.ChannelInfo.subscriber_count c) = Ok score /\
                    float_round score 2 = Ok (App.Growth.engagement_score entry) /\
                    App.Growth.rating entry = Spec.tier score)
               (filter Spec.has_subscribers df) growth).
Proof.
  intros df. split; [apply growth_potential_entries | split].
  - intros c. rewrite filter_In. unfold Spec.has_subscribers. now rewrite Z.ltb_lt.
  - intros growth H. rewrite growth_potential_entries in H.
    apply mapM_Forall2 in H.
    induction H as [| c entry cs entries Hentry _ IH]; constructor; [| exact IH].
    unfold Spec.growth_entry in Hentry. steps Hentry. injection Hentry as <-. cbn. eauto.
Qed.

Lemma C9_growth_potential_witness :
  Forall2 (fun c entry =>
             App.Growth.channel entry = App.ChannelInfo.title c /\
             exists score,
               Spec.engagement_score (App.ChannelInfo.average_views c)
                                     (App.ChannelInfo.subscriber_count c) = Ok score /\
               float_round score 2 = Ok (App.Growth.engagement_score entry) /\
               App.Growth.rating entry = Spec.tier score)
          (filter Spec.has_subscribers [Examples.channel "A" 0; Examples.reach_channel])
          [{| App.Growth.channel := lit "Title";
              App.Growth.engagement_score := S754_finite false 5629499534213120 (-49);
              App.Growth.rating := App.High |}].
Proof.
  apply (proj2 (proj2 (C9_growth_potential
                         [Examples.channel "A" 0; Examples.reach_channel]))).
  vm_compute. reflexivity.
Defined.

(** The record of the counterexample is what the channel endpoint returns
    for 10004 views, 1 video and 100000 subscribers. *)
Lemma reach_channel_from_service :
  App.analyze_channel (Some (Examples.client [Examples.channel_item "10004" "1" "100000" []]))
                      (lit "UC1")
    = Ok Examples.reach_channel.
Proof. vm_compute. reflexivity. Qed.

(** C9 as stated fails on the tier: for 100000 subscribers and an average
    of 10004 views the score before rounding is above 10 (10.004...) and
    the entry is rated "High", while its reported score, rounded to 2
    decimals, is 10.0, which is not above 10. *)
Lemma C9_counterexample :
  exists entry,
    App.growth_potential [Examples.reach_channel] = Ok [entry] /\
    Spec.engagement_score (App.ChannelInfo.average_views Examples.reach_channel) 100000
      = Ok (S754_finite false 5631751334026805 (-49)) /\
    App.Growth.engagement_score entry = S754_finite false 5629499534213120 (-49) /\
    float_gt_int (App.Growth.engagement_score entry) 10 = false /\
    App.Growth.rating entry = App.High /\
    Spec.tier (App.Growth.engagement_score entry) <> App.High.
Proof.
  eexists. split; [vm_compute; reflexivity |].
  repeat split; try (vm_compute; reflexivity). vm_compute. discriminate.
Qed.

(** ** The averages of the service are numbers

    Rounding a non-negative mantissa never gives a NaN, so the average
    that [analyze_channel] stores is not a NaN, as the rankings assume of
    their input. *)











(** ** The comparison endpoint as a whole *)


Lemma mapM_length {A B} {f : A -> result B} {l : list A} {r : list B} :
  mapM f l = Ok r -> List.length r = List.length l.
Proof. intros H. apply mapM_Forall2 in H. symmetry. exact (Forall2_length H). Qed.




(** ** Values of the float model *)

(** [1 / 3] is 0x3FD5555555555555. *)
Example one_third :
  int_truediv 1 3 = Ok (S754_finite false 6004799503160661 (-54)).
Proof. reflexivity. Qed.

(** [round(0.125, 2) == 0.12]: a tie goes to the even digit. *)
Example round_tie : bind (int_truediv 1 8) (fun x => float_round x 2) = int_truediv 12 100.
Proof. reflexivity. Qed.

(** [round(2.675, 2) == 2.67]: the double below 2.675 is rounded down. *)
Example round_binary_value :
  bind (int_truediv 2675 1000) (fun x => float_round x 2) = int_truediv 267 100.
Proof. reflexivity. Qed.

(** [round(2.5, 0) == 2.0] and [round(3.5, 0) == 4.0] *)
Example round_half_to_even :
  bind (int_truediv 5 2) (fun x => float_round x 0) = float_of_int 2 /\
  bind (int_truediv 7 2) (fun x => float_round x 0) = float_of_int 4.
Proof. split; reflexivity. Qed.

(** [int("  -1_000 ") == -1000]; [int("12a")] is a [ValueError]. *)
Example int_of_text :
  int (VStr (lit "  -1_000 ")) = Ok (-1000) /\ int (VStr (lit "12a")) = Raise ValueError.
Proof. split; reflexivity. Qed.

(** The specification's example: 1000 subscribers, 10 videos and 100000
    views give the average 10000, the score 1000.0 and the tier "High". *)
Example growth_of_the_specification :
  exists info,
    App.analyze_channel
      (Some (Examples.client [Examples.channel_item "100000" "10" "1000" []])) (lit "UC1")
      = Ok info /\
    Ok (App.ChannelInfo.average_views info) = float_of_int 10000 /\
    exists score,
      float_of_int 1000 = Ok score /\
      App.growth_potential [info]
        = Ok [{| App.Growth.channel := lit "Title";
                 App.Growth.engagement_score := score;
                 App.Growth.rating := App.High |}].
Proof.
  eexists. split; [vm_compute; reflexivity |]. split; [reflexivity |].
  eexists. split; vm_compute; reflexivity.
Qed.

(** * Further properties of the two programs *)

(** ** Which exceptions a computation can end in *)

Lemma raises_only_bind {A B} (P : exn -> Prop) (m : result A) (k : A -> result B) :
  raises_only P m ->
  (forall a, m = Ok a -> raises_only P (k a)) ->
  raises_only P (bind m k).
Proof.
  intros Hm Hk e H.
  destruct (bind_Raise_inv H) as [E | [a [E E']]]; [eauto | eapply Hk; eauto].
Qed.

Lemma raises_only_Ok {A} (P : exn -> Prop) (a : A) : raises_only P (Ok a).
Proof. intros e H. discriminate. Qed.

Lemma raises_only_Raise {A} (P : exn -> Prop) (e : exn) : P e -> raises_only P (@Raise A e).
Proof. intros He e' [= <-]. exact He. Qed.

Lemma raises_only_mapM {A B} (P : exn -> Prop) (f : A -> result B) (l : list A) :
  (forall a, raises_only P (f a)) -> raises_only P (mapM f l).
Proof.
  intros Hf. induction l as [| a l IH]; cbn [mapM]; [apply raises_only_Ok |].
  intros e H. destruct (f a) as [b |] eqn:E.
  - destruct (mapM f l) as [bs |] eqn:E'; [discriminate |].
    apply IH. congruence.
  - apply (Hf a). congruence.
Qed.

(** Case analysis on a primitive that raises a fixed exception. *)
Ltac raises_internal :=
  intros; unfold raises_only, internal;
  let e := fresh "e" in
  let H := fresh "H" in
  intros e H;
  repeat match type of H with
         | context [match ?x with _ => _ end] => destruct x
         end;
  try discriminate H; injection H as <-; reflexivity.

Lemma getitem_internal v k : raises_only internal (getitem v k).
Proof. unfold getitem. raises_internal. Qed.

Lemma getfirst_internal v : raises_only internal (getfirst v).
Proof. unfold getfirst. raises_internal. Qed.

Lemma get_internal v k d : raises_only internal (get v k d).
Proof. unfold get. raises_internal. Qed.

Lemma contains_internal k v : raises_only internal (contains k v).
Proof. unfold contains. raises_internal. Qed.

Lemma iterate_internal v : raises_only internal (iterate v).
Proof. unfold iterate. raises_internal. Qed.

Lemma int_internal v : raises_only internal (int v).
Proof. unfold int, int_of_float, int_of_str. raises_internal. Qed.

Lemma slice_to_internal v n : raises_only internal (slice_to v n).
Proof. unfold slice_to. raises_internal. Qed.

Lemma add_str_internal v s : raises_only internal (add_str v s).
Proof. unfold add_str. raises_internal. Qed.

Lemma as_str_internal v : raises_only internal (as_str v).
Proof. unfold as_str. raises_internal. Qed.

Lemma float_of_int_internal n : raises_only internal (float_of_int n).
Proof. unfold float_of_int. raises_internal. Qed.

Lemma as_float_internal v : raises_only internal (as_float v).
Proof. destruct v; cbn [as_float]; [apply float_of_int_internal | apply raises_only_Ok]. Qed.

Lemma int_truediv_internal a b : raises_only internal (int_truediv a b).
Proof. unfold int_truediv. raises_internal. Qed.

Lemma float_round_internal x n : raises_only internal (float_round x n).
Proof. unfold float_round. raises_internal. Qed.

Lemma round_internal v n : raises_only internal (round v n).
Proof.
  destruct v; cbn [round]; [apply raises_only_Ok |].
  apply raises_only_bind; [apply float_round_internal | intros; apply raises_only_Ok].
Qed.

Lemma float_mul_int_internal x k : raises_only internal (float_mul_int x k).
Proof.
  unfold float_mul_int.
  apply raises_only_bind; [apply float_of_int_internal | intros; apply raises_only_Ok].
Qed.

Lemma join_internal sep l : raises_only internal (join sep l).
Proof.
  induction l as [| v l IH]; cbn [join]; [apply raises_only_Ok |].
  destruct v; try (apply raises_only_Raise; reflexivity).
  destruct l as [| v' l']; [apply raises_only_Ok |].
  apply raises_only_bind; [exact IH | intros; apply raises_only_Ok].
Qed.

Create HintDb internal.

#[local] Hint Resolve getitem_internal getfirst_internal get_internal contains_internal
  iterate_internal int_internal slice_to_internal add_str_internal as_str_internal
  float_of_int_internal as_float_internal int_truediv_internal float_round_internal
  round_internal float_mul_int_internal join_internal : internal.

(** Walks down a sequence of steps each of which raises internal
    exceptions only. *)
Ltac internal_steps :=
  repeat first
    [ apply raises_only_bind; [ | intros ? ? ]
    | apply raises_only_Ok
    | apply raises_only_mapM; intros ?
    | solve [ auto with internal ]
    | solve [ apply raises_only_Raise; reflexivity ]
    | match goal with
      | |- raises_only _ (if ?c then _ else _) => destruct c eqn:?
      end ].

Lemma int_field_internal stats field default :
  raises_only internal (App.int_field stats field default).
Proof. unfold App.int_field. internal_steps. Qed.

Lemma high_thumbnail_internal snippet : raises_only internal (App.high_thumbnail snippet).
Proof. unfold App.high_thumbnail. internal_steps. Qed.

Lemma engagement_rate_of_internal v l c :
  raises_only internal (App.engagement_rate_of v l c).
Proof. unfold App.engagement_rate_of. internal_steps. Qed.

Lemma average_views_of_internal v n : raises_only internal (App.average_views_of v n).
Proof. unfold App.average_views_of. internal_steps. Qed.

#[local] Hint Resolve int_field_internal high_thumbnail_internal
  engagement_rate_of_internal average_views_of_internal : internal.

Lemma video_info_of_item_internal item :
  raises_only internal (App.video_info_of_item item).
Proof. unfold App.video_info_of_item, App.video_description. internal_steps. Qed.

Lemma video_analysis_of_item_internal yt id item :
  raises_only internal (App.video_analysis_of_item yt id item).
Proof.
  unfold App.video_analysis_of_item, App.analysis_engagement_rate. internal_steps.
Qed.

Lemma channel_info_of_item_internal id item :
  raises_only internal (App.channel_info_of_item id item).
Proof. unfold App.channel_info_of_item, App.channel_description. internal_steps. Qed.

Lemma trending_video_of_item_internal item :
  raises_only internal (App.trending_video_of_item item).
Proof. unfold App.trending_video_of_item. internal_steps. Qed.

#[local] Hint Resolve video_info_of_item_internal video_analysis_of_item_internal
  channel_info_of_item_internal trending_video_of_item_internal : internal.

(** ** The statuses of the service *)

(** An [HttpError] of the first request of an endpoint reaches the caller
    with the status of the platform. *)
Theorem upstream_status_is_passed_on :
  forall (yt : Api.client) (status : Z),
    (forall keyword max_results order,
       yt (Api.SearchList keyword max_results (Some order)) = Raise (HttpError status) ->
       App.search_videos (Some yt) keyword max_results order
         = Raise (HTTPException status (DetailStr (HttpError status)))) /\
    (forall video_id,
       yt (Api.VideosList (lit "statistics,contentDetails,snippet") video_id)
         = Raise (HttpError status) ->
       App.analyze_video (Some yt) video_id
         = Raise (HTTPException status (DetailStr (HttpError status)))) /\
    (forall channel_id,
       yt (Api.ChannelsList (lit "statistics,snippet,contentDetails") channel_id)
         = Raise (HttpError status) ->
       App.analyze_channel (Some yt) channel_id
         = Raise (HTTPException status (DetailStr (HttpError status)))) /\
    (forall region category max_results,
       yt (Api.VideosMostPopular region
             (if str_eqb category (lit "0") then None else Some category) max_results)
         = Raise (HttpError status) ->
       App.get_trending_videos (Some yt) region category max_results
         = Raise (HTTPException status (DetailStr (HttpError status)))).
Proof.
  intros yt status. split; [| split; [| split]].
  - intros keyword max_results order H. unfold App.search_videos. now rewrite H.
  - intros video_id H. unfold App.analyze_video. now rewrite H.
  - intros channel_id H. unfold App.analyze_channel. now rewrite H.
  - intros region category max_results H. unfold App.get_trending_videos.
    destruct (str_eqb category (lit "0")); cbn [negb]; now rewrite H.
Qed.

Lemma upstream_status_is_passed_on_witness :
  App.analyze_video (Some (Examples.failing_client (HttpError 403))) (lit "v1")
    = Raise (HTTPException 403 (DetailStr (HttpError 403))) /\
  App.get_trending_videos (Some (Examples.unknown_category_client (lit "99")))
                          (lit "JP") (lit "99") 10
    = Raise (HTTPException 400 (DetailStr (HttpError 400))).
Proof.
  split.
  - exact (proj1 (proj2 (upstream_status_is_passed_on
                           (Examples.failing_client (HttpError 403)) 403))
                 (lit "v1") eq_refl).
  - exact (proj2 (proj2 (proj2 (upstream_status_is_passed_on
                                  (Examples.unknown_category_client (lit "99")) 400)))
                 (lit "JP") (lit "99") 10 eq_refl).
Defined.

(** The handlers of an endpoint report the internal exception that its
    [try] block raised, with status 500. *)
Lemma try_except_reported {A} (body : result A) :
  raises_only internal body -> try_except body App.http_errors = App.reported body.
Proof.
  intros Hbody. destruct body as [a | e]; [reflexivity |].
  pose proof (Hbody e eq_refl) as Hint. destruct e; try reflexivity. discriminate Hint.
Qed.

(** With a client that raises no [HttpError], each of the four endpoints
    that read one batch returns what its [try] block returns, and when
    the block raises (a missing key, a value of the wrong type, a failed
    validation, the 404 of an empty result) the endpoint fails with status
    500 and the exception of the block as detail. *)
Theorem internal_failures_have_status_500 :
  forall (yt : Api.client),
    (forall request, raises_only internal (yt request)) ->
    (forall keyword max_results order,
       App.search_videos (Some yt) keyword max_results order
         = App.reported (App.search_videos_try yt keyword max_results order)) /\
    (forall video_id,
       App.analyze_video (Some yt) video_id
         = App.reported (App.analyze_video_try yt video_id)) /\
    (forall channel_id,
       App.analyze_channel (Some yt) channel_id
         = App.reported (App.analyze_channel_try yt channel_id)) /\
    (forall region category max_results,
       App.get_trending_videos (Some yt) region category max_results
         = App.reported (App.get_trending_videos_try yt region category max_results)).
Proof.
  intros yt Hyt. split; [| split; [| split]].
  - intros keyword max_results order.
    change (App.search_videos (Some yt) keyword max_results order)
      with (try_except (App.search_videos_try yt keyword max_results order) App.http_errors).
    apply try_except_reported. unfold App.search_videos_try. internal_steps; apply Hyt.
  - intros video_id.
    change (App.analyze_video (Some yt) video_id)
      with (try_except (App.analyze_video_try yt video_id) App.http_errors).
    apply try_except_reported. unfold App.analyze_video_try. internal_steps; apply Hyt.
  - intros channel_id.
    change (App.analyze_channel (Some yt) channel_id)
      with (try_except (App.analyze_channel_try yt channel_id) App.http_errors).
    apply try_except_reported. unfold App.analyze_channel_try. internal_steps; apply Hyt.
  - intros region category max_results.
    change (App.get_trending_videos (Some yt) region category max_results)
      with (try_except (App.get_trending_videos_try yt region category max_results)
                       App.http_errors).
    apply try_except_reported. unfold App.get_trending_videos_try. cbv zeta.
    internal_steps; apply Hyt.
Qed.

Lemma broken_client_is_internal :
  forall request, raises_only internal (Examples.broken_client request).
Proof. intros request e H. discriminate. Qed.

Lemma internal_failures_have_status_500_witness :
  App.analyze_video (Some Examples.broken_client) (lit "v1")
    = Raise (HTTPException 500 (DetailStr TypeError)) /\
  App.analyze_channel (Some (Examples.answering_client [])) (lit "UC1")
    = Raise (HTTPException 500
               (DetailStr (HTTPException 404 (Detail ChannelNotFound)))).
Proof.
  split.
  - rewrite (proj1 (proj2 (internal_failures_have_status_500
                             Examples.broken_client broken_client_is_internal))).
    reflexivity.
  - rewrite (proj1 (proj2 (proj2 (internal_failures_have_status_500
                                    (Examples.answering_client [])
                                    (fun request e H => ltac:(discriminate H)))))).
    reflexivity.
Defined.

Lemma mapM_first_failure {A B} (f : A -> result B) (before after : list A) (a : A) (e : exn) :
  Forall (fun b => exists y, f b = Ok y) before ->
  f a = Raise e ->
  mapM f (before ++ a :: after) = Raise e.
Proof.
  intros Hbefore Ha. induction Hbefore as [| b before [y Hb] _ IH]; cbn [app mapM].
  - now rewrite Ha.
  - now rewrite Hb, IH.
Qed.

(** The comparison endpoint answers a list of more than 5 ids with status
    400 whatever the client does, an empty list with status 500, and every
    other failure with status 500 as well. *)
Theorem compare_channels_statuses :
  forall (pd : Pandas.backend) (yt : Api.client) (channel_ids : list str),
    (5 < len channel_ids ->
     App.compare_channels pd (Some yt) channel_ids
       = Raise (HTTPException 400 (Detail TooManyChannels))) /\
    (len channel_ids <= 5 ->
     forall e, App.compare_channels pd (Some yt) channel_ids = Raise e ->
               exists cause, e = HTTPException 500 (DetailStr cause)) /\
    App.compare_channels pd (Some yt) []
      = Raise (HTTPException 500 (DetailStr (KeyError (KStr (lit "subscriber_count"))))).
Proof.
  intros pd yt channel_ids. unfold App.compare_channels. split; [| split].
  - intros H. apply Z.ltb_lt in H. now rewrite H.
  - intros H e. apply Z.ltb_ge in H. rewrite H. unfold try_except.
    match goal with
    | |- match ?body with _ => _ end = _ -> _ => destruct body
    end; [discriminate | intros [= <-]; eauto].
  - reflexivity.
Qed.

Lemma compare_channels_statuses_witness :
  App.compare_channels Examples.stable_backend (Some Examples.broken_client)
    [lit "a"; lit "b"; lit "c"; lit "d"; lit "e"; lit "f"]
    = Raise (HTTPException 400 (Detail TooManyChannels)) /\
  exists cause,
    HTTPException 500 (DetailStr (HTTPException 500 (DetailStr TypeError)))
      = HTTPException 500 (DetailStr cause).
Proof.
  split.
  - apply (proj1 (compare_channels_statuses Examples.stable_backend Examples.broken_client
                    [lit "a"; lit "b"; lit "c"; lit "d"; lit "e"; lit "f"])).
    reflexivity.
  - apply (proj1 (proj2 (compare_channels_statuses Examples.stable_backend
                           Examples.broken_client [lit "a"]))).
    + cbv. discriminate.
    + reflexivity.
Defined.

(** The comparison of the service is all or nothing: the first channel
    whose lookup fails fails the whole request, with status 500 and that
    failure as cause, whatever its own status was. *)
Theorem compare_channels_first_failure :
  forall (pd : Pandas.backend) (yt : Api.client) (before after : list str)
         (channel_id : str) (e : exn),
    len (before ++ channel_id :: after) <= 5 ->
    Forall (fun b => exists info, App.analyze_channel (Some yt) b = Ok info) before ->
    App.analyze_channel (Some yt) channel_id = Raise e ->
    App.compare_channels pd (Some yt) (before ++ channel_id :: after)
      = Raise (HTTPException 500 (DetailStr e)).
Proof.
  intros pd yt before after channel_id e Hlen Hbefore He.
  unfold App.compare_channels. apply Z.ltb_ge in Hlen. rewrite Hlen.
  rewrite (mapM_first_failure _ _ after _ _ Hbefore He). reflexivity.
Qed.

Lemma compare_channels_first_failure_witness :
  App.compare_channels Examples.stable_backend
    (Some (Examples.failing_client (HttpError 403))) [lit "UC1"; lit "UC2"]
    = Raise (HTTPException 500
               (DetailStr (HTTPException 403 (DetailStr (HttpError 403))))).
Proof.
  apply (@compare_channels_first_failure Examples.stable_backend
           (Examples.failing_client (HttpError 403)) [] [lit "UC2"] (lit "UC1")).
  - cbv. discriminate.
  - constructor.
  - reflexivity.
Defined.

(** ** Single-video analysis: comments, tags and defaults *)

Lemma video_analysis_without_comments (yt yt' : Api.client) (video_id : str) (item : value) :
  result_map App.without_comments (App.video_analysis_of_item yt video_id item)
    = result_map App.without_comments (App.video_analysis_of_item yt' video_id item).
Proof.
  unfold App.video_analysis_of_item, result_map.
  repeat match goal with
         | |- context [bind ?m _] =>
             lazymatch m with
             | bind _ _ => fail
             | _ => destruct m; cbn [bind]; try reflexivity
             end
         end.
Qed.

(** Whatever becomes of the request for the comments, the analysis of a
    video is the same apart from its comments: two clients that answer the
    lookup of the video alike give the same analysis, or the same failure. *)
Theorem comments_never_change_the_analysis :
  forall (yt yt' : Api.client) (video_id : str),
    yt (Api.VideosList (lit "statistics,contentDetails,snippet") video_id)
      = yt' (Api.VideosList (lit "statistics,contentDetails,snippet") video_id) ->
    result_map App.without_comments (App.analyze_video (Some yt) video_id)
      = result_map App.without_comments (App.analyze_video (Some yt') video_id).
Proof.
  intros yt yt' video_id H. unfold App.analyze_video. rewrite <- H.
  destruct (yt _) as [response | e]; [| reflexivity]. cbn [bind].
  destruct (getitem response (lit "items")) as [items | e]; [| reflexivity]. cbn [bind].
  destruct (negb (truthy items)); [reflexivity |].
  destruct (getfirst items) as [item | e]; [| reflexivity]. cbn [bind].
  pose proof (video_analysis_without_comments yt yt' video_id item) as Hitem.
  destruct (App.video_analysis_of_item yt video_id item),
           (App.video_analysis_of_item yt' video_id item);
    cbn in Hitem |- *; congruence.
Qed.

Lemma comments_never_change_the_analysis_witness :
  result_map App.without_comments
    (App.analyze_video
       (Some (Examples.commented_client [Examples.video_item "200" "3" "1" []]
                                        [Examples.full_comment]))
       (lit "v1"))
  = result_map App.without_comments
      (App.analyze_video
         (Some (Examples.client [Examples.video_item "200" "3" "1" []])) (lit "v1")).
Proof.
  apply comments_never_change_the_analysis. reflexivity.
Defined.



(** What the analysis reports for the keys that a video lacks: no dislike
    count is 0 dislikes, no tags is an empty list, no caption flag is the
    text "false"; of the tags that a video has, the first 10 are kept. *)
Theorem analysis_defaults :
  forall (yt : Api.client) (video_id : str) (item stats snippet details : dict value)
         (a : App.VideoAnalysis.t),
    lookup (lit "statistics") item = Some (VDict stats) ->
    lookup (lit "snippet") item = Some (VDict snippet) ->
    lookup (lit "contentDetails") item = Some (VDict details) ->
    App.video_analysis_of_item yt video_id (VDict item) = Ok a ->
    (lookup (lit "dislikeCount") stats = None -> App.VideoAnalysis.dislike_count a = 0) /\
    (lookup (lit "tags") snippet = None -> App.VideoAnalysis.tags a = VList []) /\
    (forall tags, lookup (lit "tags") snippet = Some (VList tags) ->
                  App.VideoAnalysis.tags a = VList (firstn 10 tags)) /\
    (lookup (lit "caption") details = None ->
     App.VideoAnalysis.caption a = VStr (lit "false")).
Proof.
  intros yt video_id item stats snippet details a Hs Hn Hd H.
  unfold App.video_analysis_of_item in H. cbn [getitem] in H.
  rewrite Hs, Hn, Hd in H. cbn [bind] in H. steps H. injection H as <-.
  cbn [App.VideoAnalysis.dislike_count App.VideoAnalysis.tags App.VideoAnalysis.caption].
  repeat split.
  - intros Hk.
    match goal with
    | E : App.int_field _ (lit "dislikeCount") 0 = Ok _ |- _ =>
        unfold App.int_field in E; cbn [get] in E; rewrite Hk in E; cbn in E; congruence
    end.
  - intros Hk.
    match goal with
    | E : get (VDict snippet) (lit "tags") _ = Ok ?t, E' : slice_to ?t 10 = Ok _ |- _ =>
        cbn [get] in E; rewrite Hk in E; injection E as E; subst t;
        cbn in E'; congruence
    end.
  - intros tags Hk.
    match goal with
    | E : get (VDict snippet) (lit "tags") _ = Ok ?t, E' : slice_to ?t 10 = Ok _ |- _ =>
        cbn [get] in E; rewrite Hk in E; injection E as E; subst t;
        cbn [slice_to] in E'; congruence
    end.
  - intros Hk.
    match goal with
    | E : get (VDict details) (lit "caption") _ = Ok _ |- _ =>
        cbn [get] in E; rewrite Hk in E; congruence
    end.
Qed.

Lemma analysis_defaults_witness :
  exists a,
    App.video_analysis_of_item Examples.broken_client (lit "v1")
      (Examples.video_item "200" "3" "1" []) = Ok a /\
    App.VideoAnalysis.dislike_count a = 0 /\
    App.VideoAnalysis.tags a = VList [] /\
    App.VideoAnalysis.caption a = VStr (lit "false").
Proof.
  eexists. split; [reflexivity |].
  destruct (analysis_defaults Examples.broken_client (lit "v1")
              [(lit "id", VStr (lit "v1"));
               (lit "statistics", Examples.video_statistics "200" "3" "1");
               (lit "snippet", Examples.snippet [] "high");
               (lit "contentDetails", Examples.content_details)]
              [(lit "viewCount", VStr (lit "200"));
               (lit "likeCount", VStr (lit "3"));
               (lit "commentCount", VStr (lit "1"))]
              (Examples.snippet_fields [] "high")
              [(lit "duration", VStr (lit "PT1M")); (lit "definition", VStr (lit "hd"))]
              _ eq_refl eq_refl eq_refl eq_refl) as [H1 [H2 [_ H4]]].
  split; [apply H1 | split; [apply H2 | apply H4]]; reflexivity.
Defined.

(** ** Batches of records: search and trending *)

(** An endpoint that answers has run its body to the end. *)
Lemma try_except_Ok {A} (body : result A) (a : A) :
  try_except body App.http_errors = Ok a -> body = Ok a.
Proof.
  destruct body as [x | e]; cbn [try_except]; [auto |]. destruct e; discriminate.
Qed.

(** The trending endpoint echoes the region it was asked for, counts the
    videos that it returns, and returns one video for each item of the
    one response that it reads, in the order of the response; the request
    carries a category unless the category is "0". *)
Theorem trending_lists_the_response :
  forall (yt : Api.client) (region category : str) (max_results : Z) (t : App.Trending.t),
    App.get_trending_videos (Some yt) region category max_results = Ok t ->
    App.Trending.region t = region /\
    App.Trending.total t = len (App.Trending.videos t) /\
    exists response listed items,
      yt (Api.VideosMostPopular region
            (if str_eqb category (lit "0") then None else Some category) max_results)
        = Ok response /\
      getitem response (lit "items") = Ok listed /\
      iterate listed = Ok items /\
      Forall2 (fun item video => App.trending_video_of_item item = Ok video)
              items (App.Trending.videos t) /\
      App.Trending.total t = len items.
Proof.
  intros yt region category max_results t H.
  unfold App.get_trending_videos in H. apply try_except_Ok in H. cbv zeta in H.
  steps H. injection H as <-. cbn [App.Trending.region App.Trending.total App.Trending.videos].
  split; [reflexivity |]. split; [reflexivity |].
  match goal with
  | Hm : mapM _ _ = Ok _ |- _ =>
      pose proof (mapM_length Hm) as Hlen; apply mapM_Forall2 in Hm
  end.
  do 3 eexists. repeat split; try eassumption.
  - destruct (str_eqb category (lit "0")); cbn [negb] in *; eassumption.
  - unfold len. now rewrite Hlen.
Qed.

Lemma trending_lists_the_response_witness :
  exists t,
    App.get_trending_videos
      (Some (Examples.answering_client [Examples.video_item "200" "3" "1" []]))
      (lit "JP") (lit "0") 10 = Ok t /\
    App.Trending.region t = lit "JP" /\
    App.Trending.total t = len (App.Trending.videos t).
Proof.
  eexists. split; [reflexivity |].
  split;
    [ apply (proj1 (trending_lists_the_response
                      (Examples.answering_client [Examples.video_item "200" "3" "1" []])
                      (lit "JP") (lit "0") 10 _ eq_refl))
    | apply (proj1 (proj2 (trending_lists_the_response
                      (Examples.answering_client [Examples.video_item "200" "3" "1" []])
                      (lit "JP") (lit "0") 10 _ eq_refl))) ].
Defined.

Lemma video_info_keeps_the_id (item : value) (r : App.VideoInfo.t) :
  App.video_info_of_item item = Ok r ->
  getitem item (lit "id") = Ok (VStr (App.VideoInfo.video_id r)).
Proof.
  intros H. unfold App.video_info_of_item in H. steps H. injection H as <-.
  cbn [App.VideoInfo.video_id].
  repeat match goal with
         | E : as_str ?v = Ok _ |- _ =>
             destruct v; try discriminate E; cbn [as_str] in E; injection E as <-
         end.
  assumption.
Qed.

(** A search that answers has sent two requests: the search itself and one
    lookup whose [id] is the ids of the hits joined with commas.  Its
    records are those of the items of the second response, one each and in
    that order, and each record has the id of its item. *)
Theorem search_answers_from_the_details :
  forall (yt : Api.client) (keyword : str) (max_results : Z) (order : str)
         (records : list App.VideoInfo.t),
    App.search_videos (Some yt) keyword max_results order = Ok records ->
    exists found hits video_ids ids details listed items,
      yt (Api.SearchList keyword max_results (Some order)) = Ok found /\
      getitem found (lit "items") = Ok hits /\
      (hits <- iterate hits ;;
       mapM (fun hit => id <- getitem hit (lit "id") ;; getitem id (lit "videoId")) hits)
        = Ok video_ids /\
      join (lit ",") video_ids = Ok ids /\
      yt (Api.VideosList (lit "statistics,contentDetails,snippet") ids) = Ok details /\
      getitem details (lit "items") = Ok listed /\
      iterate listed = Ok items /\
      len records = len items /\
      Forall2 (fun item r => App.video_info_of_item item = Ok r /\
                             getitem item (lit "id") = Ok (VStr (App.VideoInfo.video_id r)))
              items records.
Proof.
  intros yt keyword max_results order records H.
  unfold App.search_videos in H. apply try_except_Ok in H. steps H.
  pose proof (mapM_length H) as Hlen. apply mapM_Forall2 in H.
  do 7 eexists.
  split; [eassumption |]. split; [eassumption |].
  split; [match goal with E : iterate _ = Ok _ |- _ => rewrite E end; cbn [bind]; eassumption |].
  split; [eassumption |]. split; [eassumption |]. split; [eassumption |].
  split; [eassumption |]. split; [unfold len; now rewrite Hlen |].
  eapply Forall2_impl; [| exact H].
  intros item r Hr. split; [exact Hr | now apply video_info_keeps_the_id].
Qed.

Lemma search_answers_from_the_details_witness :
  exists (records : list App.VideoInfo.t) (items : list value),
    App.search_videos (Some (Examples.client [Examples.video_item "200" "3" "1" []]))
                      (lit "python") 10 (lit "relevance") = Ok records /\
    len records = len items.
Proof.
  eexists.
  destruct (search_answers_from_the_details
              (Examples.client [Examples.video_item "200" "3" "1" []])
              (lit "python") 10 (lit "relevance") _ eq_refl)
    as (_ & _ & _ & _ & _ & _ & items & _ & _ & _ & _ & _ & _ & _ & Hlen & _).
  exists items. split; [reflexivity | exact Hlen].
Defined.

(** ** Start-up *)

(** [initialize_youtube_api] reports success exactly when it has set the
    client; without a key, or with an empty one, it does not call the
    constructor and fails; and after a failure the search answers with
    its test record while the other endpoints are unavailable. *)
Theorem initialization_decides_availability :
  forall (api_key : option str) (build : str -> result Api.client),
    let youtube := fst (App.initialize_youtube_api api_key build) in
    let ok := snd (App.initialize_youtube_api api_key build) in
    (ok = true <-> exists key client, api_key = Some key /\ key <> [] /\
                                      build key = Ok client /\ youtube = Some client) /\
    (ok = false <-> youtube = None) /\
    (ok = false ->
     forall pd keyword max_results order id ids region category,
       App.search_videos youtube keyword max_results order = Ok [App.test_video] /\
       App.analyze_video youtube id = Raise (HTTPException 503 (Detail ApiUnavailable)) /\
       App.analyze_channel youtube id = Raise (HTTPException 503 (Detail ApiUnavailable)) /\
       App.get_trending_videos youtube region category max_results
         = Raise (HTTPException 503 (Detail ApiUnavailable)) /\
       App.compare_channels pd youtube ids
         = Raise (HTTPException 503 (Detail ApiUnavailable))).
Proof.
  intros api_key build. unfold App.initialize_youtube_api.
  destruct api_key as [[| c key] |]; cbn [fst snd].
  - split; [split; [discriminate | intros (k & cl & [= <-] & Hk & _); congruence] |].
    split; [tauto |]. intros _ *. repeat split.
  - destruct (build (c :: key)) as [client | e] eqn:E; cbn [fst snd].
    + split; [split; [intros _; exists (c :: key), client; repeat split; congruence
                     | reflexivity] |].
      split; [split; discriminate | discriminate].
    + split; [split; [discriminate | intros (k & cl & [= <-] & _ & Hb & _); congruence] |].
      split; [tauto |]. intros _ *. repeat split.
  - split; [split; [discriminate | intros (k & cl & Hk & _); discriminate] |].
    split; [tauto |]. intros _ *. repeat split.
Qed.

Lemma initialization_decides_availability_witness :
  App.search_videos
    (fst (App.initialize_youtube_api (Some (lit "key")) (fun _ => Raise TransportError)))
    (lit "python") 10 (lit "relevance") = Ok [App.test_video] /\
  App.analyze_video
    (fst (App.initialize_youtube_api (Some (lit "key")) (fun _ => Raise TransportError)))
    (lit "v1") = Raise (HTTPException 503 (Detail ApiUnavailable)).
Proof.
  destruct (proj2 (proj2 (initialization_decides_availability
                            (Some (lit "key")) (fun _ => Raise TransportError)))
                  eq_refl Examples.stable_backend (lit "python") 10 (lit "relevance")
                  (lit "v1") [] (lit "JP") (lit "0"))
    as (H1 & H2 & _).
  split; [exact H1 | exact H2].
Defined.

(** ** The dashboard: what is shown and what is returned *)

Lemma iterate_truthy (v : value) (l : list value) :
  truthy v = true -> iterate v = Ok l -> l <> [].
Proof.
  destruct v as [| b | n | x | s | l' | d]; cbn [iterate truthy]; intros Ht H;
    try discriminate H; injection H as <-.
  - destruct s; [discriminate | discriminate].
  - destruct l'; [discriminate | discriminate].
  - destruct d; [discriminate | discriminate].
Qed.

(** A response that passes the check for items holds an [items] value
    that is true. *)
Lemma no_items_false (response : value) :
  StreamlitApp.no_items response = Ok false ->
  exists listed, getitem response (lit "items") = Ok listed /\ truthy listed = true.
Proof.
  unfold StreamlitApp.no_items. intros H. steps H.
  match goal with
  | b : bool |- _ => destruct b; cbn [negb] in H; [| discriminate H]
  end.
  steps H. injection H as H. apply negb_false_iff in H. eauto.
Qed.

Lemma shown_failure {A} (empty : A) (e : exn) :
  exists n, StreamlitApp.shown empty (Raise e) = ([n], empty).
Proof. destruct e; cbn [StreamlitApp.shown]; eauto. Qed.

(** The search of the dashboard ends in one of two ways: rows and nothing
    shown, or no row and exactly one notice. *)
Theorem dashboard_search_rows_or_one_notice :
  forall (youtube : option Api.client) (keyword : str) (max_results : Z) (order : str),
    let outcome := StreamlitApp.search_videos youtube keyword max_results order in
    (fst outcome = [] /\ snd outcome <> []) \/
    (exists n, fst outcome = [n] /\ snd outcome = []).
Proof.
  intros youtube keyword max_results order. cbv zeta.
  unfold StreamlitApp.search_videos.
  destruct youtube as [yt |]; [| right; eexists; split; reflexivity].
  match goal with
  | |- context [StreamlitApp.shown _ ?body] => destruct body as [[notices rows] | e] eqn:H
  end.
  2: { destruct (shown_failure (@nil StreamlitApp.VideoRow.t) e) as [n ->].
       right. eexists; split; reflexivity. }
  cbn [StreamlitApp.shown fst snd].
  steps H.
  match goal with
  | b : bool |- _ => destruct b
  end; [injection H as <- <-; right; eexists; split; reflexivity |].
  steps H.
  match goal with
  | b : bool |- _ => destruct b
  end; [injection H as <- <-; right; eexists; split; reflexivity |].
  steps H. injection H as <- <-. left. split; [reflexivity |].
  match goal with
  | Hn : StreamlitApp.no_items ?r = Ok false, Hg : getitem ?r _ = Ok ?l,
    Hi : iterate ?l = Ok ?items, Hm : mapM StreamlitApp.video_row_of_item ?items = Ok _ |- _ =>
      apply no_items_false in Hn as (listed & Hl & Ht);
      rewrite Hg in Hl; injection Hl as <-;
      pose proof (iterate_truthy _ _ Ht Hi) as Hne;
      apply mapM_length in Hm
  end.
  intros ->. cbn in *.
  match goal with
  | Hm : 0%nat = List.length ?items, Hne : ?items <> [] |- _ =>
      destruct items; [congruence | discriminate Hm]
  end.
Qed.

(** The recent uploads are read with nothing shown, or are missing with
    one warning, which reports an [HttpError]. *)
Lemma recent_videos_outcomes (yt : Api.client) (content_details : value)
    (notices : list StreamlitApp.notice) (recent : list StreamlitApp.RecentVideo.t) :
  StreamlitApp.recent_videos_of yt content_details = Ok (notices, recent) ->
  notices = [] \/
  (recent = [] /\
   exists status,
     notices = [StreamlitApp.StWarning (StreamlitApp.RecentVideosFailed (HttpError status))]).
Proof.
  unfold StreamlitApp.recent_videos_of. intros H. steps H.
  match goal with
  | b : bool |- _ => destruct b
  end; [| injection H as <- <-; now left].
  steps H.
  match type of H with
  | match ?body with _ => _ end = _ => destruct body as [r | e]
  end.
  - injection H as <- <-. now left.
  - destruct e; try discriminate H. injection H as <- <-. right. eauto.
Qed.

(** The channel analysis of the dashboard returns no channel data exactly
    when it shows an error, and then no recent video either; with channel
    data it shows nothing, or the warning that the recent videos are
    missing. *)
Theorem dashboard_channel_outcomes :
  forall (youtube : option Api.client) (channel_id : str),
    let outcome := StreamlitApp.analyze_channel youtube channel_id in
    match fst (snd outcome) with
    | None =>
        snd (snd outcome) = [] /\
        exists t, fst outcome = [StreamlitApp.StError t]
    | Some _ =>
        fst outcome = [] \/
        (snd (snd outcome) = [] /\
         exists status,
           fst outcome
             = [StreamlitApp.StWarning (StreamlitApp.RecentVideosFailed (HttpError status))])
    end.
Proof.
  intros youtube channel_id. cbv zeta. unfold StreamlitApp.analyze_channel.
  destruct youtube as [yt |]; [| cbn; split; eauto].
  match goal with
  | |- context [StreamlitApp.shown _ ?body] =>
      destruct body as [[notices [data recent]] | e] eqn:H
  end.
  2: { destruct e; cbn; split; eauto. }
  cbn [StreamlitApp.shown fst snd].
  steps H.
  match goal with
  | b : bool |- _ => destruct b
  end; [injection H as <- <- <-; split; eauto |].
  steps H. injection H as <- <- <-.
  match goal with
  | Hr : StreamlitApp.recent_videos_of _ _ = Ok ?r |- _ =>
      destruct r as [n rec]; apply recent_videos_outcomes in Hr; exact Hr
  end.
Qed.

(** When the request for the uploads of a channel fails, an [HttpError]
    costs the recent videos only, with a warning; any other exception
    costs the channel data that had been read as well, with an error. *)
Theorem playlist_failure_of_the_dashboard :
  forall (yt : Api.client) (channel_id : str) (response details playlists : dict value)
         (item : value) (rest : list value) (data : StreamlitApp.ChannelData.t)
         (playlist_id : value) (e : exn),
    yt (Api.ChannelsList (lit "statistics,snippet,contentDetails") channel_id)
      = Ok (VDict response) ->
    lookup (lit "items") response = Some (VList (item :: rest)) ->
    StreamlitApp.channel_data_of_item item = Ok (data, VDict details) ->
    lookup (lit "relatedPlaylists") details = Some (VDict playlists) ->
    lookup (lit "uploads") playlists = Some playlist_id ->
    yt (Api.PlaylistItemsList playlist_id) = Raise e ->
    StreamlitApp.analyze_channel (Some yt) channel_id
      = if is_http_error e
        then ([StreamlitApp.StWarning (StreamlitApp.RecentVideosFailed e)], (Some data, []))
        else ([StreamlitApp.StError (StreamlitApp.Unexpected e)], (None, [])).
Proof.
  intros yt channel_id response details playlists item rest data playlist_id e
         Hyt Hitems Hdata Hp Hu He.
  unfold StreamlitApp.analyze_channel. rewrite Hyt. cbn [bind].
  assert (Hresp : truthy (VDict response) = true).
  { destruct response; [discriminate Hitems | reflexivity]. }
  rewrite Hresp. cbn [negb].
  unfold StreamlitApp.no_items. cbn [contains getitem bind]. rewrite Hitems.
  cbn [negb bind truthy getfirst]. rewrite Hdata. cbn [bind snd fst].
  unfold StreamlitApp.recent_videos_of. cbn [contains getitem bind]. rewrite Hp.
  cbn [contains getitem bind]. rewrite Hu. cbn [bind]. rewrite He. cbn [bind].
  destruct e; reflexivity.
Qed.

Lemma playlist_failure_of_the_dashboard_witness :
  (exists data,
     StreamlitApp.analyze_channel (Some (Examples.playlist_failing_client (HttpError 403)))
                                  (lit "UC1")
       = ([StreamlitApp.StWarning (StreamlitApp.RecentVideosFailed (HttpError 403))],
          (Some data, []))) /\
  StreamlitApp.analyze_channel (Some (Examples.playlist_failing_client TransportError))
                               (lit "UC1")
    = ([StreamlitApp.StError (StreamlitApp.Unexpected TransportError)], (None, [])).
Proof.
  split.
  - eexists.
    apply (playlist_failure_of_the_dashboard
             (Examples.playlist_failing_client (HttpError 403)) (lit "UC1")
             [(lit "items", VList [Examples.channel_with_uploads])]
             [(lit "relatedPlaylists", VDict [(lit "uploads", VStr (lit "UU1"))])]
             [(lit "uploads", VStr (lit "UU1"))]
             Examples.channel_with_uploads [] _ (VStr (lit "UU1")) (HttpError 403));
      reflexivity.
  - eapply (playlist_failure_of_the_dashboard
              (Examples.playlist_failing_client TransportError) (lit "UC1")
             [(lit "items", VList [Examples.channel_with_uploads])]
             [(lit "relatedPlaylists", VDict [(lit "uploads", VStr (lit "UU1"))])]
             [(lit "uploads", VStr (lit "UU1"))]
             Examples.channel_with_uploads [] _ (VStr (lit "UU1")) TransportError);
      reflexivity.
Defined.

(** ** The comparison of the dashboard *)

Lemma comparison_data_app (yt : Api.client) (l1 l2 : list str) :
  StreamlitApp.comparison_data yt (l1 ++ l2)
    = (fst (StreamlitApp.comparison_data yt l1) ++ fst (StreamlitApp.comparison_data yt l2),
       snd (StreamlitApp.comparison_data yt l1) ++ snd (StreamlitApp.comparison_data yt l2)).
Proof.
  induction l1 as [| c l1 IH]; cbn [app StreamlitApp.comparison_data].
  - now destruct (StreamlitApp.comparison_data yt l2).
  - rewrite IH.
    destruct (StreamlitApp.comparison_step yt c) as [n1 r1].
    destruct (StreamlitApp.comparison_data yt l1) as [n2 r2].
    cbn [fst snd]. now rewrite !app_assoc.
Qed.

(** One turn of the loop gives a row, a warning that names the channel, or
    nothing. *)
Lemma comparison_step_outcomes (yt : Api.client) (channel_id : str) :
  (exists row, StreamlitApp.comparison_step yt channel_id = ([], [row])) \/
  (exists e, StreamlitApp.comparison_step yt channel_id
             = ([StreamlitApp.StWarning (StreamlitApp.ChannelFailed channel_id e)], [])) \/
  StreamlitApp.comparison_step yt channel_id = ([], []).
Proof.
  unfold StreamlitApp.comparison_step.
  match goal with
  | |- context [match ?body with _ => _ end] => destruct body as [rows | e] eqn:H
  end; [| right; left; eauto].
  steps H.
  match goal with
  | b : bool |- _ => destruct b
  end; [injection H as <-; now right; right |].
  steps H. injection H as <-. left. eauto.
Qed.

(** In the dashboard a channel whose lookup fails costs its own row only:
    the rows of the channels before and after it are kept, and one warning
    that names the channel is shown in its place. *)
Theorem dashboard_comparison_isolates_failures :
  forall (yt : Api.client) (before after : list str) (channel_id : str) (e : exn),
    yt (Api.ChannelsList (lit "statistics,snippet") channel_id) = Raise e ->
    StreamlitApp.comparison_data yt (before ++ channel_id :: after)
      = (fst (StreamlitApp.comparison_data yt before)
           ++ StreamlitApp.StWarning (StreamlitApp.ChannelFailed channel_id e)
           :: fst (StreamlitApp.comparison_data yt after),
         snd (StreamlitApp.comparison_data yt before)
           ++ snd (StreamlitApp.comparison_data yt after)).
Proof.
  intros yt before after channel_id e H.
  rewrite comparison_data_app. cbn [StreamlitApp.comparison_data].
  unfold StreamlitApp.comparison_step at 1 2. rewrite H. cbn [bind].
  destruct (StreamlitApp.comparison_data yt after). reflexivity.
Qed.

Lemma dashboard_comparison_isolates_failures_witness :
  StreamlitApp.comparison_data (Examples.failing_client (HttpError 404)) [lit "UC1"; lit "UC2"]
    = ([StreamlitApp.StWarning (StreamlitApp.ChannelFailed (lit "UC1") (HttpError 404));
        StreamlitApp.StWarning (StreamlitApp.ChannelFailed (lit "UC2") (HttpError 404))],
       []).
Proof.
  exact (dashboard_comparison_isolates_failures
           (Examples.failing_client (HttpError 404)) [] [lit "UC2"] (lit "UC1")
           (HttpError 404) eq_refl).
Defined.

(** Every channel of the comparison gives at most one row or one warning,
    rows and warnings are in the order of the channels, and every warning
    names a channel of the list. *)
Theorem dashboard_comparison_counts :
  forall (yt : Api.client) (channels : list str),
    let outcome := StreamlitApp.comparison_data yt channels in
    (List.length (fst outcome) + List.length (snd outcome) <= List.length channels)%nat /\
    Forall (fun n => exists channel_id e,
                       In channel_id channels /\
                       n = StreamlitApp.StWarning (StreamlitApp.ChannelFailed channel_id e))
           (fst outcome).
Proof.
  intros yt channels. cbv zeta.
  induction channels as [| c channels [IHlen IHw]]; cbn [StreamlitApp.comparison_data].
  - cbn. split; [lia | constructor].
  - destruct (StreamlitApp.comparison_data yt channels) as [n2 r2]. cbn [fst snd] in *.
    assert (Hw : Forall (fun n => exists channel_id e,
                           In channel_id (c :: channels) /\
                           n = StreamlitApp.StWarning
                                 (StreamlitApp.ChannelFailed channel_id e)) n2).
    { eapply Forall_impl; [| exact IHw]. cbn. intros n (id & e & Hin & ->). eauto 6. }
    destruct (comparison_step_outcomes yt c) as [[row ->] | [[e ->] | ->]];
      cbn [fst snd app List.length]; (split; [lia |]); try exact Hw.
    constructor; [| exact Hw]. exists c, e. split; [now left | reflexivity].
Qed.

(** ** The keyword page *)

Lemma StronglySorted_firstn {A} (R : A -> A -> Prop) (n : nat) (l : list A) :
  StronglySorted R l -> StronglySorted R (firstn n l).
Proof.
  intros H. revert n. induction H as [| a l Hl IH Ha]; intros [| n]; cbn [firstn];
    try constructor; [apply IH |].
  rewrite Forall_forall in Ha |- *. intros x Hx. apply Ha.
  rewrite <- (firstn_skipn n l). apply in_or_app. now left.
Qed.

Section KeywordPage.
Variable lower : str -> str.
Variable base_keyword : str.

Lemma tokens_kept (titles : list str) :
  Forall (fun w => 3 < len w /\ w <> lower base_keyword)
         (Spec.tokens lower [lower base_keyword] titles).
Proof.
  unfold Spec.tokens. apply Forall_forall. intros w Hw.
  apply in_flat_map in Hw as [t [_ Hw]]. apply filter_In in Hw as [_ Hk].
  apply andb_prop in Hk as [Hlen Hne]. cbn [existsb] in Hne. rewrite orb_false_r in Hne.
  apply Z.ltb_lt in Hlen. apply negb_true_iff, str_eqb_neq in Hne. auto.
Qed.

(** The loop ends only if every title that it read was a string. *)
Lemma count_items_read (items : list value) (keywords result : dict Z) :
  StreamlitApp.count_items lower base_keyword keywords items = Ok result ->
  exists titles,
    Forall2 (fun item title => StreamlitApp.lowered_title lower item = Ok (lower title))
            items titles.
Proof.
  revert keywords. induction items as [| item items IH]; intros keywords H.
  - exists []. constructor.
  - cbn [StreamlitApp.count_items] in H.
    destruct (StreamlitApp.lowered_title lower item) as [t |] eqn:Ht; [| discriminate H].
    cbn [bind] in H. apply IH in H as [titles Hall].
    assert (Hs : exists s, t = lower s).
    { unfold StreamlitApp.lowered_title in Ht. steps Ht.
      match type of Ht with
      | match ?v with _ => _ end = _ => destruct v; try discriminate Ht
      end.
      injection Ht as <-. eauto. }
    destruct Hs as [s ->]. exists (s :: titles). now constructor.
Qed.

(** What the page lists is a table of kept tokens, sorted. *)
Lemma listed_keywords (titles : list str) :
  let listed := StreamlitApp.top_keywords lower base_keyword titles in
  (List.length listed <= 20)%nat /\
  NoDup (map fst listed) /\
  Forall (fun e => 3 < len (fst e) /\ fst e <> lower base_keyword /\ 1 <= snd e) listed /\
  StronglySorted (fun a b => snd b <= snd a) listed.
Proof.
  cbv zeta. unfold StreamlitApp.top_keywords.
  change (@nil (str * Z)) with (Spec.frequency_table []).
  rewrite count_titles_table. cbn [app].
  set (tokens := Spec.tokens lower [lower base_keyword] titles).
  set (table := Spec.frequency_table tokens).
  assert (Hperm : Permutation (sorted_reverse Z.ltb snd table) table)
    by apply sorted_reverse_perm.
  assert (Hkeys : NoDup (map fst table)).
  { unfold table, Spec.frequency_table. rewrite map_map. cbn [fst]. rewrite map_id.
    apply first_seen_NoDup. }
  assert (Hall : Forall (fun e => 3 < len (fst e) /\ fst e <> lower base_keyword /\
                                  1 <= snd e) table).
  { unfold table, Spec.frequency_table. apply Forall_forall. intros e He.
    apply in_map_iff in He as (w & <- & Hw). cbn [fst snd].
    apply (proj1 (first_seen_In _ _)) in Hw.
    pose proof (tokens_kept titles) as Hk. rewrite Forall_forall in Hk.
    destruct (Hk w Hw) as [H1 H2]. split; [exact H1 | split; [exact H2 |]].
    now apply occurrences_present. }
  set (ranked := sorted_reverse Z.ltb snd table) in *.
  split; [apply firstn_le_length |]. split; [| split].
  - assert (Hr : NoDup (map fst ranked)).
    { eapply Permutation_NoDup; [| exact Hkeys].
      apply Permutation_map. now apply Permutation_sym. }
    rewrite <- (firstn_skipn 20 ranked), map_app in Hr.
    now apply NoDup_app_remove_r in Hr.
  - assert (Hr : Forall (fun e => 3 < len (fst e) /\ fst e <> lower base_keyword /\
                                  1 <= snd e) ranked).
    { eapply Permutation_Forall; [| exact Hall]. now apply Permutation_sym. }
    rewrite <- (firstn_skipn 20 ranked) in Hr. now apply Forall_app in Hr.
  - apply StronglySorted_firstn.
    apply StronglySorted_impl with (R := not_smaller Z.ltb snd).
    + intros a b H. unfold not_smaller in H. apply Z.ltb_ge in H. exact H.
    + apply sorted_reverse_sorted with (ordered := fun _ => True).
      * exact Z_ltb_asym.
      * exact Z_ltb_negtrans.
      * apply Forall_forall. auto.
Qed.

(** With a response whose items have strings as titles, the page lists
    the keywords of those titles, or warns that there is none. *)
Lemma keyword_page_of_titles (yt : Api.client) (response : dict value)
    (items : list value) (titles : list str) :
  base_keyword <> [] ->
  yt (Api.SearchList base_keyword 50 None) = Ok (VDict response) ->
  lookup (lit "items") response = Some (VList items) ->
  items <> [] ->
  Forall2 (fun item title => StreamlitApp.lowered_title lower item = Ok (lower title))
          items titles ->
  StreamlitApp.keyword_page lower base_keyword (Some yt)
    = (match StreamlitApp.top_keywords lower base_keyword titles with
       | [] => [StreamlitApp.PageWarning StreamlitApp.NoRelatedKeywords]
       | _ :: _ => []
       end,
       StreamlitApp.top_keywords lower base_keyword titles).
Proof.
  intros Hbase Hyt Hitems Hne Hall.
  unfold StreamlitApp.keyword_page, StreamlitApp.no_items.
  destruct base_keyword as [| c base] eqn:Eb; [congruence |]. rewrite <- Eb in *.
  rewrite Hyt. cbn [bind contains getitem]. rewrite Hitems. cbn [negb bind truthy iterate].
  destruct items as [| item items]; [congruence |]. cbn [negb].
  rewrite (count_items_titles lower base_keyword _ _ _ Hall). cbn [bind]. cbv zeta.
  fold (StreamlitApp.top_keywords lower base_keyword titles).
  destruct (StreamlitApp.top_keywords lower base_keyword titles); reflexivity.
Qed.

End KeywordPage.

(** With a keyword and a response whose items are records with a snippet
    and a string as title, the keyword page lists the keywords of those
    titles, as [top_keywords] ranks them, and shows nothing else; when no
    keyword is kept it shows one warning instead. *)
Theorem keyword_page_counts_the_titles :
  forall (lower : str -> str) (base_keyword : str) (yt : Api.client)
         (response : dict value) (items : list value) (titles : list str),
    base_keyword <> [] ->
    yt (Api.SearchList base_keyword 50 None) = Ok (VDict response) ->
    lookup (lit "items") response = Some (VList items) ->
    items <> [] ->
    Forall2 (fun item title =>
               exists fields snippet,
                 item = VDict fields /\
                 lookup (lit "snippet") fields = Some (VDict snippet) /\
                 lookup (lit "title") snippet = Some (VStr title))
            items titles ->
    StreamlitApp.keyword_page lower base_keyword (Some yt)
      = (match StreamlitApp.top_keywords lower base_keyword titles with
         | [] => [StreamlitApp.PageWarning StreamlitApp.NoRelatedKeywords]
         | _ :: _ => []
         end,
         StreamlitApp.top_keywords lower base_keyword titles).
Proof.
  intros lower base_keyword yt response items titles Hbase Hyt Hitems Hne Hall.
  apply (keyword_page_of_titles lower base_keyword yt response items titles);
    try assumption.
  eapply Forall2_impl; [| exact Hall].
  intros item title (fields & snippet & -> & Hs & Ht).
  unfold StreamlitApp.lowered_title. cbn [get]. rewrite Hs. cbn [bind get].
  rewrite Ht. reflexivity.
Qed.

Lemma keyword_page_counts_the_titles_witness :
  StreamlitApp.keyword_page Examples.ascii_lower (lit "python")
    (Some (Examples.answering_client [Examples.video_item "200" "3" "1" []]))
    = ([], [(lit "title", 1)]).
Proof.
  apply (keyword_page_counts_the_titles Examples.ascii_lower (lit "python")
           (Examples.answering_client [Examples.video_item "200" "3" "1" []])
           [(lit "items", VList [Examples.video_item "200" "3" "1" []])]
           [Examples.video_item "200" "3" "1" []] [lit "Title"]).
  - discriminate.
  - reflexivity.
  - reflexivity.
  - discriminate.
  - constructor; [| constructor].
    eexists. eexists. split; [reflexivity |]. split; reflexivity.
Defined.

(** Whatever the client answers, the keyword page shows either keywords
    and no notice, or no keyword and exactly one notice.  It lists at most
    20 keywords, each once, each longer than 3 characters, other than the
    lower-cased base keyword and counted at least once, in descending
    order of their counts. *)
Theorem keyword_page_results :
  forall (lower : str -> str) (base_keyword : str) (youtube : option Api.client),
    let outcome := StreamlitApp.keyword_page lower base_keyword youtube in
    ((fst outcome = [] /\ snd outcome <> []) \/
     ((exists n, fst outcome = [n]) /\ snd outcome = [])) /\
    (List.length (snd outcome) <= 20)%nat /\
    NoDup (map fst (snd outcome)) /\
    Forall (fun e => 3 < len (fst e) /\ fst e <> lower base_keyword /\ 1 <= snd e)
           (snd outcome) /\
    StronglySorted (fun a b => snd b <= snd a) (snd outcome).
Proof.
  intros lower base_keyword youtube. cbv zeta.
  assert (Hnone : forall n : StreamlitApp.page_notice,
            let outcome := ([n], @nil (str * Z)) in
            ((fst outcome = [] /\ snd outcome <> []) \/
             ((exists n, fst outcome = [n]) /\ snd outcome = [])) /\
            (List.length (snd outcome) <= 20)%nat /\
            NoDup (map fst (snd outcome)) /\
            Forall (fun e : str * Z =>
                      3 < len (fst e) /\ fst e <> lower base_keyword /\ 1 <= snd e)
                   (snd outcome) /\
            StronglySorted (fun a b : str * Z => snd b <= snd a) (snd outcome)).
  { intros n. cbn. split; [right; eauto |]. split; [lia |].
    split; [constructor |]. split; constructor. }
  unfold StreamlitApp.keyword_page.
  destruct base_keyword as [| c base] eqn:Eb; [apply Hnone |]. rewrite <- Eb in *.
  destruct youtube as [yt |]; [| apply Hnone].
  match goal with
  | |- context [StreamlitApp.page_shown _ ?body] =>
      destruct body as [[notices listed] | e] eqn:H
  end.
  2: { destruct e; apply Hnone. }
  cbn [StreamlitApp.page_shown]. steps H.
  match goal with
  | b : bool |- _ => destruct b
  end; [injection H as <- <-; apply Hnone |].
  steps H. cbv zeta in H.
  match goal with
  | Hc : StreamlitApp.count_items _ _ _ _ = Ok _ |- _ =>
      destruct (count_items_read _ _ _ _ _ Hc) as [titles Hall];
      rewrite (count_items_titles lower base_keyword _ _ _ Hall) in Hc;
      injection Hc as <-
  end.
  fold (StreamlitApp.top_keywords lower base_keyword titles) in H.
  pose proof (listed_keywords lower base_keyword titles) as Hlisted. cbv zeta in Hlisted.
  destruct (StreamlitApp.top_keywords lower base_keyword titles) as [| k top];
    injection H as <- <-; [apply Hnone |].
  cbn [fst snd]. split; [left; split; [reflexivity | discriminate] | exact Hlisted].
Qed.

(** ** The channel id typed as a URL *)

Lemma is_substring_unfold (p s : str) :
  is_substring p s
    = is_prefix p s || match s with [] => false | _ :: s' => is_substring p s' end.
Proof. destruct s; reflexivity. Qed.

Lemma is_prefix_is_substring (p s : str) : is_prefix p s = true -> is_substring p s = true.
Proof. intros H. rewrite is_substring_unfold, H. reflexivity. Qed.

Lemma is_substring_cons (p : str) (c : codepoint) (s : str) :
  is_substring p s = true -> is_substring p (c :: s) = true.
Proof. intros H. rewrite is_substring_unfold, H. apply orb_true_r. Qed.

(** A text that contains [a ++ b] contains [b]. *)
Lemma is_substring_of_suffix (a b s : str) :
  is_substring (a ++ b) s = true -> is_substring b s = true.
Proof.
  assert (Hp : forall a s, is_prefix (a ++ b) s = true -> is_substring b s = true).
  { clear a s. induction a as [| x a IH]; intros s H; cbn [app] in H.
    - now apply is_prefix_is_substring.
    - destruct s as [| y s]; cbn [is_prefix] in H; [discriminate |].
      apply andb_prop in H as [_ H]. apply is_substring_cons. now apply IH. }
  induction s as [| c s IH]; rewrite is_substring_unfold; intros H.
  - rewrite orb_false_r in H. now apply Hp in H.
  - apply orb_prop in H as [H | H]; [now apply Hp in H |].
    apply is_substring_cons. now apply IH.
Qed.

Lemma split_sep_pieces (sep : str) (skip : nat) (cur s : str) :
  (1 <= List.length (split_sep sep skip cur s))%nat.
Proof.
  revert skip cur. induction s as [| c s IH]; intros skip cur; cbn [split_sep].
  - cbn. lia.
  - destruct skip; [| apply IH].
    destruct (is_prefix sep (c :: s)); [cbn [List.length]; lia | apply IH].
Qed.

(** A text that contains the separator has a second piece. *)
Lemma split_sep_second_piece (sep cur s : str) :
  sep <> [] -> is_substring sep s = true ->
  (2 <= List.length (split_sep sep 0 cur s))%nat.
Proof.
  intros Hsep. revert cur. induction s as [| c s IH]; intros cur H;
    rewrite is_substring_unfold in H.
  - destruct sep; [congruence | discriminate H].
  - cbn [split_sep]. destruct (is_prefix sep (c :: s)).
    + cbn [List.length]. pose proof (split_sep_pieces sep (List.length sep - 1) [] s). lia.
    + cbn [orb] in H. now apply IH.
Qed.

(** The pieces between the occurrences of one code point do not hold it. *)
Lemma split_sep_without (c : codepoint) (cur s : str) :
  ~ In c cur -> Forall (fun piece => ~ In c piece) (split_sep [c] 0 cur s).
Proof.
  revert cur. induction s as [| x s IH]; intros cur Hcur; cbn [split_sep].
  - constructor; [| constructor]. now rewrite <- in_rev.
  - cbn [is_prefix]. rewrite andb_true_r. destruct (N.eqb_spec c x) as [-> | Hne].
    + constructor; [now rewrite <- in_rev |]. cbn [List.length Nat.sub]. apply IH. tauto.
    + apply IH. cbn [In]. intros [-> | H]; [congruence | tauto].
Qed.

Lemma piece_in (pieces : list str) (i : nat) (x : str) :
  piece pieces i = Ok x -> In x pieces.
Proof.
  unfold piece. destruct (nth_error pieces i) eqn:E; [| discriminate].
  intros [= <-]. eapply nth_error_In; eassumption.
Qed.

Lemma piece_within (pieces : list str) (i : nat) :
  (i < List.length pieces)%nat -> exists x, piece pieces i = Ok x.
Proof.
  intros H. unfold piece. destruct (nth_error pieces i) eqn:E; [eauto |].
  apply nth_error_None in E. lia.
Qed.

(** The text typed in the channel page always yields a channel id: the
    index 1 of the split is in range whenever the guard holds.  A text
    without "youtube.com/channel/" is the id as it is; from a text with
    it, the id is a part of the text that holds no "/". *)
Theorem extract_channel_id_never_fails :
  forall (channel_input : str),
    exists channel_id,
      StreamlitApp.extract_channel_id channel_input = Ok channel_id /\
      (is_substring (lit "youtube.com/channel/") channel_input = false ->
       channel_id = channel_input) /\
      (is_substring (lit "youtube.com/channel/") channel_input = true ->
       ~ In 47%N channel_id).
Proof.
  intros channel_input. unfold StreamlitApp.extract_channel_id.
  destruct (is_substring (lit "youtube.com/channel/") channel_input) eqn:Hm.
  2: { exists channel_input. split; [reflexivity |]. split; [reflexivity | discriminate]. }
  apply (is_substring_of_suffix (lit "youtube.com/") (lit "channel/")) in Hm.
  destruct (piece_within (split_on (lit "channel/") channel_input) 1) as [after Hafter].
  { unfold split_on. apply split_sep_second_piece with (cur := []) in Hm; [lia |].
    discriminate. }
  rewrite Hafter. cbn [bind].
  destruct (piece_within (split_on (lit "/") after) 0) as [id Hid].
  { unfold split_on. pose proof (split_sep_pieces (lit "/") 0 [] after). lia. }
  exists id. split; [exact Hid |]. split; [discriminate |]. intros _.
  apply piece_in in Hid. unfold split_on in Hid.
  pose proof (split_sep_without 47%N [] after (fun H => H)) as Hall.
  rewrite Forall_forall in Hall. exact (Hall id Hid).
Qed.

Lemma extract_channel_id_never_fails_witness :
  exists channel_id,
    StreamlitApp.extract_channel_id (lit "https://www.youtube.com/channel/UC123//")
      = Ok channel_id /\
    ~ In 47%N channel_id.
Proof.
  destruct (extract_channel_id_never_fails (lit "https://www.youtube.com/channel/UC123//"))
    as (channel_id & H & _ & Hno).
  exists channel_id. split; [exact H | apply Hno; reflexivity].
Defined.

Lemma is_prefix_app (p t : str) : is_prefix p (p ++ t) = true.
Proof. induction p as [| x p IH]; cbn [is_prefix app]; [| rewrite N.eqb_refl]; auto. Qed.

Lemma is_substring_app_l (p a s : str) :
  is_substring p s = true -> is_substring p (a ++ s) = true.
Proof. intros H. induction a as [| c a IH]; [exact H | now apply is_substring_cons]. Qed.

(** A match of [p] reads the first [length p] code points only. *)
Lemma is_prefix_firstn (p x s : str) (n : nat) :
  is_prefix p (x ++ s) = true -> (List.length p <= List.length x + n)%nat ->
  is_prefix p (x ++ firstn n s) = true.
Proof.
  revert x s n. induction p as [| c p IH]; intros x s n H Hlen; [reflexivity |].
  destruct x as [| y x]; cbn [app] in *.
  - destruct s as [| y s]; [discriminate H |].
    destruct n as [| n]; [cbn in Hlen; lia |].
    cbn [firstn is_prefix] in *. apply andb_prop in H as [-> H]. cbn [andb].
    apply (IH [] s n H). cbn in *. lia.
  - cbn [is_prefix] in *. apply andb_prop in H as [-> H]. cbn [andb].
    apply IH; [exact H | cbn in Hlen; lia].
Qed.

Lemma is_prefix_in (p x : str) (c : codepoint) :
  is_prefix p x = true -> In c p -> In c x.
Proof.
  revert x. induction p as [| y p IH]; intros x H Hc; [contradiction |].
  destruct x as [| z x]; [discriminate H |]. cbn [is_prefix] in H.
  apply andb_prop in H as [Hy H]. apply N.eqb_eq in Hy. subst z.
  destruct Hc as [-> | Hc]; [now left | right; now apply IH].
Qed.

(** Where the text before the first occurrence of the separator goes. *)
Lemma split_sep_skip (sep x cur t : str) :
  split_sep sep (List.length x) cur (x ++ t) = split_sep sep 0 cur t.
Proof. induction x as [| c x IH]; [destruct t; reflexivity | exact IH]. Qed.

Lemma split_sep_before (sep a cur s : str) :
  (forall a1 a2, a = a1 ++ a2 -> a2 <> [] -> is_prefix sep (a2 ++ s) = false) ->
  split_sep sep 0 cur (a ++ s) = split_sep sep 0 (rev a ++ cur) s.
Proof.
  revert cur. induction a as [| c a IH]; intros cur H; [reflexivity |].
  assert (Hc : is_prefix sep ((c :: a) ++ s) = false)
    by (apply (H [] (c :: a)); [reflexivity | discriminate]).
  cbn [app] in Hc. cbn [app split_sep]. rewrite Hc, IH.
  - cbn [rev]. now rewrite <- app_assoc.
  - intros a1 a2 -> Ha2. apply (H (c :: a1) a2); [reflexivity | exact Ha2].
Qed.

Lemma split_sep_at (c : codepoint) (sep cur t : str) :
  split_sep (c :: sep) 0 cur ((c :: sep) ++ t)
    = rev cur :: split_sep (c :: sep) 0 [] t.
Proof.
  cbn [app split_sep].
  change (is_prefix (c :: sep) (c :: sep ++ t)) with (is_prefix (c :: sep) ((c :: sep) ++ t)).
  rewrite is_prefix_app. cbn [List.length Nat.sub]. rewrite Nat.sub_0_r.
  now rewrite split_sep_skip.
Qed.

Lemma split_sep_head (sep cur s : str) :
  exists rest pieces, split_sep sep 0 cur s = (rev cur ++ rest) :: pieces.
Proof.
  revert cur. induction s as [| c s IH]; intros cur; cbn [split_sep].
  - exists [], []. now rewrite app_nil_r.
  - destruct (is_prefix sep (c :: s)).
    + exists [], (split_sep sep (List.length sep - 1) [] s). now rewrite app_nil_r.
    + destruct (IH (c :: cur)) as (rest & pieces & ->).
      exists (c :: rest), pieces. cbn [rev]. now rewrite <- app_assoc.
Qed.

Lemma no_occurrence_before (sep a s : str) :
  is_substring sep (a ++ firstn (List.length sep - 1) s) = false ->
  forall a1 a2, a = a1 ++ a2 -> a2 <> [] -> is_prefix sep (a2 ++ s) = false.
Proof.
  intros H a1 a2 -> Ha2. destruct (is_prefix sep (a2 ++ s)) eqn:E; [| reflexivity].
  apply is_prefix_firstn with (n := (List.length sep - 1)%nat) in E.
  - apply is_prefix_is_substring, (is_substring_app_l _ a1) in E.
    rewrite app_assoc in E. congruence.
  - destruct a2; [congruence | cbn [List.length]; lia].
Qed.

(** A word followed by [c] is matched, in a text whose first [c] follows
    [b], at [b] only if [b] is the word. *)
Lemma is_prefix_up_to (c : codepoint) (w b r : str) :
  ~ In c w -> ~ In c b -> is_prefix (w ++ [c]) (b ++ c :: r) = true -> b = w.
Proof.
  revert b. induction w as [| x w IH]; intros b Hw Hb H.
  - destruct b as [| y b]; [reflexivity |]. cbn [app is_prefix] in H.
    rewrite andb_true_r in H. apply N.eqb_eq in H. subst y. cbn [In] in Hb. tauto.
  - destruct b as [| y b]; cbn [app is_prefix] in H; apply andb_prop in H as [Hx H];
      apply N.eqb_eq in Hx.
    + subst x. cbn [In] in Hw. tauto.
    + subst y. f_equal. apply IH; [| | exact H]; cbn [In] in *; tauto.
Qed.

Lemma suffix_before_last (c : codepoint) (a a1 a2 : str) :
  a ++ [c] = a1 ++ a2 -> a2 <> [] -> exists b, a2 = b ++ [c] /\ a = a1 ++ b.
Proof.
  intros H Ha2. destruct (exists_last Ha2) as (b & y & ->).
  rewrite app_assoc in H. apply app_inj_tail in H as [-> <-]. eauto.
Qed.

Lemma split_on_first (c : codepoint) (sep a t : str) :
  is_substring (c :: sep) (a ++ firstn (List.length sep) ((c :: sep) ++ t)) = false ->
  split_on (c :: sep) (a ++ (c :: sep) ++ t) = a :: split_sep (c :: sep) 0 [] t.
Proof.
  intros H. unfold split_on. rewrite split_sep_before.
  - now rewrite split_sep_at, app_nil_r, rev_involutive.
  - apply no_occurrence_before. cbn [List.length Nat.sub]. now rewrite Nat.sub_0_r.
Qed.

Lemma split_on_absent (sep a : str) :
  (forall a1 a2, a = a1 ++ a2 -> a2 <> [] -> is_prefix sep a2 = false) ->
  split_on sep a = [a].
Proof.
  intros H. unfold split_on. rewrite <- (app_nil_r a) at 1. rewrite split_sep_before.
  - cbn [split_sep]. now rewrite app_nil_r, rev_involutive.
  - intros a1 a2 E Ha2. rewrite app_nil_r. eauto.
Qed.

Lemma split_on_code_point (c : codepoint) (a t : str) :
  ~ In c a -> exists pieces, split_on [c] (a ++ c :: t) = a :: pieces.
Proof.
  intros H. unfold split_on. rewrite split_sep_before.
  - change (c :: t) with ([c] ++ t). rewrite split_sep_at, app_nil_r, rev_involutive. eauto.
  - intros a1 a2 -> Ha2. destruct a2 as [| y a2]; [congruence |].
    cbn [app is_prefix]. rewrite andb_true_r. apply N.eqb_neq. intros ->.
    apply H, in_or_app. right. now left.
Qed.

Lemma split_on_without (sep a : str) (c : codepoint) :
  In c sep -> ~ In c a -> split_on sep a = [a].
Proof.
  intros Hc Ha. apply split_on_absent. intros a1 a2 -> _.
  destruct (is_prefix sep a2) eqn:E; [| reflexivity].
  exfalso. apply Ha, in_or_app. right. eapply is_prefix_in; eassumption.
Qed.

(** From a URL that ends in "youtube.com/channel/" and an id, or in which
    a "/" and more text follow the id, the page extracts the id, provided
    that "channel/" does not occur before, that the id holds no "/" and
    that, when text follows, the id does not end in "channel". *)
Theorem extract_channel_id_of_url :
  forall (site id rest : str),
    is_substring (lit "channel/") (site ++ lit "youtube.com/channel") = false ->
    ~ In 47%N id ->
    rest = [] \/
    ((exists path, rest = 47%N :: path) /\
     is_prefix (rev (lit "channel")) (rev id) = false) ->
    StreamlitApp.extract_channel_id (site ++ lit "youtube.com/channel/" ++ id ++ rest)
      = Ok id.
Proof.
  intros site id rest Hsite Hid Hrest. unfold StreamlitApp.extract_channel_id.
  assert (Hm : is_substring (lit "youtube.com/channel/")
                 (site ++ lit "youtube.com/channel/" ++ id ++ rest) = true)
    by apply is_substring_app_l, is_prefix_is_substring, is_prefix_app.
  rewrite Hm.
  assert (Hfirst : split_on (lit "channel/")
                     (site ++ lit "youtube.com/channel/" ++ id ++ rest)
                   = (site ++ lit "youtube.com/")
                       :: split_sep (lit "channel/") 0 [] (id ++ rest)).
  { pose proof (split_on_first 99%N (lit "hannel/") (site ++ lit "youtube.com/")
                  (id ++ rest)) as H.
    rewrite <- !app_assoc in H. apply H. exact Hsite. }
  rewrite Hfirst. clear Hfirst Hm.
  destruct Hrest as [-> | [[path ->] Hend]].
  - rewrite app_nil_r.
    change (split_sep (lit "channel/") 0 [] id) with (split_on (lit "channel/") id).
    rewrite (split_on_without (lit "channel/") id 47%N); [| cbn; tauto | exact Hid].
    cbn [piece nth_error bind].
    rewrite (split_on_without (lit "/") id 47%N); [reflexivity | cbn; tauto | exact Hid].
  - assert (Hafter : exists more pieces,
              split_sep (lit "channel/") 0 [] (id ++ 47%N :: path)
                = (id ++ 47%N :: more) :: pieces).
    { change (id ++ 47%N :: path) with (id ++ [47%N] ++ path). rewrite app_assoc.
      rewrite split_sep_before.
      - match goal with
        | |- context [split_sep ?sep 0 ?cur path] =>
            destruct (split_sep_head sep cur path) as (more & pieces & ->)
        end.
        exists more, pieces. now rewrite app_nil_r, rev_involutive, <- app_assoc.
      - intros a1 a2 E Ha2.
        destruct (suffix_before_last _ _ _ _ E Ha2) as (b & -> & ->).
        match goal with
        | |- ?matched = false => destruct matched eqn:Hp; [| reflexivity]
        end.
        exfalso. rewrite <- app_assoc in Hp.
        apply (is_prefix_up_to 47%N (lit "channel") b path) in Hp.
        + subst b. rewrite rev_app_distr, is_prefix_app in Hend. discriminate.
        + cbn. intuition discriminate.
        + intros H. apply Hid, in_or_app. now right. }
    destruct Hafter as (more & pieces & ->). cbn [piece nth_error bind].
    destruct (split_on_code_point 47%N id more Hid) as [pieces' Hs].
    match goal with
    | |- context [split_on ?sep ?text] =>
        replace (split_on sep text) with (id :: pieces') by (symmetry; exact Hs)
    end.
    reflexivity.
Qed.

Lemma extract_channel_id_of_url_witness :
  StreamlitApp.extract_channel_id
    (lit "https://www." ++ lit "youtube.com/channel/" ++ lit "UC123" ++ lit "/videos")
    = Ok (lit "UC123").
Proof.
  apply extract_channel_id_of_url.
  - reflexivity.
  - cbn. intuition discriminate.
  - right. split; [eexists; reflexivity | reflexivity].
Defined.

(** ** The radar chart of the comparison *)

Lemma div_eucl_shifted (m : positive) :
  Z.div_eucl (Z.shiftl (Zpos m) 53) (Zpos m) = (2 ^ 53, 0).
Proof.
  rewrite Z.shiftl_mul_pow2 by lia.
  pose proof (Z.div_eucl_eq (Zpos m * 2 ^ 53) (Zpos m) ltac:(lia)) as H.
  pose proof (Z.mod_pos_bound (Zpos m * 2 ^ 53) (Zpos m) ltac:(lia)) as Hb.
  unfold Z.modulo in Hb.
  destruct (Z.div_eucl (Zpos m * 2 ^ 53) (Zpos m)) as [q r].
  assert (r = 0 /\ q = 2 ^ 53) as [-> ->]; [| reflexivity].
  assert (Hr : Zpos m * (2 ^ 53 - q) = r) by lia.
  assert (2 ^ 53 - q = 0) by nia.
  split; [nia | lia].
Qed.

(** A finite number divided by itself is 1.0, whatever its mantissa. *)
Lemma SFdiv_self (s : bool) (m : positive) (e : Z) :
  SFdiv prec emax (S754_finite s m e) (S754_finite s m e)
    = S754_finite false 4503599627370496 (-52).
Proof.
  unfold SFdiv, SFdiv_core_binary.
  replace (Zdigits2 (Z.pos m) + e - (Zdigits2 (Z.pos m) + e)) with 0 by lia.
  rewrite Z.sub_diag.
  change (IntDef.Z.min (fexp prec emax 0) 0) with (-53).
  change (0 - -53) with 53. cbv iota.
  change (IntDef.Z.div_eucl (IntDef.Z.shiftl (Z.pos m) 53) (Z.pos m))
    with (Z.div_eucl (Z.shiftl (Z.pos m) 53) (Z.pos m)).
  rewrite div_eucl_shifted.
  assert (Hl : new_location (Z.pos m) 0 = loc_Exact).
  { unfold new_location, new_location_even, new_location_odd.
    destruct (Z.even (Z.pos m)); cbn; reflexivity. }
  rewrite Hl, xorb_nilpotent. vm_compute. reflexivity.
Qed.

Lemma fold_max_in (l : list float) (x : float) :
  In (fold_left (fun acc y => if float_ltb acc y then y else acc) l x) (x :: l).
Proof.
  revert x. induction l as [| y l IH]; intros x; cbn [fold_left]; [now left |].
  destruct (float_ltb x y).
  - right. apply IH.
  - destruct (IH x) as [H | H]; [left; exact H | right; right; exact H].
Qed.

Lemma max_float_in (xs : list float) :
  is_nan (StreamlitApp.max_float xs) = false -> In (StreamlitApp.max_float xs) xs.
Proof.
  unfold StreamlitApp.max_float.
  destruct (filter (fun x => negb (is_nan x)) xs) as [| x l] eqn:E; [discriminate |].
  intros _. pose proof (fold_max_in l x) as H. rewrite <- E in H.
  apply filter_In in H. tauto.
Qed.

(** When the greatest average of the compared channels is a positive
    number, the column of averages is scaled, the row that holds the
    greatest average gets exactly 100.0, and an average of zero stays
    zero. *)
Theorem radar_scale_of_the_averages :
  forall (xs : list float) (m : positive) (e : Z),
    StreamlitApp.max_float xs = S754_finite false m e ->
    StreamlitApp.normalized_float_column xs
      = map (fun x => NFloat (StreamlitApp.scaled x (S754_finite false m e))) xs /\
    StreamlitApp.scaled (S754_finite false m e) (S754_finite false m e)
      = S754_finite false 7036874417766400 (-46) /\
    In (NFloat (S754_finite false 7036874417766400 (-46)))
       (StreamlitApp.normalized_float_column xs) /\
    (forall s, In (S754_zero s) xs ->
               In (NFloat (S754_zero s)) (StreamlitApp.normalized_float_column xs)).
Proof.
  intros xs m e Hmax.
  assert (Hcol : StreamlitApp.normalized_float_column xs
                 = map (fun x => NFloat (StreamlitApp.scaled x (S754_finite false m e))) xs).
  { unfold StreamlitApp.normalized_float_column. rewrite Hmax. reflexivity. }
  assert (Hself : StreamlitApp.scaled (S754_finite false m e) (S754_finite false m e)
                  = S754_finite false 7036874417766400 (-46)).
  { unfold StreamlitApp.scaled. rewrite SFdiv_self. vm_compute. reflexivity. }
  split; [exact Hcol |]. split; [exact Hself |]. rewrite Hcol. split.
  - rewrite <- Hself. apply (in_map (fun x => NFloat (StreamlitApp.scaled x _))).
    rewrite <- Hmax. apply max_float_in. now rewrite Hmax.
  - intros s Hs.
    apply (in_map (fun x => NFloat (StreamlitApp.scaled x (S754_finite false m e)))) in Hs.
    destruct s; exact Hs.
Qed.

Lemma radar_scale_of_the_averages_witness :
  StreamlitApp.normalized_float_column
    [S754_finite false 5629499534213120 (-49); S754_zero false]
    = [NFloat (S754_finite false 7036874417766400 (-46)); NFloat (S754_zero false)].
Proof.
  rewrite (proj1 (radar_scale_of_the_averages
                    [S754_finite false 5629499534213120 (-49); S754_zero false]
                    5629499534213120 (-49) eq_refl)).
  reflexivity.
Defined.

(** ** The trend page *)

Lemma is_substring_app_r_false (sep a1 a2 : str) :
  is_substring sep (a1 ++ a2) = false -> is_prefix sep a2 = false.
Proof.
  intros H. destruct (is_prefix sep a2) eqn:E; [| reflexivity].
  apply is_prefix_is_substring, (is_substring_app_l _ a1) in E. congruence.
Qed.

(** The category of the request is always found, index 0 of a split being
    in range: it is the option itself when the option holds no " - ", and
    the text before " - " in an option of the form "id - label". *)
Theorem trend_category_of_the_option :
  (forall category,
     exists category_id,
       StreamlitApp.trend_category_id category = Ok category_id /\
       (is_substring (lit " - ") category = false -> category_id = category)) /\
  (forall category_id label,
     is_substring (lit " - ") (category_id ++ lit " -") = false ->
     StreamlitApp.trend_category_id (category_id ++ lit " - " ++ label) = Ok category_id).
Proof.
  unfold StreamlitApp.trend_category_id. split.
  - intros category.
    destruct (piece_within (split_on (lit " - ") category) 0) as [id Hid].
    { unfold split_on. pose proof (split_sep_pieces (lit " - ") 0 [] category). lia. }
    exists id. split; [exact Hid |]. intros Hnone.
    rewrite split_on_absent in Hid; [cbn in Hid; congruence |].
    intros a1 a2 -> _. now apply is_substring_app_r_false with (a1 := a1).
  - intros category_id label H.
    pose proof (split_on_first 32%N (lit "- ") category_id label H) as Hs.
    match goal with
    | |- piece ?pieces 0 = _ =>
        replace pieces with (category_id :: split_sep (lit " - ") 0 [] label)
          by (symmetry; exact Hs)
    end.
    reflexivity.
Qed.

Lemma trend_category_of_the_option_witness :
  StreamlitApp.trend_category_id (lit "10" ++ lit " - " ++ [38899; 27005]%N) = Ok (lit "10").
Proof.
  apply (proj2 trend_category_of_the_option (lit "10") [38899; 27005]%N). reflexivity.
Defined.

Lemma getitem_get_agree (v : value) (k : str) (d x y : value) :
  getitem v k = Ok x -> get v k d = Ok y -> x = y.
Proof.
  destruct v; cbn [getitem get]; try discriminate.
  destruct (lookup k d0); [congruence | discriminate].
Qed.

Lemma Forall2_same_source {A B C} (P : A -> B -> Prop) (Q : A -> C -> Prop)
    (l : list A) (bs : list B) (cs : list C) :
  Forall2 P l bs -> Forall2 Q l cs ->
  Forall2 (fun b c => exists a, P a b /\ Q a c) bs cs.
Proof.
  intros HP. revert cs. induction HP as [| a b l bs Hab _ IH]; intros cs HQ;
    inversion HQ; subst; constructor; eauto.
Qed.

(** One item of a response, as the service and as the trend page read it. *)
Lemma trend_item_agreement (item : value) (video : App.TrendingVideo.t)
    (row : StreamlitApp.TrendRow.t) :
  App.trending_video_of_item item = Ok video ->
  StreamlitApp.trend_row_of_item item = Ok row ->
  App.TrendingVideo.video_id video = StreamlitApp.TrendRow.video_id row /\
  App.TrendingVideo.title video = StreamlitApp.TrendRow.title row /\
  App.TrendingVideo.channel video = StreamlitApp.TrendRow.channel row /\
  App.TrendingVideo.view_count video = StreamlitApp.TrendRow.views row /\
  App.TrendingVideo.like_count video = StreamlitApp.TrendRow.likes row.
Proof.
  intros Hv Hr.
  unfold App.trending_video_of_item in Hv. unfold StreamlitApp.trend_row_of_item in Hr.
  steps Hv. steps Hr. injection Hv as <-. injection Hr as <-.
  cbn [App.TrendingVideo.video_id App.TrendingVideo.title App.TrendingVideo.channel
       App.TrendingVideo.view_count App.TrendingVideo.like_count
       StreamlitApp.TrendRow.video_id StreamlitApp.TrendRow.title
       StreamlitApp.TrendRow.channel StreamlitApp.TrendRow.views
       StreamlitApp.TrendRow.likes].
  repeat match goal with
         | H1 : getitem ?v ?k = Ok ?x, H2 : get ?v ?k _ = Ok ?y |- _ =>
             pose proof (getitem_get_agree _ _ _ _ _ H1 H2); subst y; clear H2
         end.
  unfold App.int_field, StreamlitApp.int_field in *.
  repeat split; congruence.
Qed.

(** The trend page and the trending endpoint send the same request, and
    when both answer they list the same videos in the same order, with
    the same id, title, channel, views and likes. *)
Theorem trend_page_agrees_with_the_service :
  forall (draw : list StreamlitApp.TrendRow.t -> result unit)
         (yt : Api.client) (region category category_id : str) (max_results : Z)
         (t : App.Trending.t) (rows : list StreamlitApp.TrendRow.t),
    StreamlitApp.trend_category_id category = Ok category_id ->
    App.get_trending_videos (Some yt) region category_id max_results = Ok t ->
    StreamlitApp.trend_page draw (Some yt) region category max_results = ([], rows) ->
    App.Trending.total t = len rows /\
    Forall2 (fun video row =>
               App.TrendingVideo.video_id video = StreamlitApp.TrendRow.video_id row /\
               App.TrendingVideo.title video = StreamlitApp.TrendRow.title row /\
               App.TrendingVideo.channel video = StreamlitApp.TrendRow.channel row /\
               App.TrendingVideo.view_count video = StreamlitApp.TrendRow.views row /\
               App.TrendingVideo.like_count video = StreamlitApp.TrendRow.likes row)
            (App.Trending.videos t) rows.
Proof.
  intros draw yt region category category_id max_results t rows Hcat Hs Hd.
  unfold App.get_trending_videos in Hs. apply try_except_Ok in Hs.
  unfold StreamlitApp.trend_page in Hd. rewrite Hcat in Hd. cbn [bind] in Hd.
  cbv zeta in Hs, Hd.
  destruct (negb (str_eqb category_id (lit "0")));
    steps Hs; injection Hs as <-;
    cbn [App.Trending.total App.Trending.videos];
    repeat match goal with
           | E : ?m = Ok _, Hd : context [bind ?m _] |- _ =>
               rewrite E in Hd; cbn [bind] in Hd
           end;
    (destruct (StreamlitApp.no_items _) as [[|] | e'] in Hd;
       [discriminate Hd | | destruct e'; discriminate Hd]);
    cbn [bind] in Hd;
    repeat match goal with
           | E : ?m = Ok _, Hd : context [bind ?m _] |- _ =>
               rewrite E in Hd; cbn [bind] in Hd
           end;
    (destruct (mapM StreamlitApp.trend_row_of_item _) as [rows' | e'] eqn:Hrows in Hd;
       [| destruct e'; discriminate Hd]);
    cbn [bind] in Hd;
    (destruct (draw rows') as [drawn | e'] in Hd; [| destruct e'; discriminate Hd]);
    cbn [bind StreamlitApp.page_shown] in Hd; injection Hd as <-;
    match goal with
    | Hm : mapM App.trending_video_of_item _ = Ok _ |- _ =>
        pose proof (mapM_length Hm) as Hl1; pose proof (mapM_length Hrows) as Hl2;
        apply mapM_Forall2 in Hm; apply mapM_Forall2 in Hrows;
        (split; [unfold len; congruence |]);
        eapply Forall2_impl; [| exact (Forall2_same_source _ _ _ _ _ Hm Hrows)];
        intros video row (item & Hv & Hr); exact (trend_item_agreement _ _ _ Hv Hr)
    end.
Qed.

Lemma trend_page_agrees_with_the_service_witness :
  exists t rows,
    App.get_trending_videos
      (Some (Examples.answering_client [Examples.video_item "200" "3" "1" []]))
      (lit "JP") (lit "10") 10 = Ok t /\
    StreamlitApp.trend_page (fun _ => Ok tt)
      (Some (Examples.answering_client [Examples.video_item "200" "3" "1" []]))
      (lit "JP") (lit "10" ++ lit " - " ++ [38899; 27005]%N) 10 = ([], rows) /\
    App.Trending.total t = len rows.
Proof.
  eexists. eexists. split; [reflexivity |]. split; [reflexivity |].
  apply (proj1 (trend_page_agrees_with_the_service (fun _ => Ok tt)
                  (Examples.answering_client [Examples.video_item "200" "3" "1" []])
                  (lit "JP") (lit "10" ++ lit " - " ++ [38899; 27005]%N) (lit "10") 10
                  _ _ eq_refl eq_refl eq_refl)).
Defined.

(** ** The two searches *)

(** One item of the details response, as the service and as the dashboard
    read it. *)
Lemma search_item_agreement (item : value) (record : App.VideoInfo.t)
    (row : StreamlitApp.VideoRow.t) :
  App.video_info_of_item item = Ok record ->
  StreamlitApp.video_row_of_item item = Ok row ->
  StreamlitApp.VideoRow.video_id row = VStr (App.VideoInfo.video_id record) /\
  StreamlitApp.VideoRow.title row = VStr (App.VideoInfo.title record) /\
  StreamlitApp.VideoRow.channel row = VStr (App.VideoInfo.channel_title record) /\
  StreamlitApp.VideoRow.views row = App.VideoInfo.view_count record /\
  StreamlitApp.VideoRow.likes row = App.VideoInfo.like_count record /\
  StreamlitApp.VideoRow.comments row = App.VideoInfo.comment_count record /\
  as_float (StreamlitApp.VideoRow.engagement_rate row)
    = Ok (App.VideoInfo.engagement_rate record).
Proof.
  intros Hv Hr.
  unfold App.video_info_of_item in Hv. unfold StreamlitApp.video_row_of_item in Hr.
  steps Hv. steps Hr. injection Hv as <-. injection Hr as <-.
  cbn [App.VideoInfo.video_id App.VideoInfo.title App.VideoInfo.channel_title
       App.VideoInfo.view_count App.VideoInfo.like_count App.VideoInfo.comment_count
       App.VideoInfo.engagement_rate
       StreamlitApp.VideoRow.video_id StreamlitApp.VideoRow.title
       StreamlitApp.VideoRow.channel StreamlitApp.VideoRow.views
       StreamlitApp.VideoRow.likes StreamlitApp.VideoRow.comments
       StreamlitApp.VideoRow.engagement_rate].
  repeat match goal with
         | H1 : getitem ?v ?k = Ok ?x, H2 : get ?v ?k _ = Ok ?y |- _ =>
             pose proof (getitem_get_agree _ _ _ _ _ H1 H2); subst y; clear H2
         end.
  repeat match goal with
         | E : as_str ?v = Ok _ |- _ =>
             destruct v; try discriminate E; cbn [as_str] in E; injection E as <-
         end.
  change StreamlitApp.int_field with App.int_field in *.
  change StreamlitApp.engagement_rate_of with App.engagement_rate_of in *.
  repeat split; congruence.
Qed.

(** The search of the dashboard and the search endpoint send the same two
    requests, and when both answer they list the same videos in the same
    order, with the same id, title, channel, counts and engagement rate;
    a rate that the dashboard holds as the integer 0 is 0.0 in the
    service. *)
Theorem dashboard_search_agrees_with_the_service :
  forall (yt : Api.client) (keyword : str) (max_results : Z) (order : str)
         (records : list App.VideoInfo.t) (rows : list StreamlitApp.VideoRow.t),
    App.search_videos (Some yt) keyword max_results order = Ok records ->
    StreamlitApp.search_videos (Some yt) keyword max_results order = ([], rows) ->
    Forall2 (fun record row =>
               StreamlitApp.VideoRow.video_id row = VStr (App.VideoInfo.video_id record) /\
               StreamlitApp.VideoRow.title row = VStr (App.VideoInfo.title record) /\
               StreamlitApp.VideoRow.channel row
                 = VStr (App.VideoInfo.channel_title record) /\
               StreamlitApp.VideoRow.views row = App.VideoInfo.view_count record /\
               StreamlitApp.VideoRow.likes row = App.VideoInfo.like_count record /\
               StreamlitApp.VideoRow.comments row = App.VideoInfo.comment_count record /\
               as_float (StreamlitApp.VideoRow.engagement_rate row)
                 = Ok (App.VideoInfo.engagement_rate record))
            records rows.
Proof.
  intros yt keyword max_results order records rows Hs Hd.
  unfold App.search_videos in Hs. apply try_except_Ok in Hs.
  unfold StreamlitApp.search_videos in Hd.
  steps Hs.
  repeat match goal with
         | E : ?m = Ok _, Hd : context [bind ?m _] |- _ =>
             rewrite E in Hd; cbn [bind] in Hd
         end.
  destruct (StreamlitApp.no_items _) as [[|] | e'] in Hd;
    [discriminate Hd | | destruct e'; discriminate Hd].
  cbn [bind] in Hd.
  repeat match goal with
         | E : ?m = Ok _, Hd : context [bind ?m _] |- _ =>
             rewrite E in Hd; cbn [bind] in Hd
         end.
  destruct (StreamlitApp.no_items _) as [[|] | e'] in Hd;
    [discriminate Hd | | destruct e'; discriminate Hd].
  cbn [bind] in Hd.
  repeat match goal with
         | E : ?m = Ok _, Hd : context [bind ?m _] |- _ =>
             rewrite E in Hd; cbn [bind] in Hd
         end.
  destruct (mapM StreamlitApp.video_row_of_item _) as [rows' | e'] eqn:Hrows in Hd;
    [| destruct e'; discriminate Hd].
  cbn [bind StreamlitApp.shown] in Hd. injection Hd as <-.
  apply mapM_Forall2 in Hs. apply mapM_Forall2 in Hrows.
  eapply Forall2_impl; [| exact (Forall2_same_source _ _ _ _ _ Hs Hrows)].
  intros record row (item & Hv & Hr). exact (search_item_agreement _ _ _ Hv Hr).
Qed.

Lemma dashboard_search_agrees_with_the_service_witness :
  exists record row,
    App.search_videos (Some (Examples.client [Examples.video_item "200" "3" "1" []]))
                      (lit "python") 10 (lit "relevance") = Ok [record] /\
    StreamlitApp.search_videos (Some (Examples.client [Examples.video_item "200" "3" "1" []]))
                               (lit "python") 10 (lit "relevance") = ([], [row]) /\
    StreamlitApp.VideoRow.views row = App.VideoInfo.view_count record.
Proof.
  eexists. eexists. split; [reflexivity |]. split; [reflexivity |].
  pose proof (dashboard_search_agrees_with_the_service
                (Examples.client [Examples.video_item "200" "3" "1" []])
                (lit "python") 10 (lit "relevance") _ _ eq_refl eq_refl) as H.
  inversion H as [| record row records rows Hhead Htail]; subst.
  exact (proj1 (proj2 (proj2 (proj2 Hhead)))).
Defined.

(** ** The dashboard without a client *)

(** [init_youtube_api] returns no client exactly when it shows an error,
    and then the two functions and the two pages that ask for the client
    first show that it is missing and return nothing, whatever they are
    asked. *)
Theorem dashboard_without_a_client :
  forall (api_key : option str) (build : str -> result Api.client),
    let errors := fst (StreamlitApp.init_youtube_api api_key build) in
    let youtube := snd (StreamlitApp.init_youtube_api api_key build) in
    (youtube = None <-> exists t, errors = [t]) /\
    (youtube <> None <-> errors = []) /\
    (youtube = None ->
     forall draw lower keyword max_results order channel_id region category,
       StreamlitApp.search_videos youtube keyword max_results order
         = ([StreamlitApp.StError StreamlitApp.NotInitialized], []) /\
       StreamlitApp.analyze_channel youtube channel_id
         = ([StreamlitApp.StError StreamlitApp.NotInitialized], (None, [])) /\
       StreamlitApp.trend_page draw youtube region category max_results
         = ([StreamlitApp.PageError StreamlitApp.ClientMissing], []) /\
       (keyword <> [] ->
        StreamlitApp.keyword_page lower keyword youtube
          = ([StreamlitApp.PageError StreamlitApp.ClientMissing], []))).
Proof.
  intros api_key build. unfold StreamlitApp.init_youtube_api.
  assert (Hnone : forall draw lower keyword max_results order channel_id region category,
            StreamlitApp.search_videos None keyword max_results order
              = ([StreamlitApp.StError StreamlitApp.NotInitialized], []) /\
            StreamlitApp.analyze_channel None channel_id
              = ([StreamlitApp.StError StreamlitApp.NotInitialized], (None, [])) /\
            StreamlitApp.trend_page draw None region category max_results
              = ([StreamlitApp.PageError StreamlitApp.ClientMissing], []) /\
            (keyword <> [] ->
             StreamlitApp.keyword_page lower keyword None
               = ([StreamlitApp.PageError StreamlitApp.ClientMissing], []))).
  { intros. split; [reflexivity |]. split; [reflexivity |]. split; [reflexivity |].
    intros Hk. destruct keyword; [congruence | reflexivity]. }
  destruct api_key as [[| c key] |]; cbn [fst snd].
  - split; [split; eauto |]. split; [split; [congruence | discriminate] |]. intros _. apply Hnone.
  - destruct (build (c :: key)) as [client | e]; cbn [fst snd].
    + split; [split; [discriminate | intros [t Ht]; discriminate] |].
      split; [split; [reflexivity | discriminate] | discriminate].
    + split; [split; eauto |]. split; [split; [congruence | discriminate] |].
      intros _. apply Hnone.
  - split; [split; eauto |]. split; [split; [congruence | discriminate] |]. intros _. apply Hnone.
Qed.

Lemma dashboard_without_a_client_witness :
  StreamlitApp.trend_page (fun _ => Ok tt)
    (snd (StreamlitApp.init_youtube_api None (fun _ => Raise TransportError)))
    (lit "JP") (lit "0") 10
    = ([StreamlitApp.PageError StreamlitApp.ClientMissing], []).
Proof.
  exact (proj1 (proj2 (proj2
           (proj2 (proj2 (dashboard_without_a_client None (fun _ => Raise TransportError)))
                  eq_refl (fun _ => Ok tt) Examples.ascii_lower (lit "python") 10
                  (lit "relevance")
                  (lit "UC1") (lit "JP") (lit "0"))))).
Defined.
